(** * Alairy: the timestamp-annotated notes editor

    A shallow embedding of [src/components/NotesPanel.tsx] together with the
    accessors of [VideoPlayer.tsx] and of the index page that it consumes.

    Modelling conventions.
    - An ECMAScript [number] is [NaN], a signed infinity, or an exact
      rational.  Rounding of binary64 and the sign of zero are not
      represented; the decimal printer writes positional notation, which
      is what [Number.prototype.toString] produces between 1e-6 and 1e21.
    - The DOM is a rose tree of text nodes and elements; an element
      carries its attributes and the click listeners registered on it.
      Markup (the value of [innerHTML]) is the same tree without
      listeners and with adjacent text runs coalesced, which is what
      survives a serialise/parse cycle.
    - The component is a record of its React state, refs and props, the
      browser's [localStorage] and pending timeouts; every handler is a
      function on that record.  Values read from the environment
      ([Date.now()], [window.getSelection()], [window.confirm]) are
      arguments of the handler that reads them. *)

From Stdlib Require Import ZArith QArith Qround String Ascii List Lia.
From Stdlib Require Import DecimalString DecimalN Lqa.
From stdpp Require Import gmap strings.

Open Scope Z_scope.

#[local] Arguments String.append !s1 s2 : simpl nomatch.

(* ================================================================== *)
(** * ECMAScript values *)
(* ================================================================== *)

(** ** Strings *)

(** Truthiness of a string: every string but the empty one. *)
Definition truthy_string (s : string) : bool :=
  match s with EmptyString => false | String _ _ => true end.

(** Truthiness of [string | null | undefined]. *)
Definition truthy (o : option string) : bool :=
  match o with Some s => truthy_string s | None => false end.

(** [a || b] on strings that may be undefined. *)
Definition or_string (o : option string) (dflt : string) : string :=
  match o with
  | Some s => if truthy_string s then s else dflt
  | None => dflt
  end.

(** The first [n] characters of the endless repetition of [pad],
    starting inside the current copy [cur]. *)
Fixpoint fill (n : nat) (pad cur : string) : string :=
  match n with
  | O => ""
  | S n' =>
      match cur with
      | String c cur' => String c (fill n' pad cur')
      | EmptyString =>
          match pad with
          | String c pad' => String c (fill n' pad pad')
          | EmptyString => ""
          end
      end
  end.

(** [String.prototype.padStart(targetLength, padString)]. *)
Definition padStart (targetLength : nat) (padString : string) (s : string)
  : string :=
  let len := String.length s in
  if (targetLength <=? len)%nat then s
  else fill (targetLength - len) padString padString +:+ s.

(** ** Numbers *)

(** A JavaScript number: [NaN], the two infinities and the finite
    values.  The finite values are taken as exact rationals and the
    arithmetic below is the exact one, without the rounding of binary64:
    [4.1 * 30] is [123] here, where the machine computes
    [122.99999999999999]. *)
Inductive number : Type :=
| NaN
| Infinity (negative : bool)
| Fin (q : Q).

Definition Qzero (q : Q) : bool := Qnum q =? 0.
Definition Qneg (q : Q) : bool := Qnum q <? 0.

(** Truncation toward zero. *)
Definition Qtrunc (q : Q) : Z := Z.quot (Qnum q) (Zpos (Qden q)).

(** [a / b]. *)
Definition num_div (a b : number) : number :=
  match a, b with
  | NaN, _ | _, NaN => NaN
  | Infinity _, Infinity _ => NaN
  | Infinity s, Fin y => Infinity (xorb s (Qneg y))
  | Fin _, Infinity _ => Fin 0
  | Fin x, Fin y =>
      if Qzero y then (if Qzero x then NaN else Infinity (Qneg x))
      else Fin (x / y)
  end.

(** [a * b]. *)
Definition num_mul (a b : number) : number :=
  match a, b with
  | NaN, _ | _, NaN => NaN
  | Infinity s, Infinity t => Infinity (xorb s t)
  | Infinity s, Fin y => if Qzero y then NaN else Infinity (xorb s (Qneg y))
  | Fin x, Infinity t => if Qzero x then NaN else Infinity (xorb (Qneg x) t)
  | Fin x, Fin y => Fin (x * y)
  end.

(** [a % b]: the remainder has the sign of the dividend. *)
Definition num_rem (a b : number) : number :=
  match a, b with
  | NaN, _ | _, NaN => NaN
  | Infinity _, _ => NaN
  | Fin x, Infinity _ => Fin x
  | Fin x, Fin y =>
      if Qzero y then NaN
      else Fin (x - y * inject_Z (Qtrunc (x / y)))
  end.

(** [Math.floor]. *)
Definition Math_floor (a : number) : number :=
  match a with
  | Fin q => Fin (inject_Z (Qfloor q))
  | _ => a
  end.

(** Truthiness of a number: neither zero nor [NaN]. *)
Definition truthy_number (a : number) : bool :=
  match a with
  | NaN => false
  | Infinity _ => true
  | Fin q => negb (Qzero q)
  end.

(** [a || b] on numbers. *)
Definition or_number (a b : number) : number :=
  if truthy_number a then a else b.

(** Equality of numeric value (the rational is compared as a value,
    not as a fraction). *)
Definition num_eq (a b : number) : Prop :=
  match a, b with
  | NaN, NaN => True
  | Infinity s, Infinity t => s = t
  | Fin x, Fin y => (x == y)%Q
  | _, _ => False
  end.

(** ** Decimal numerals *)

Definition N_toString (n : N) : string :=
  NilEmpty.string_of_uint (N.to_uint n).

Definition digit_char (d : Z) : ascii :=
  ascii_of_nat (48 + Z.to_nat d).

(** The decimal expansion of [r / d] for [0 <= r < d], cut after [fuel]
    places. *)
Fixpoint frac_digits (fuel : nat) (r d : Z) : string :=
  if r =? 0 then ""
  else match fuel with
       | O => ""
       | S fuel' =>
           String (digit_char ((10 * r) / d))
                  (frac_digits fuel' ((10 * r) mod d) d)
       end.

Definition max_frac_digits : nat := 24.

(** [Number.prototype.toString()] in radix 10. *)
Definition Number_toString (a : number) : string :=
  match a with
  | NaN => "NaN"
  | Infinity false => "Infinity"
  | Infinity true => "-Infinity"
  | Fin q =>
      let d := Zpos (Qden q) in
      let a := Z.abs (Qnum q) in
      let frac := frac_digits max_frac_digits (a mod d) d in
      (if Qneg q then "-" else "")
        +:+ N_toString (Z.to_N (a / d))
        +:+ (if truthy_string frac then "." +:+ frac else "")
  end.

Definition is_digit (c : ascii) : bool :=
  let n := nat_of_ascii c in ((48 <=? n) && (n <=? 57))%nat.

Definition is_space (c : ascii) : bool :=
  let n := nat_of_ascii c in
  ((n =? 32) || ((9 <=? n) && (n <=? 13)))%nat.

Fixpoint skip_spaces (s : string) : string :=
  match s with
  | String c s' => if is_space c then skip_spaces s' else s
  | EmptyString => s
  end.

(** The longest prefix of decimal digits, and what follows it. *)
Fixpoint span_digits (s : string) : string * string :=
  match s with
  | String c s' =>
      if is_digit c
      then let '(ds, rest) := span_digits s' in (String c ds, rest)
      else ("", s)
  | EmptyString => ("", "")
  end.

Fixpoint digits_value_acc (acc : N) (s : string) : N :=
  match s with
  | String c s' =>
      digits_value_acc (10 * acc + N.of_nat (nat_of_ascii c - 48))%N s'
  | EmptyString => acc
  end.

Definition digits_value (s : string) : Z := Z.of_N (digits_value_acc 0 s).

Fixpoint pow10 (k : nat) : positive :=
  match k with
  | O => 1%positive
  | S k' => (10 * pow10 k')%positive
  end.

(** An optional sign. *)
Definition split_sign (s : string) : bool * string :=
  match s with
  | String "-" t => (true, t)
  | String "+" t => (false, t)
  | _ => (false, s)
  end.

(** An optional fraction part: a dot and the digits after it. *)
Definition fraction_part (s : string) : string * string :=
  match s with
  | String "." t => span_digits t
  | _ => ("", s)
  end.

(** An optional exponent part [e±ddd]; without digits it is not part of
    the numeral. *)
Definition exponent_part (s : string) : Z :=
  match s with
  | String c s' =>
      if (Ascii.eqb c "e" || Ascii.eqb c "E")%bool then
        let '(neg, s'') := split_sign s' in
        let '(ds, _) := span_digits s'' in
        if truthy_string ds
        then (if neg then - digits_value ds else digits_value ds)
        else 0
      else 0
  | EmptyString => 0
  end.

Definition scale10 (q : Q) (e : Z) : Q :=
  match e with
  | Z0 => q
  | Zpos p => q * inject_Z (Z.pow 10 (Zpos p))
  | Zneg p => q / inject_Z (Z.pow 10 (Zpos p))
  end.

Definition starts_with_Infinity (s : string) : bool :=
  String.prefix "Infinity" s.

(** The unsigned part of a numeric literal: [Infinity], or digits with
    an optional fraction and exponent; [NaN] when [s] starts with
    neither. *)
Definition parse_literal (neg : bool) (s : string) : number :=
  if starts_with_Infinity s then Infinity neg
  else
    let '(ip, s2) := span_digits s in
    let '(fp, s3) := fraction_part s2 in
    if (truthy_string ip || truthy_string fp)%bool then
      let k := String.length fp in
      let mant := digits_value ip * Zpos (pow10 k) + digits_value fp in
      let q := scale10 (Qmake mant (pow10 k)) (exponent_part s3) in
      Fin (if neg then - q else q)%Q
    else NaN.

(** [parseFloat]: leading white space, an optional sign, then the
    longest prefix that is a numeric literal. *)
Definition parseFloat (s : string) : number :=
  let '(neg, s1) := split_sign (skip_spaces s) in
  parse_literal neg s1.

Declare Scope js_scope.
Delimit Scope js_scope with js.
Bind Scope js_scope with number.
Infix "/" := num_div : js_scope.
Infix "*" := num_mul : js_scope.
Infix "mod" := num_rem : js_scope.

(* ================================================================== *)
(** * The stamp model *)
(* ================================================================== *)

(** [interface Stamp]; [type] is ['time' | 'frame'] at compile time and
    whatever string the [data-stamp-type] attribute held at run time. *)
Record Stamp : Type := mkStamp {
  stamp_id : string;
  stamp_type : string;
  stamp_value : number;
  stamp_label : string
}.

Definition formatTime (seconds : number) : string :=
  let h := Math_floor (seconds / Fin 3600)%js in
  let m := Math_floor ((seconds mod Fin 3600) / Fin 60)%js in
  let s := Math_floor (seconds mod Fin 60)%js in
  Number_toString h +:+ ":" +:+ padStart 2 "0" (Number_toString m)
                    +:+ ":" +:+ padStart 2 "0" (Number_toString s).

(* ================================================================== *)
(** * The document tree *)
(* ================================================================== *)

(** A click listener registered on a stamp button is the closure
    [(e) => { e.preventDefault(); handleStampClick(stamp) }]: it holds the
    stamp it was created for and the [handleStampClick] of the render that
    created it, which in turn holds that render's [seekToTime] prop
    (present or not). *)
Record ClickListener : Type := mkListener {
  bound_stamp : Stamp;
  bound_seekToTime : bool
}.

Inductive node : Type :=
| TextNode (data : string)
| Element (localName : string) (attributes : list (string * string))
          (onclick : list ClickListener) (childNodes : list node).

(** Serialised markup: what [innerHTML] returns and accepts. *)
Inductive markup : Type :=
| MText (data : string)
| MElement (localName : string) (attributes : list (string * string))
           (children : list markup).

Fixpoint getAttribute (name : string) (attrs : list (string * string))
  : option string :=
  match attrs with
  | [] => None
  | (k, v) :: rest => if String.eqb k name then Some v else getAttribute name rest
  end.

Definition hasAttribute (name : string) (attrs : list (string * string)) : bool :=
  match getAttribute name attrs with Some _ => true | None => false end.

(** [node.dataset?.stampId] and its siblings; text nodes have no dataset. *)
Definition dataset (key : string) (n : node) : option string :=
  match n with
  | TextNode _ => None
  | Element _ attrs _ _ => getAttribute key attrs
  end.

Definition dataset_stampId := dataset "data-stamp-id".
Definition dataset_stampType := dataset "data-stamp-type".
Definition dataset_stampValue := dataset "data-stamp-value".
Definition dataset_stampLabel := dataset "data-stamp-label".

(** The selector [button[data-stamp-id]]. *)
Definition is_stamp_button (n : node) : bool :=
  match n with
  | TextNode _ => false
  | Element tag attrs _ _ => String.eqb tag "button" && hasAttribute "data-stamp-id" attrs
  end.

(** [querySelectorAll('button[data-stamp-id]')]: the matching descendants
    in document order. *)
Fixpoint matching_descendants (n : node) : list node :=
  match n with
  | TextNode _ => []
  | Element _ _ _ cs =>
      flat_map (fun c => (if is_stamp_button c then [c] else [])
                           ++ matching_descendants c) cs
  end.

Definition querySelectorAll_stamps (cs : list node) : list node :=
  flat_map (fun c => (if is_stamp_button c then [c] else [])
                       ++ matching_descendants c) cs.

(** [textContent]: the concatenated text of all descendants. *)
Fixpoint textContent (n : node) : string :=
  match n with
  | TextNode s => s
  | Element _ _ _ cs => fold_right (fun c acc => textContent c +:+ acc) "" cs
  end.

Definition textContent_all (cs : list node) : string :=
  fold_right (fun c acc => textContent c +:+ acc) "" cs.

(** [cloneNode(true)]: attributes and descendants are copied, listeners
    are not. *)
Fixpoint cloneNode (n : node) : node :=
  match n with
  | TextNode s => TextNode s
  | Element tag attrs _ cs => Element tag attrs [] (map cloneNode cs)
  end.

(** ** Serialising and parsing *)

(** Adjacent text runs become one and empty runs vanish: text node
    boundaries are not part of the markup. *)
Fixpoint coalesce (ms : list markup) : list markup :=
  match ms with
  | [] => []
  | MText s :: rest =>
      match coalesce rest with
      | MText t :: rest' => MText (s +:+ t) :: rest'
      | rest' => if truthy_string s then MText s :: rest' else rest'
      end
  | m :: rest => m :: coalesce rest
  end.

Fixpoint serialize (n : node) : markup :=
  match n with
  | TextNode s => MText s
  | Element tag attrs _ cs => MElement tag attrs (coalesce (map serialize cs))
  end.

Fixpoint parse (m : markup) : node :=
  match m with
  | MText s => TextNode s
  | MElement tag attrs cs => Element tag attrs [] (map parse cs)
  end.

(** The [innerHTML] getter and setter of an element with children [cs]. *)
Definition innerHTML (cs : list node) : list markup := coalesce (map serialize cs).
Definition set_innerHTML (ms : list markup) : list node := map parse ms.

(** A markup string is truthy when it is not the empty string. *)
Definition truthy_markup (ms : list markup) : bool :=
  existsb (fun m => match m with
                    | MText s => truthy_string s
                    | MElement _ _ _ => true
                    end) ms.

(** ** Positions in the editor *)

(** A path leads from the editor element down to a node: [[]] is the
    editor element itself, [i :: p] continues in its [i]-th child. *)
Definition path := list nat.

Definition children_of (n : node) : list node :=
  match n with
  | TextNode _ => []
  | Element _ _ _ cs => cs
  end.

Definition with_children (f : list node -> list node) (n : node) : node :=
  match n with
  | TextNode s => TextNode s
  | Element tag attrs ls cs => Element tag attrs ls (f cs)
  end.

(** The node at path [p] below a node with children [cs]. *)
Fixpoint node_at (cs : list node) (p : path) : option node :=
  match p with
  | [] => None
  | [i] => cs !! i
  | i :: p' =>
      match cs !! i with
      | Some c => node_at (children_of c) p'
      | None => None
      end
  end.

(** Rewrite the child list of the node at path [p]. *)
Fixpoint update_children (p : path) (f : list node -> list node)
         (cs : list node) : list node :=
  match p with
  | [] => f cs
  | i :: p' => alter (with_children (update_children p' f)) i cs
  end.

(** Path of the parent and own index. *)
Fixpoint split_last (p : path) : option (path * nat) :=
  match p with
  | [] => None
  | [i] => Some ([], i)
  | i :: p' =>
      match split_last p' with
      | Some (q, j) => Some (i :: q, j)
      | None => None
      end
  end.

(** [node.remove()] for the node at path [p]. *)
Definition remove_node (p : path) (cs : list node) : list node :=
  match split_last p with
  | Some (q, i) => update_children q (delete i) cs
  | None => cs
  end.

(** A reference to a DOM node as a handler sees it: a node of the editor
    subtree by its path, or a node elsewhere in the page by what can be
    read from it. *)
Inductive NodeRef : Type :=
| InEditor (p : path)
| Elsewhere (self : node) (nextSibling : option node).

(** The attribute list of the editor element (the JSX of the component). *)
Definition editor_attributes : list (string * string) :=
  [("contenteditable", "true");
   ("class", "flex-1 overflow-auto p-3 rounded-md border border-input bg-secondary/50 focus:border-primary focus:outline-none transition-colors text-sm min-h-0");
   ("data-placeholder", "Write your notes here... Use Time/Frame buttons to insert stamps. Double backspace to delete stamps.")].

(** The referenced node and its [nextSibling]. *)
Definition resolve (editor : list node) (r : NodeRef)
  : option (node * option node) :=
  match r with
  | Elsewhere n next => Some (n, next)
  | InEditor p =>
      match split_last p with
      | None => Some (Element "div" editor_attributes [] editor, None)
      | Some (q, i) =>
          match node_at editor p with
          | Some n => Some (n, node_at editor (q ++ [S i]))
          | None => None
          end
      end
  end.

(** [Range]: its boundary points and [collapsed] attribute. *)
Record Range : Type := mkRange {
  startContainer : NodeRef;
  startOffset : nat;
  endContainer : NodeRef;
  endOffset : nat;
  collapsed : bool
}.

(** [Selection]: its ranges ([rangeCount] is their number). *)
Definition Selection := list Range.

(** A caret: the collapsed range at one boundary point. *)
Definition caret (container : NodeRef) (offset : nat) : Range :=
  mkRange container offset container offset true.

(** [editor.contains(range.commonAncestorContainer)]: the common ancestor
    of two nodes lies in the editor subtree exactly when both do. *)
Definition editor_contains_range (r : Range) : bool :=
  match startContainer r, endContainer r with
  | InEditor _, InEditor _ => true
  | _, _ => false
  end.

(** ** Editing through a range *)

Definition text_before (o : nat) (s : string) : string := String.substring 0 o s.
Definition text_after (o : nat) (s : string) : string :=
  String.substring o (String.length s - o) s.

Definition option_list {A} (o : option A) : list A :=
  match o with Some a => [a] | None => [] end.

(** What is left of [n] when everything after the boundary point
    [(p, o)] inside it is deleted, and when everything before it is. *)
Fixpoint keep_before (p : path) (o : nat) (n : node) {struct p} : node :=
  match p with
  | [] =>
      match n with
      | TextNode s => TextNode (text_before o s)
      | Element tag attrs ls cs => Element tag attrs ls (take o cs)
      end
  | i :: p' =>
      with_children
        (fun cs => take i cs ++ option_list (keep_before p' o <$> cs !! i)) n
  end.

Fixpoint keep_after (p : path) (o : nat) (n : node) {struct p} : node :=
  match p with
  | [] =>
      match n with
      | TextNode s => TextNode (text_after o s)
      | Element tag attrs ls cs => Element tag attrs ls (drop o cs)
      end
  | i :: p' =>
      with_children
        (fun cs => option_list (keep_after p' o <$> cs !! i) ++ drop (S i) cs) n
  end.

(** [Range.deleteContents()] on the children [cs] of a node, the start
    [(ps, os)] and the end [(pe, oe)] given relative to that node: nodes
    wholly inside the range go, nodes that hold a boundary are trimmed. *)
Fixpoint delete_between (ps : path) (os : nat) (pe : path) (oe : nat)
         (cs : list node) {struct ps} : list node :=
  match ps, pe with
  | [], [] => take os cs ++ drop oe cs
  | [], j :: pe' =>
      take os cs ++ option_list (keep_after pe' oe <$> cs !! j) ++ drop (S j) cs
  | i :: ps', [] =>
      take i cs ++ option_list (keep_before ps' os <$> cs !! i) ++ drop oe cs
  | i :: ps', j :: pe' =>
      if (i =? j)%nat then
        alter (fun n =>
                 match n with
                 | TextNode s => TextNode (text_before os s +:+ text_after oe s)
                 | Element tag attrs ls cs' =>
                     Element tag attrs ls (delete_between ps' os pe' oe cs')
                 end) i cs
      else
        take i cs ++ option_list (keep_before ps' os <$> cs !! i)
               ++ option_list (keep_after pe' oe <$> cs !! j) ++ drop (S j) cs
  end.

(** Where the collapsed range sits after [deleteContents]: at the start
    point when the start node is an inclusive ancestor of the end node,
    else just after the topmost ancestor of the start node that is not
    one. *)
Fixpoint boundary_after_delete (ps : path) (os : nat) (pe : path)
  : path * nat :=
  match ps, pe with
  | [], _ => ([], os)
  | i :: ps', j :: pe' =>
      if (i =? j)%nat
      then let '(q, o) := boundary_after_delete ps' os pe' in (i :: q, o)
      else ([], S i)
  | i :: _, [] => ([], S i)
  end.

(** [Range.insertNode(new)] at the boundary point [(p, o)]: a text node
    is split at the offset, an element receives the node before its
    [o]-th child.  The result is the new content and the position of
    [new] (its parent and its index). *)
Definition insert_node (new : node) (p : path) (o : nat) (cs : list node)
  : list node * (path * nat) :=
  match split_last p, node_at cs p with
  | Some (q, i), Some (TextNode s) =>
      (update_children q
         (fun l => take i l
                     ++ [TextNode (text_before o s); new; TextNode (text_after o s)]
                     ++ drop (S i) l) cs,
       (q, S i))
  | _, _ =>
      (update_children p (fun l => take o l ++ [new] ++ drop o l) cs, (p, o))
  end.

(* ================================================================== *)
(** * The component *)
(* ================================================================== *)

(** What the component does to the world outside its own state. *)
Inductive Effect : Type :=
| toast_error (message : string)
| toast_success (message : string)
| seek (time : number)
| preventDefault
| focus
| setCaret (parent : path) (offset : nat)
| download (filename content : string)
| setItem (key : string) (value : list markup)
| removeItem (key : string)
| uncaught (exception : string).

(** A timeout callback.  [AutoSaveCb f] is [() => autoSave()] closed over
    the [autoSave] of the render that scheduled it, whose [videoFilename]
    is [f]; [ReattachCb k] is [() => reattachStampListeners()] closed over
    a [handleStampClick] whose [seekToTime] is present iff [k]. *)
Inductive Callback : Type :=
| AutoSaveCb (videoFilename : option string)
| ReattachCb (seekToTime : bool).

Record Timer : Type := mkTimer {
  timer_id : nat;
  timer_due : Z;
  timer_callback : Callback
}.

Record State : Type := mkState {
  (* props *)
  videoFilename : option string;
  getCurrentTime : option number;   (* the accessor, as the value it returns *)
  getCurrentFrame : option number;
  seekToTime : bool;
  (* useState *)
  hasChanges : bool;
  lastBackspaceTime : Z;
  (* useRef *)
  editorRef : option (list node);   (* the child nodes of the editor element *)
  autoSaveTimeoutRef : option nat;
  (* the browser *)
  localStorage : gmap string (list markup);
  timers : list Timer;
  nextTimerId : nat;
  log : list Effect                 (* most recent first *)
}.

Definition set_videoFilename (v : option string) (s : State) : State :=
  mkState v (getCurrentTime s) (getCurrentFrame s) (seekToTime s)
          (hasChanges s) (lastBackspaceTime s) (editorRef s)
          (autoSaveTimeoutRef s) (localStorage s) (timers s) (nextTimerId s)
          (log s).

Definition setHasChanges (b : bool) (s : State) : State :=
  mkState (videoFilename s) (getCurrentTime s) (getCurrentFrame s)
          (seekToTime s) b (lastBackspaceTime s) (editorRef s)
          (autoSaveTimeoutRef s) (localStorage s) (timers s) (nextTimerId s)
          (log s).

Definition setLastBackspaceTime (t : Z) (s : State) : State :=
  mkState (videoFilename s) (getCurrentTime s) (getCurrentFrame s)
          (seekToTime s) (hasChanges s) t (editorRef s)
          (autoSaveTimeoutRef s) (localStorage s) (timers s) (nextTimerId s)
          (log s).

Definition set_editorRef (e : option (list node)) (s : State) : State :=
  mkState (videoFilename s) (getCurrentTime s) (getCurrentFrame s)
          (seekToTime s) (hasChanges s) (lastBackspaceTime s) e
          (autoSaveTimeoutRef s) (localStorage s) (timers s) (nextTimerId s)
          (log s).

Definition set_autoSaveTimeoutRef (r : option nat) (s : State) : State :=
  mkState (videoFilename s) (getCurrentTime s) (getCurrentFrame s)
          (seekToTime s) (hasChanges s) (lastBackspaceTime s) (editorRef s)
          r (localStorage s) (timers s) (nextTimerId s) (log s).

Definition set_localStorage (m : gmap string (list markup)) (s : State) : State :=
  mkState (videoFilename s) (getCurrentTime s) (getCurrentFrame s)
          (seekToTime s) (hasChanges s) (lastBackspaceTime s) (editorRef s)
          (autoSaveTimeoutRef s) m (timers s) (nextTimerId s) (log s).

Definition set_timers (ts : list Timer) (next : nat) (s : State) : State :=
  mkState (videoFilename s) (getCurrentTime s) (getCurrentFrame s)
          (seekToTime s) (hasChanges s) (lastBackspaceTime s) (editorRef s)
          (autoSaveTimeoutRef s) (localStorage s) ts next (log s).

Definition emit (e : Effect) (s : State) : State :=
  mkState (videoFilename s) (getCurrentTime s) (getCurrentFrame s)
          (seekToTime s) (hasChanges s) (lastBackspaceTime s) (editorRef s)
          (autoSaveTimeoutRef s) (localStorage s) (timers s) (nextTimerId s)
          (e :: log s).

(** A handler either returns or throws; a thrown exception leaves the
    state as it was at the throw. *)
Inductive Outcome : Type :=
| Returns (s : State)
| Throws (exception : string) (s : State).

Definition state_of (o : Outcome) : State :=
  match o with Returns s => s | Throws _ s => s end.

(** ** Browser services *)

Definition storage_key (videoFilename : string) : string :=
  "vidnotes_" +:+ videoFilename.

#[local] Arguments storage_key : simpl never.

(** [localStorage.setItem] and [removeItem]; each call is also recorded
    in the log. *)
Definition localStorage_setItem (key : string) (value : list markup) (s : State)
  : State :=
  emit (setItem key value) (set_localStorage (<[key := value]> (localStorage s)) s).

Definition localStorage_removeItem (key : string) (s : State) : State :=
  emit (removeItem key) (set_localStorage (delete key (localStorage s)) s).

(** [setTimeout(cb, delay)]: the new timer's id and the new state.  Timer
    ids are positive integers. *)
Definition setTimeout (cb : Callback) (delay : Z) (now : Z) (s : State)
  : nat * State :=
  (nextTimerId s,
   set_timers (timers s ++ [mkTimer (nextTimerId s) (now + delay) cb])
              (S (nextTimerId s)) s).

Definition clearTimeout (id : nat) (s : State) : State :=
  set_timers (filter (fun t => timer_id t <> id) (timers s)) (nextTimerId s) s.

(** [if (autoSaveTimeoutRef.current) clearTimeout(autoSaveTimeoutRef.current)]:
    a timer id is truthy unless it is [0]. *)
Definition clear_pending_autosave (s : State) : State :=
  match autoSaveTimeoutRef s with
  | Some id => if (id =? 0)%nat then s else clearTimeout id s
  | None => s
  end.

(** The five lines shared by [handleInput] and [insertStampButton]:
    clear the timeout the reference names, if any, then arm a new one
    for [autoSave] and keep its id.  [captured] is the [videoFilename] of
    the render whose [autoSave] the callback closes over. *)
Definition reschedule_autosave (delay : Z) (now : Z) (captured : option string)
           (s : State) : State :=
  let s1 := clear_pending_autosave s in
  let '(id, s2) := setTimeout (AutoSaveCb captured) delay now s1 in
  set_autoSaveTimeoutRef (Some id) s2.

(** [selection?.getRangeAt(0)]: [undefined] for a null selection, an
    [IndexSizeError] when the selection has no range. *)
Definition getRangeAt0 (selection : option Selection) : string + option Range :=
  match selection with
  | None => inr None
  | Some [] => inl "IndexSizeError"
  | Some (r :: _) => inr (Some r)
  end.

(** [videoFilename.replace(/\.[^/.]+$/, '')]: the last dot and what
    follows it go, provided at least one character follows and none of
    them is a slash. *)
Fixpoint span_extension (rev_chars : list ascii) : list ascii * list ascii :=
  match rev_chars with
  | c :: rest =>
      if (Ascii.eqb c "." || Ascii.eqb c "/")%bool then ([], rev_chars)
      else let '(ext, rest') := span_extension rest in (c :: ext, rest')
  | [] => ([], [])
  end.

Definition strip_extension (s : string) : string :=
  match span_extension (rev (list_ascii_of_string s)) with
  | (_ :: _, c :: rest) =>
      if Ascii.eqb c "." then string_of_list_ascii (rev rest) else s
  | _ => s
  end.

Definition LF : string := String (ascii_of_nat 10) "".

(** ** The playback bridge ([VideoPlayer.tsx] and the index page) *)

(** [window.getCurrentVideoTime] and [window.getCurrentVideoFrame] as the
    player installs them, closed over its [currentTime] state. *)
Definition getCurrentVideoTime (currentTime : number) : number := currentTime.

Definition getCurrentVideoFrame (currentTime : number) : number :=
  Math_floor (currentTime * Fin 30)%js.

(** The accessors the index page hands to the panel:
    [(window as any).getCurrentVideoTime?.() || 0], likewise for frames.
    The argument is the player's [currentTime] when the bridge is
    installed. *)
Definition Index_getCurrentTime (player : option number) : number :=
  match player with
  | Some t => or_number (getCurrentVideoTime t) (Fin 0)
  | None => Fin 0
  end.

Definition Index_getCurrentFrame (player : option number) : number :=
  match player with
  | Some t => or_number (getCurrentVideoFrame t) (Fin 0)
  | None => Fin 0
  end.

(** ** Stamps in the document *)

Definition handleStampClick (seekToTime : bool) (stamp : Stamp) (s : State)
  : State :=
  if negb seekToTime then
    emit (toast_error "Cannot navigate to timestamp") s
  else if String.eqb (stamp_type stamp) "time" then
    emit (toast_success ("Jumped to " +:+ formatTime (stamp_value stamp)))
         (emit (seek (stamp_value stamp)) s)
  else
    emit (toast_success
            ("Jumped to frame " +:+ Number_toString (stamp_value stamp)))
         (emit (seek (stamp_value stamp / Fin 30)%js) s).

(** Running a click listener. *)
Definition run_listener (l : ClickListener) (s : State) : State :=
  handleStampClick (bound_seekToTime l) (bound_stamp l) (emit preventDefault s).

(** The stamp that [reattachStampListeners] rebuilds from a button's
    data attributes.  An absent [data-stamp-type] reads as [undefined],
    which like the empty string is neither ['time'] nor ['frame']. *)
Definition stamp_of_dataset (btn : node) : Stamp :=
  {| stamp_id := or_string (dataset_stampId btn) "";
     stamp_type := default "" (dataset_stampType btn);
     stamp_value := parseFloat (or_string (dataset_stampValue btn) "0");
     stamp_label := or_string (dataset_stampLabel btn) "" |}.

(** One step of the [forEach] in [reattachStampListeners], seen from the
    live tree: a matching button is replaced by its deep clone carrying
    one fresh listener; buttons nested inside it are replaced in the
    detached original only, so their clones keep no listener. *)
Fixpoint reattach (seekToTime : bool) (n : node) : node :=
  match n with
  | TextNode s => TextNode s
  | Element tag attrs ls cs =>
      if is_stamp_button n then
        Element tag attrs [mkListener (stamp_of_dataset n) seekToTime]
                (map cloneNode cs)
      else Element tag attrs ls (map (reattach seekToTime) cs)
  end.

Definition reattachStampListeners (seekToTime : bool) (s : State) : State :=
  match editorRef s with
  | None => s
  | Some editor => set_editorRef (Some (map (reattach seekToTime) editor)) s
  end.

Definition clock_icon : list node :=
  [Element "svg"
     [("xmlns", "http://www.w3.org/2000/svg"); ("width", "12"); ("height", "12");
      ("viewBox", "0 0 24 24"); ("fill", "none"); ("stroke", "currentColor");
      ("stroke-width", "2"); ("stroke-linecap", "round");
      ("stroke-linejoin", "round")] []
     [Element "circle" [("cx", "12"); ("cy", "12"); ("r", "10")] [] [];
      Element "polyline" [("points", "12 6 12 12 16 14")] [] []]].

Definition frame_icon : list node :=
  [Element "svg"
     [("xmlns", "http://www.w3.org/2000/svg"); ("width", "12"); ("height", "12");
      ("viewBox", "0 0 24 24"); ("fill", "none"); ("stroke", "currentColor");
      ("stroke-width", "2"); ("stroke-linecap", "round");
      ("stroke-linejoin", "round")] []
     [Element "line" [("x1", "22"); ("x2", "2"); ("y1", "12"); ("y2", "12")] [] [];
      Element "path"
        [("d", "M5.45 5.11 2 12v6a2 2 0 0 0 2 2h16a2 2 0 0 0 2-2v-6l-3.45-6.89A2 2 0 0 0 16.76 4H7.24a2 2 0 0 0-1.79 1.11z")]
        [] [];
      Element "line" [("x1", "6"); ("x2", "6.01"); ("y1", "16"); ("y2", "16")] [] [];
      Element "line" [("x1", "10"); ("x2", "10.01"); ("y1", "16"); ("y2", "16")] [] []]].

(** Assigning [textContent]: one text node, or none for the empty string. *)
Definition set_textContent (s : string) : list node :=
  if truthy_string s then [TextNode s] else [].

(** The button that [insertStampButton] builds, before it is placed. *)
Definition stampButton (seekToTime : bool) (stamp : Stamp) (displayText : string)
  : node :=
  Element "button"
    [("contenteditable", "false");
     ("class", "inline-flex items-center gap-1 mx-0.5 text-xs font-semibold stamp-text hover:opacity-70 transition-opacity cursor-pointer");
     ("data-stamp-id", stamp_id stamp);
     ("data-stamp-type", stamp_type stamp);
     ("data-stamp-value", Number_toString (stamp_value stamp));
     ("data-stamp-label", stamp_label stamp)]
    [mkListener stamp seekToTime]
    [Element "span" [] []
       (if String.eqb (stamp_type stamp) "time" then clock_icon else frame_icon);
     Element "span" [("contenteditable", "false")] [] (set_textContent displayText)].

(** ** Loading and saving *)

(** The body of the load-notes effect. *)
Definition loadNotes (now : Z) (s : State) : State :=
  match videoFilename s, editorRef s with
  | Some f, Some _ =>
      if truthy_string f then
        let s1 :=
          match localStorage s !! storage_key f with
          | Some savedNotes =>
              if truthy_markup savedNotes then
                snd (setTimeout (ReattachCb (seekToTime s)) 0 now
                       (set_editorRef (Some (set_innerHTML savedNotes)) s))
              else set_editorRef (Some (set_innerHTML [])) s
          | None => set_editorRef (Some (set_innerHTML [])) s
          end in
        setHasChanges false s1
      else s
  | _, _ => s
  end.

(** A change of the [videoFilename] prop: React commits the new render
    (the editor element exists exactly while the prop is truthy, and one
    that stays keeps its content) and then runs the load-notes effect. *)
Definition activate (f : option string) (now : Z) (s : State) : State :=
  let s1 := set_videoFilename f s in
  let s2 :=
    if truthy f then
      match editorRef s1 with
      | Some _ => s1
      | None => set_editorRef (Some []) s1
      end
    else set_editorRef None s1 in
  loadNotes now s2.

(** [autoSave] of a render whose [videoFilename] was [captured]. *)
Definition autoSave (captured : option string) (s : State) : State :=
  match captured, editorRef s with
  | Some f, Some editor =>
      if truthy_string f then
        setHasChanges false
          (localStorage_setItem (storage_key f) (innerHTML editor) s)
      else s
  | _, _ => s
  end.

Definition handleInput (now : Z) (s : State) : State :=
  reschedule_autosave 1000 now (videoFilename s) (setHasChanges true s).

Definition saveNotes (s : State) : State :=
  match videoFilename s, editorRef s with
  | Some f, Some editor =>
      if truthy_string f then
        emit (toast_success "Notes saved")
          (setHasChanges false
             (localStorage_setItem (storage_key f) (innerHTML editor) s))
      else emit (toast_error "No video loaded") s
  | _, _ => emit (toast_error "No video loaded") s
  end.

(** [confirmed] is the answer of [window.confirm]; it is asked only when
    the guard lets the handler through. *)
Definition clearNotes (confirmed : bool) (s : State) : State :=
  match videoFilename s, editorRef s with
  | Some f, Some _ =>
      if truthy_string f then
        if confirmed then
          emit (toast_success "Notes deleted")
            (setHasChanges false
               (set_editorRef (Some (set_innerHTML []))
                  (localStorage_removeItem (storage_key f) s)))
        else s
      else s
  | _, _ => s
  end.

(** ** Export *)

(** The text that replaces one stamp button. *)
Definition export_text (btn : node) : string :=
  let stampType := dataset_stampType btn in
  let stampValue := dataset_stampValue btn in
  if bool_decide (stampType = Some "time") && truthy stampValue then
    "[" +:+ formatTime (parseFloat (default "" stampValue)) +:+ "]"
  else if bool_decide (stampType = Some "frame") && truthy stampValue then
    "[Frame " +:+ default "" stampValue +:+ "]"
  else "".

(** The [forEach] over the stamp buttons of the temporary element: each
    is replaced by a text node; what was nested inside a replaced button
    leaves the tree with it. *)
Fixpoint replace_stamps (n : node) : node :=
  match n with
  | TextNode s => TextNode s
  | Element tag attrs ls cs =>
      if is_stamp_button n then TextNode (export_text n)
      else Element tag attrs ls (map replace_stamps cs)
  end.

(** [tempDiv.innerText || tempDiv.textContent || ''] for the temporary
    element, which is never attached to the page: [innerText] of an
    element that is not rendered is its [textContent]. *)
Definition export_content (editor : list node) : string :=
  let tempDiv := set_innerHTML (innerHTML editor) in
  textContent_all (map replace_stamps tempDiv).

Definition export_markdown (videoFilename : string) (editor : list node)
  : string :=
  "# Notes for " +:+ videoFilename +:+ LF +:+ LF +:+ export_content editor.

Definition export_filename (videoFilename : string) : string :=
  strip_extension videoFilename +:+ "_notes.md".

Definition exportNotes (s : State) : State :=
  match videoFilename s, editorRef s with
  | Some f, Some editor =>
      if truthy_string f then
        emit (toast_success "Notes exported")
          (emit (download (export_filename f) (export_markdown f editor)) s)
      else emit (toast_error "No notes to export") s
  | _, _ => emit (toast_error "No notes to export") s
  end.

(** ** Inserting a stamp *)

Definition appendChild (new : node) (cs : list node) : list node := cs ++ [new].

(** The four statements of the in-range branch: [deleteContents],
    [insertNode], then the range is collapsed after the new node and
    made the selection. *)
Definition insert_at_range (new : node) (r : Range) (editor : list node)
  : list node * (path * nat) :=
  match startContainer r, endContainer r with
  | InEditor ps, InEditor pe =>
      let '(editor1, (p, o)) :=
        if collapsed r then (editor, (ps, startOffset r))
        else (delete_between ps (startOffset r) pe (endOffset r) editor,
              boundary_after_delete ps (startOffset r) pe) in
      let '(editor2, (parent, index)) := insert_node new p o editor1 in
      (editor2, (parent, S index))
  | _, _ => (editor, ([], 0%nat))
  end.

Definition insertStampButton (stamp : Stamp) (displayText : string)
           (selection : option Selection) (now : Z) (s : State) : Outcome :=
  match editorRef s with
  | None => Returns s
  | Some editor =>
      match getRangeAt0 selection with
      | inl exception => Throws exception s
      | inr range =>
          let stampButton := stampButton (seekToTime s) stamp displayText in
          let s1 :=
            match range with
            | Some r =>
                if editor_contains_range r then
                  let '(editor', (parent, offset)) :=
                    insert_at_range stampButton r editor in
                  emit (setCaret parent offset) (set_editorRef (Some editor') s)
                else set_editorRef (Some (appendChild stampButton editor)) s
            | None => set_editorRef (Some (appendChild stampButton editor)) s
            end in
          let s2 := emit focus (setHasChanges true s1) in
          Returns (reschedule_autosave 500 now (videoFilename s) s2)
      end
  end.

(** Sequencing a handler that may throw with what follows it. *)
Definition and_then (o : Outcome) (k : State -> State) : Outcome :=
  match o with
  | Returns s => Returns (k s)
  | Throws e s => Throws e s
  end.

Definition insertTimestamp (selection : option Selection) (now : Z) (s : State)
  : Outcome :=
  match getCurrentTime s, videoFilename s, editorRef s with
  | Some time, Some f, Some _ =>
      if truthy_string f then
        let hours := Math_floor (time / Fin 3600)%js in
        let minutes := Math_floor ((time mod Fin 3600) / Fin 60)%js in
        let seconds := Math_floor (time mod Fin 60)%js in
        let timeStr :=
          Number_toString hours +:+ ":" +:+ padStart 2 "0" (Number_toString minutes)
            +:+ ":" +:+ padStart 2 "0" (Number_toString seconds) in
        let stamp :=
          {| stamp_id := "time-" +:+ Number_toString (Fin (inject_Z now));
             stamp_type := "time";
             stamp_value := time;
             stamp_label := "Timestamp" |} in
        and_then (insertStampButton stamp timeStr selection now s)
                 (emit (toast_success "Timestamp inserted"))
      else Returns (emit (toast_error "Video player not ready") s)
  | _, _, _ => Returns (emit (toast_error "Video player not ready") s)
  end.

Definition insertFrameStamp (selection : option Selection) (now : Z) (s : State)
  : Outcome :=
  match getCurrentFrame s, videoFilename s, editorRef s with
  | Some frame, Some f, Some _ =>
      if truthy_string f then
        let stamp :=
          {| stamp_id := "frame-" +:+ Number_toString (Fin (inject_Z now));
             stamp_type := "frame";
             stamp_value := frame;
             stamp_label := "Frame" |} in
        and_then (insertStampButton stamp ("F" +:+ Number_toString frame)
                                    selection now s)
                 (emit (toast_success "Frame stamp inserted"))
      else Returns (emit (toast_error "Video player not ready") s)
  | _, _, _ => Returns (emit (toast_error "Video player not ready") s)
  end.

(** ** The double-backspace protocol *)

(** [(n as HTMLElement).dataset?.stampId] is truthy. *)
Definition has_stampId (n : node) : bool := truthy (dataset_stampId n).

(** The node a Backspace at this caret is about: the next sibling of a
    text node whose end the caret is at, or the child just before the
    caret in an element. *)
Inductive Victim : Type :=
| NextSiblingOf (container : NodeRef)
| ChildOf (container : NodeRef) (index : nat).

Definition adjacent_stamp (editor : list node) (range : Range) : option Victim :=
  let node := startContainer range in
  let offset := startOffset range in
  match resolve editor node with
  | Some (TextNode data, nextSibling) =>
      if (offset =? String.length data)%nat then
        match nextSibling with
        | Some sibling =>
            if has_stampId sibling then Some (NextSiblingOf node) else None
        | None => None
        end
      else None
  | Some (Element _ _ _ children, _) =>
      let prevNode :=
        if (0 <? offset)%nat then children !! (offset - 1)%nat else None in
      match prevNode with
      | Some prev => if has_stampId prev then Some (ChildOf node (offset - 1)) else None
      | None => None
      end
  | None => None
  end.

(** [victim.remove()], as far as the editor content is concerned. *)
Definition remove_victim (v : Victim) (editor : list node) : list node :=
  match v with
  | NextSiblingOf (InEditor p) =>
      match split_last p with
      | Some (q, i) => remove_node (q ++ [S i]) editor
      | None => editor
      end
  | ChildOf (InEditor p) i => remove_node (p ++ [i]) editor
  | NextSiblingOf (Elsewhere _ _) | ChildOf (Elsewhere _ _) _ => editor
  end.

Definition handleKeyDown (key : string) (selection : option Selection)
           (now : Z) (s : State) : State :=
  match editorRef s with
  | Some editor =>
      if String.eqb key "Backspace" then
        match selection with
        | None | Some [] => s
        | Some (range :: _) =>
            if negb (collapsed range) then s
            else
              match adjacent_stamp editor range with
              | Some victim =>
                  if now - lastBackspaceTime s <? 500 then
                    setLastBackspaceTime 0
                      (emit (toast_success "Stamp deleted")
                         (setHasChanges true
                            (set_editorRef (Some (remove_victim victim editor))
                               (emit preventDefault s))))
                  else emit preventDefault (setLastBackspaceTime now s)
              | None => setLastBackspaceTime 0 s
              end
        end
      else s
  | None => s
  end.

(** ** The toolbar *)

(** The [disabled] attributes of the toolbar buttons in the JSX: a
    disabled button receives no click, so its handler does not run. *)
Definition insert_disabled (s : State) : bool := negb (truthy (videoFilename s)).

Definition delete_disabled (s : State) : bool := negb (truthy (videoFilename s)).

Definition save_disabled (s : State) : bool :=
  negb (truthy (videoFilename s)) || negb (hasChanges s).

Definition export_disabled (s : State) : bool := negb (truthy (videoFilename s)).

(** ** The event loop *)

Definition run_callback (cb : Callback) (s : State) : State :=
  match cb with
  | AutoSaveCb f => autoSave f s
  | ReattachCb k => reattachStampListeners k s
  end.

(** The pending timer that fires next: the earliest due, the oldest
    among equals. *)
Fixpoint earliest (ts : list Timer) : option Timer :=
  match ts with
  | [] => None
  | t :: rest =>
      match earliest rest with
      | Some u => if timer_due u <? timer_due t then Some u else Some t
      | None => Some t
      end
  end.

Definition fire (t : Timer) (s : State) : State :=
  run_callback (timer_callback t)
    (set_timers (filter (fun u => timer_id u <> timer_id t) (timers s))
                (nextTimerId s) s).

Fixpoint advance_steps (fuel : nat) (now : Z) (s : State) : State :=
  match fuel with
  | O => s
  | S fuel' =>
      match earliest (timers s) with
      | Some t =>
          if timer_due t <=? now then advance_steps fuel' now (fire t s) else s
      | None => s
      end
  end.

(** Let time pass until [now]: every timer due by then fires, in order.
    No callback of this component schedules a timer, so one step per
    pending timer is enough. *)
Definition advance (now : Z) (s : State) : State :=
  advance_steps (length (timers s)) now s.

(** What can happen to the component. *)
Inductive Event : Type :=
| Input (content : list node)
| KeyDown (key : string) (selection : option Selection)
| ClickInsertTimestamp (selection : option Selection)
| ClickInsertFrameStamp (selection : option Selection)
| ClickSave
| ClickClear (confirmed : bool)
| ClickExport
| ClickStamp (p : path)
| Activate (videoFilename : option string)
| Playback (currentTime : option number).

Definition set_playback (player : option number) (s : State) : State :=
  mkState (videoFilename s)
          (match getCurrentTime s with
           | Some _ => Some (Index_getCurrentTime player)
           | None => None
           end)
          (match getCurrentFrame s with
           | Some _ => Some (Index_getCurrentFrame player)
           | None => None
           end)
          (seekToTime s) (hasChanges s) (lastBackspaceTime s) (editorRef s)
          (autoSaveTimeoutRef s) (localStorage s) (timers s) (nextTimerId s)
          (log s).

Definition uncaught_of (o : Outcome) : State :=
  match o with
  | Returns s => s
  | Throws e s => emit (uncaught e) s
  end.

Definition dispatch (now : Z) (ev : Event) (s : State) : State :=
  match ev with
  | Input content =>
      match editorRef s with
      | Some _ => handleInput now (set_editorRef (Some content) s)
      | None => s
      end
  | KeyDown key selection => handleKeyDown key selection now s
  | ClickInsertTimestamp selection => uncaught_of (insertTimestamp selection now s)
  | ClickInsertFrameStamp selection => uncaught_of (insertFrameStamp selection now s)
  | ClickSave => saveNotes s
  | ClickClear confirmed => clearNotes confirmed s
  | ClickExport => exportNotes s
  | ClickStamp p =>
      match editorRef s with
      | Some editor =>
          match node_at editor p with
          | Some (Element _ _ listeners _) => fold_left (fun s l => run_listener l s) listeners s
          | _ => s
          end
      | None => s
      end
  | Activate f => activate f now s
  | Playback player => set_playback player s
  end.

(** A run: the events in the order of their times, with the timers that
    fall due in between. *)
Fixpoint run (evs : list (Z * Event)) (s : State) : State :=
  match evs with
  | [] => s
  | (now, ev) :: rest => run rest (dispatch now ev (advance now s))
  end.

(** A freshly mounted panel: the first render, then the load-notes
    effect. *)
Definition first_render (f : option string) (time frame : option number)
           (seekToTime : bool) (storage : gmap string (list markup)) : State :=
  mkState f time frame seekToTime false 0
          (if truthy f then Some [] else None) None storage [] 1 [].

Definition mount (f : option string) (time frame : option number)
           (seekToTime : bool) (storage : gmap string (list markup)) (now : Z)
  : State :=
  loadNotes now (first_render f time frame seekToTime storage).

(** ** Unmounting *)

(** The panel leaves the page: the cleanup of the unmount effect clears
    the timeout that [autoSaveTimeoutRef] names, and React resets the
    editor ref to [null]. *)
Definition unmount (s : State) : State :=
  set_editorRef None (clear_pending_autosave s).

(* ================================================================== *)
(** * More arithmetic on numbers *)
(* ================================================================== *)

(** [a < b]; false as soon as one side is [NaN]. *)
Definition num_lt (a b : number) : bool :=
  match a, b with
  | NaN, _ | _, NaN => false
  | Infinity s, Infinity t => s && negb t
  | Infinity s, Fin _ => s
  | Fin _, Infinity t => negb t
  | Fin x, Fin y => Qnum x * Zpos (Qden y) <? Qnum y * Zpos (Qden x)
  end.

(** [a + b] and [a - b]. *)
Definition num_add (a b : number) : number :=
  match a, b with
  | NaN, _ | _, NaN => NaN
  | Infinity s, Infinity t => if Bool.eqb s t then Infinity s else NaN
  | Infinity s, Fin _ => Infinity s
  | Fin _, Infinity t => Infinity t
  | Fin x, Fin y => Fin (x + y)
  end.

Definition num_opp (a : number) : number :=
  match a with
  | NaN => NaN
  | Infinity s => Infinity (negb s)
  | Fin x => Fin (- x)
  end.

Definition num_sub (a b : number) : number := num_add a (num_opp b).

(** [Math.max(a, b)] and [Math.min(a, b)]: [NaN] when an argument is. *)
Definition Math_max (a b : number) : number :=
  match a, b with
  | NaN, _ | _, NaN => NaN
  | _, _ => if num_lt a b then b else a
  end.

Definition Math_min (a b : number) : number :=
  match a, b with
  | NaN, _ | _, NaN => NaN
  | _, _ => if num_lt b a then b else a
  end.

(** [a === b] on numbers: [NaN] equals nothing. *)
Definition num_strict_eq (a b : number) : bool :=
  match a, b with
  | Infinity s, Infinity t => Bool.eqb s t
  | Fin x, Fin y => Qeq_bool x y
  | _, _ => false
  end.

(** A finite number: what an attribute of WebIDL type [double] accepts. *)
Definition is_finite (a : number) : bool :=
  match a with
  | Fin _ => true
  | _ => false
  end.

(* ================================================================== *)
(** * The player ([VideoPlayer.tsx]) *)
(* ================================================================== *)

Module VideoPlayer.

(** [File]: the two attributes the application reads. *)
Record File : Type := mkFile {
  file_name : string;
  file_type : string
}.

(** What the player does to the page, to the video element and to its
    parent. *)
Inductive Effect : Type :=
| play
| pause
| assign_currentTime (t : number)
| assign_volume (v : number)
| assign_muted (m : bool)
| requestFullscreen
| exitFullscreen
| onFullscreenNotesChange (showing : bool)
| onVideoLoad (filename : string)
| createObjectURL (name : string)
| toast_success (message : string)
| preventDefault
| uncaught (exception : string).

(** What a handler reads from the video element when it runs. *)
Record Video : Type := mkVideo {
  video_currentTime : number;
  video_duration : number
}.

Record Player : Type := mkPlayer {
  (* props *)
  isFullscreenNotes : bool;
  (* useState *)
  isPlaying : bool;
  currentTime : number;
  duration : number;
  volume : number;
  isMuted : bool;
  showControls : bool;
  videoUrl : option string;
  isCustomFullscreen : bool;
  (* the page and the element *)
  fullscreenElement : bool;        (* [document.fullscreenElement] is not null *)
  video_muted : bool;              (* the element's [muted] attribute *)
  (* the [keydown] listener on [window]: it is registered by an effect
     whose only dependency is [isPlaying], so the [toggleMute] it calls
     is the one of the render in which [isPlaying] last changed *)
  keydown_isMuted : bool;
  log : list Effect                (* most recent first *)
}.

Definition emit (e : Effect) (p : Player) : Player :=
  mkPlayer (isFullscreenNotes p) (isPlaying p) (currentTime p) (duration p)
           (volume p) (isMuted p) (showControls p) (videoUrl p)
           (isCustomFullscreen p) (fullscreenElement p) (video_muted p)
           (keydown_isMuted p) (e :: log p).

Definition setIsPlaying (b : bool) (p : Player) : Player :=
  mkPlayer (isFullscreenNotes p) b (currentTime p) (duration p)
           (volume p) (isMuted p) (showControls p) (videoUrl p)
           (isCustomFullscreen p) (fullscreenElement p) (video_muted p)
           (keydown_isMuted p) (log p).

Definition setCurrentTime (t : number) (p : Player) : Player :=
  mkPlayer (isFullscreenNotes p) (isPlaying p) t (duration p)
           (volume p) (isMuted p) (showControls p) (videoUrl p)
           (isCustomFullscreen p) (fullscreenElement p) (video_muted p)
           (keydown_isMuted p) (log p).

Definition setDuration (d : number) (p : Player) : Player :=
  mkPlayer (isFullscreenNotes p) (isPlaying p) (currentTime p) d
           (volume p) (isMuted p) (showControls p) (videoUrl p)
           (isCustomFullscreen p) (fullscreenElement p) (video_muted p)
           (keydown_isMuted p) (log p).

Definition setVolume (v : number) (p : Player) : Player :=
  mkPlayer (isFullscreenNotes p) (isPlaying p) (currentTime p) (duration p)
           v (isMuted p) (showControls p) (videoUrl p)
           (isCustomFullscreen p) (fullscreenElement p) (video_muted p)
           (keydown_isMuted p) (log p).

Definition setIsMuted (b : bool) (p : Player) : Player :=
  mkPlayer (isFullscreenNotes p) (isPlaying p) (currentTime p) (duration p)
           (volume p) b (showControls p) (videoUrl p)
           (isCustomFullscreen p) (fullscreenElement p) (video_muted p)
           (keydown_isMuted p) (log p).

Definition setVideoUrl (u : option string) (p : Player) : Player :=
  mkPlayer (isFullscreenNotes p) (isPlaying p) (currentTime p) (duration p)
           (volume p) (isMuted p) (showControls p) u
           (isCustomFullscreen p) (fullscreenElement p) (video_muted p)
           (keydown_isMuted p) (log p).

Definition setIsCustomFullscreen (b : bool) (p : Player) : Player :=
  mkPlayer (isFullscreenNotes p) (isPlaying p) (currentTime p) (duration p)
           (volume p) (isMuted p) (showControls p) (videoUrl p)
           b (fullscreenElement p) (video_muted p)
           (keydown_isMuted p) (log p).

Definition set_fullscreenElement (b : bool) (p : Player) : Player :=
  mkPlayer (isFullscreenNotes p) (isPlaying p) (currentTime p) (duration p)
           (volume p) (isMuted p) (showControls p) (videoUrl p)
           (isCustomFullscreen p) b (video_muted p)
           (keydown_isMuted p) (log p).

Definition set_video_muted (b : bool) (p : Player) : Player :=
  mkPlayer (isFullscreenNotes p) (isPlaying p) (currentTime p) (duration p)
           (volume p) (isMuted p) (showControls p) (videoUrl p)
           (isCustomFullscreen p) (fullscreenElement p) b
           (keydown_isMuted p) (assign_muted b :: log p).

(** A video element that has just been created is not muted. *)
Definition fresh_video (p : Player) : Player :=
  mkPlayer (isFullscreenNotes p) (isPlaying p) (currentTime p) (duration p)
           (volume p) (isMuted p) (showControls p) (videoUrl p)
           (isCustomFullscreen p) (fullscreenElement p) false
           (keydown_isMuted p) (log p).

Definition set_keydown_isMuted (b : bool) (p : Player) : Player :=
  mkPlayer (isFullscreenNotes p) (isPlaying p) (currentTime p) (duration p)
           (volume p) (isMuted p) (showControls p) (videoUrl p)
           (isCustomFullscreen p) (fullscreenElement p) (video_muted p)
           b (log p).

(** A handler returns or throws. *)
Inductive Outcome : Type :=
| Returns (p : Player)
| Throws (exception : string) (p : Player).

Definition state_of (o : Outcome) : Player :=
  match o with Returns p => p | Throws _ p => p end.

(** [video.currentTime = t]: the attribute is a [double], so a value that
    is not finite is refused with a [TypeError]; otherwise the element
    is asked to seek to [t]. *)
Definition assign_video_currentTime (t : number) (p : Player) : Outcome :=
  if is_finite t then Returns (emit (assign_currentTime t) p)
  else Throws "TypeError" p.

(** The effect on [videoFile]: [url] is what [URL.createObjectURL]
    returns.  The video element is rendered while [videoUrl] is set; one
    that is rendered for the first time is a new element. *)
Definition load_effect (videoFile : option File) (url : string) (p : Player)
  : Player :=
  match videoFile with
  | Some file =>
      let p1 := match videoUrl p with
                | Some _ => p
                | None => fresh_video p
                end in
      emit (onVideoLoad (file_name file))
           (setVideoUrl (Some url) (emit (createObjectURL (file_name file)) p1))
  | None =>
      setDuration (Fin 0)
        (setCurrentTime (Fin 0) (setIsPlaying false (setVideoUrl None p)))
  end.

(** The listeners for [timeupdate] and [loadedmetadata]. *)
Definition updateTime (video : Video) (p : Player) : Player :=
  setCurrentTime (video_currentTime video) p.

Definition updateDuration (video : Video) (p : Player) : Player :=
  setDuration (video_duration video) p.

Definition togglePlay (video : option Video) (p : Player) : Player :=
  match video with
  | None => p
  | Some _ =>
      setIsPlaying (negb (isPlaying p))
                   (emit (if isPlaying p then pause else play) p)
  end.

(** [handleSeek(value)]; the argument is [value[0]]. *)
Definition handleSeek (value0 : number) (video : option Video) (p : Player)
  : Outcome :=
  match video with
  | None => Returns p
  | Some _ =>
      match assign_video_currentTime value0 p with
      | Returns p1 => Returns (setCurrentTime value0 p1)
      | Throws e p1 => Throws e p1
      end
  end.

(** [handleVolumeChange(value)]; the argument is [value[0]], which the
    slider keeps between 0 and 1. *)
Definition handleVolumeChange (value0 : number) (video : option Video)
           (p : Player) : Player :=
  match video with
  | None => p
  | Some _ =>
      setIsMuted (num_strict_eq value0 (Fin 0))
                 (setVolume value0 (emit (assign_volume value0) p))
  end.

(** [toggleMute] of a render whose [isMuted] was [captured]. *)
Definition toggleMute_of (captured : bool) (video : option Video) (p : Player)
  : Player :=
  match video with
  | None => p
  | Some _ => setIsMuted (negb captured) (set_video_muted (negb captured) p)
  end.

(** [toggleMute] as the mute button calls it: the one of the current
    render. *)
Definition toggleMute (video : option Video) (p : Player) : Player :=
  toggleMute_of (isMuted p) video p.

(** [toggleFullscreen]; [container] says whether [containerRef.current]
    is there. *)
Definition toggleFullscreen (container : bool) (p : Player) : Player :=
  if negb container then p
  else if fullscreenElement p then
    emit (onFullscreenNotesChange false)
         (setIsCustomFullscreen false (emit exitFullscreen p))
  else setIsCustomFullscreen true (emit requestFullscreen p).

Definition toggleNotesInFullscreen (p : Player) : Player :=
  emit (onFullscreenNotesChange (negb (isFullscreenNotes p))) p.

(** The listener for [fullscreenchange]. *)
Definition handleFullscreenChange (p : Player) : Player :=
  if negb (fullscreenElement p) then
    emit (onFullscreenNotesChange false) (setIsCustomFullscreen false p)
  else p.

Definition skip (seconds : number) (video : option Video) (p : Player)
  : Outcome :=
  match video with
  | None => Returns p
  | Some v =>
      assign_video_currentTime
        (Math_max (Fin 0)
           (Math_min (video_duration v)
                     (num_add (video_currentTime v) seconds)))
        p
  end.

Definition one_frame : number := (Fin 1 / Fin 30)%js.

Definition previousFrame (video : option Video) (p : Player) : Outcome :=
  match video with
  | None => Returns p
  | Some v =>
      match assign_video_currentTime
              (Math_max (Fin 0) (num_sub (video_currentTime v) one_frame)) p with
      | Returns p1 => Returns (emit (toast_success "Previous frame") p1)
      | Throws e p1 => Throws e p1
      end
  end.

Definition nextFrame (video : option Video) (p : Player) : Outcome :=
  match video with
  | None => Returns p
  | Some v =>
      match assign_video_currentTime
              (Math_min (video_duration v)
                        (num_add (video_currentTime v) one_frame)) p with
      | Returns p1 => Returns (emit (toast_success "Next frame") p1)
      | Throws e p1 => Throws e p1
      end
  end.

(** [document.activeElement], as far as the listener looks at it. *)
Record ActiveElement : Type := mkActive {
  tagName : string;
  isContentEditable : bool
}.

Definition typing_target (active : option ActiveElement) : bool :=
  match active with
  | Some a =>
      String.eqb (tagName a) "TEXTAREA" || String.eqb (tagName a) "INPUT"
      || isContentEditable a
  | None => false
  end.

(** The [keydown] listener on [window]. *)
Definition handleKeyPress (key : string) (shiftKey : bool)
           (active : option ActiveElement) (container : bool)
           (video : option Video) (p : Player) : Outcome :=
  match video with
  | None => Returns p
  | Some _ =>
      if typing_target active then Returns p
      else if String.eqb key " " then
        Returns (togglePlay video (emit preventDefault p))
      else if String.eqb key "ArrowLeft" then
        if shiftKey then previousFrame video (emit preventDefault p)
        else skip (Fin (-10)) video (emit preventDefault p)
      else if String.eqb key "ArrowRight" then
        if shiftKey then nextFrame video (emit preventDefault p)
        else skip (Fin 10) video (emit preventDefault p)
      else if String.eqb key "f" then
        Returns (toggleFullscreen container (emit preventDefault p))
      else if String.eqb key "m" then
        Returns (toggleMute_of (keydown_isMuted p) video (emit preventDefault p))
      else Returns p
  end.

(** After a handler React renders again and runs the effects whose
    dependencies changed: the [keydown] listener is replaced by the one
    of the new render exactly when [isPlaying] changed. *)
Definition commit (before after : Player) : Player :=
  if Bool.eqb (isPlaying before) (isPlaying after) then after
  else set_keydown_isMuted (isMuted after) after.

Definition uncaught_of (o : Outcome) : Player :=
  match o with
  | Returns p => p
  | Throws e p => emit (uncaught e) p
  end.

(** What can happen to the player. *)
Inductive Event : Type :=
| ClickPlay
| ClickMute
| ClickFullscreen
| ClickNotes
| ClickSkip (seconds : number)
| ClickPreviousFrame
| ClickNextFrame
| Seek (value0 : number)
| Volume (value0 : number)
| KeyDown (key : string) (shiftKey : bool) (active : option ActiveElement)
| TimeUpdate
| LoadedMetadata
| FullscreenChange (element : bool)
| Load (videoFile : option File) (url : string).

(** One event: the handler on the current render, then the commit.  The
    video element is there exactly while [videoUrl] is set, and so is the
    container. *)
Definition dispatch (video : Video) (ev : Event) (p : Player) : Player :=
  let v := match videoUrl p with Some _ => Some video | None => None end in
  let container := match videoUrl p with Some _ => true | None => false end in
  commit p
    match ev with
    | ClickPlay => togglePlay v p
    | ClickMute => toggleMute v p
    | ClickFullscreen => toggleFullscreen container p
    | ClickNotes => toggleNotesInFullscreen p
    | ClickSkip seconds => uncaught_of (skip seconds v p)
    | ClickPreviousFrame => uncaught_of (previousFrame v p)
    | ClickNextFrame => uncaught_of (nextFrame v p)
    | Seek value0 => uncaught_of (handleSeek value0 v p)
    | Volume value0 => handleVolumeChange value0 v p
    | KeyDown key shiftKey active =>
        uncaught_of (handleKeyPress key shiftKey active container v p)
    | TimeUpdate => match v with Some x => updateTime x p | None => p end
    | LoadedMetadata => match v with Some x => updateDuration x p | None => p end
    | FullscreenChange element =>
        handleFullscreenChange (set_fullscreenElement element p)
    | Load videoFile url => load_effect videoFile url p
    end.

(** The player's own [formatTime]: minutes and seconds. *)
Definition formatTime (seconds : number) : string :=
  let mins := Math_floor (seconds / Fin 60)%js in
  let secs := Math_floor (seconds mod Fin 60)%js in
  Number_toString mins +:+ ":" +:+ padStart 2 "0" (Number_toString secs).

(** The first render of the player. *)
Definition initial (isFullscreenNotes : bool) : Player :=
  mkPlayer isFullscreenNotes false (Fin 0) (Fin 0) (Fin 1) false true None false
           false false false [].

End VideoPlayer.

(* ================================================================== *)
(** * The page (the index page) *)
(* ================================================================== *)

Module Index.

Inductive Effect : Type :=
| toast_error (message : string)
| toast_success (message : string)
| preventDefault
| stopPropagation
| reset_input.

Record Page : Type := mkPage {
  (* useState *)
  videoFile : option VideoPlayer.File;
  currentVideoFilename : option string;
  theme : string;
  isDragging : bool;
  isFullscreenNotes : bool;
  (* the browser *)
  theme_item : option string;    (* [localStorage] under ["alairy-theme"] *)
  data_theme : option string;    (* the attribute of the root element *)
  log : list Effect              (* most recent first *)
}.

Definition theme_key : string := "alairy-theme".

Definition emit (e : Effect) (pg : Page) : Page :=
  mkPage (videoFile pg) (currentVideoFilename pg) (theme pg) (isDragging pg)
         (isFullscreenNotes pg) (theme_item pg) (data_theme pg) (e :: log pg).

Definition setVideoFile (f : option VideoPlayer.File) (pg : Page) : Page :=
  mkPage f (currentVideoFilename pg) (theme pg) (isDragging pg)
         (isFullscreenNotes pg) (theme_item pg) (data_theme pg) (log pg).

Definition setCurrentVideoFilename (n : option string) (pg : Page) : Page :=
  mkPage (videoFile pg) n (theme pg) (isDragging pg)
         (isFullscreenNotes pg) (theme_item pg) (data_theme pg) (log pg).

Definition setTheme (t : string) (pg : Page) : Page :=
  mkPage (videoFile pg) (currentVideoFilename pg) t (isDragging pg)
         (isFullscreenNotes pg) (theme_item pg) (data_theme pg) (log pg).

Definition setIsDragging (b : bool) (pg : Page) : Page :=
  mkPage (videoFile pg) (currentVideoFilename pg) (theme pg) b
         (isFullscreenNotes pg) (theme_item pg) (data_theme pg) (log pg).

Definition setIsFullscreenNotes (b : bool) (pg : Page) : Page :=
  mkPage (videoFile pg) (currentVideoFilename pg) (theme pg) (isDragging pg)
         b (theme_item pg) (data_theme pg) (log pg).

Definition set_theme_item (v : option string) (pg : Page) : Page :=
  mkPage (videoFile pg) (currentVideoFilename pg) (theme pg) (isDragging pg)
         (isFullscreenNotes pg) v (data_theme pg) (log pg).

Definition set_data_theme (v : option string) (pg : Page) : Page :=
  mkPage (videoFile pg) (currentVideoFilename pg) (theme pg) (isDragging pg)
         (isFullscreenNotes pg) (theme_item pg) v (log pg).

(** The effect that runs once after the first render. *)
Definition load_theme (pg : Page) : Page :=
  let savedTheme := or_string (theme_item pg) "default" in
  let pg1 := setTheme savedTheme pg in
  if negb (String.eqb savedTheme "default")
  then set_data_theme (Some savedTheme) pg1
  else pg1.

Definition handleThemeChange (newTheme : string) (pg : Page) : Page :=
  let pg1 := set_theme_item (Some newTheme) (setTheme newTheme pg) in
  let pg2 :=
    if String.eqb newTheme "default" then set_data_theme None pg1
    else set_data_theme (Some newTheme) pg1 in
  emit (toast_success ("Theme: " +:+ newTheme)) pg2.

(** [file.type.startsWith("video/")]. *)
Definition is_video (file : VideoPlayer.File) : bool :=
  String.prefix "video/" (VideoPlayer.file_type file).

(** [handleFileSelect]; the argument is [e.target.files?.[0]]. *)
Definition handleFileSelect (file : option VideoPlayer.File) (pg : Page) : Page :=
  let pg1 :=
    match file with
    | Some f =>
        if is_video f then
          emit (toast_success ("Loaded: " +:+ VideoPlayer.file_name f))
               (setVideoFile (Some f) pg)
        else emit (toast_error "Please select a valid video file") pg
    | None => pg
    end in
  emit reset_input pg1.

Definition handleUnloadVideo (pg : Page) : Page :=
  emit (toast_success "Video unloaded")
       (setCurrentVideoFilename None (setVideoFile None pg)).

(** [handleDrop]; the argument is [e.dataTransfer.files[0]]. *)
Definition handleDrop (file : option VideoPlayer.File) (pg : Page) : Page :=
  let pg1 := setIsDragging false (emit stopPropagation (emit preventDefault pg)) in
  match file with
  | Some f =>
      if is_video f then
        emit (toast_success ("Loaded: " +:+ VideoPlayer.file_name f))
             (setVideoFile (Some f) pg1)
      else emit (toast_error "Please drop a valid video file") pg1
  | None => emit (toast_error "Please drop a valid video file") pg1
  end.

Definition handleDragOver (pg : Page) : Page :=
  emit stopPropagation (emit preventDefault pg).

Definition handleDragEnter (pg : Page) : Page :=
  setIsDragging true (emit stopPropagation (emit preventDefault pg)).

(** [handleDragLeave]; [atTarget] is [e.currentTarget === e.target]. *)
Definition handleDragLeave (atTarget : bool) (pg : Page) : Page :=
  let pg1 := emit stopPropagation (emit preventDefault pg) in
  if atTarget then setIsDragging false pg1 else pg1.

Inductive Event : Type :=
| ThemeChange (newTheme : string)
| FileSelect (file : option VideoPlayer.File)
| UnloadVideo
| Drop (file : option VideoPlayer.File)
| DragOver
| DragEnter
| DragLeave (atTarget : bool).

Definition handle (ev : Event) (pg : Page) : Page :=
  match ev with
  | ThemeChange newTheme => handleThemeChange newTheme pg
  | FileSelect file => handleFileSelect file pg
  | UnloadVideo => handleUnloadVideo pg
  | Drop file => handleDrop file pg
  | DragOver => handleDragOver pg
  | DragEnter => handleDragEnter pg
  | DragLeave atTarget => handleDragLeave atTarget pg
  end.

(** The event stored a [File] in the state.  Files are objects: the one
    an event delivers is never the one already in the state. *)
Definition stores_file (ev : Event) : bool :=
  match ev with
  | FileSelect (Some f) | Drop (Some f) => is_video f
  | _ => false
  end.

Definition same_option_string (a b : option string) : bool :=
  match a, b with
  | Some x, Some y => String.eqb x y
  | None, None => true
  | _, _ => false
  end.

Definition has_file (pg : Page) : bool :=
  match videoFile pg with Some _ => true | None => false end.

(** React renders the page again when a state setter was given a value
    that is not the one in the state. *)
Definition state_changed (ev : Event) (before after : Page) : bool :=
  stores_file ev
  || negb (Bool.eqb (has_file before) (has_file after))
  || negb (same_option_string (currentVideoFilename before)
                              (currentVideoFilename after))
  || negb (String.eqb (theme before) (theme after))
  || negb (Bool.eqb (isDragging before) (isDragging after))
  || negb (Bool.eqb (isFullscreenNotes before) (isFullscreenNotes after)).

(** The first render. *)
Definition initial (item attribute : option string) : Page :=
  mkPage None None "default" false false item attribute [].

End Index.

(* ================================================================== *)
(** * The page, the player and the panel together *)
(* ================================================================== *)

(** The page renders the panel with [videoFilename =
    currentVideoFilename] and with a [seekToTime] that is a new function
    in every render of the page.  [handleStampClick] and with it
    [reattachStampListeners] depend on [seekToTime], and the load-notes
    effect depends on [reattachStampListeners]: the effect runs again
    after every render of the page, whether or not the video changed. *)
Definition page_rendered (videoFilename : option string) (now : Z) (s : State)
  : State :=
  activate videoFilename now s.

Record App : Type := mkApp {
  page : Index.Page;
  player : VideoPlayer.Player;
  panel : State
}.

(** The name that the player's effect on [videoFile] reports through
    [onVideoLoad]. *)
Definition reported_name (p : VideoPlayer.Player) : option string :=
  match VideoPlayer.log p with
  | VideoPlayer.onVideoLoad name :: _ => Some name
  | _ => None
  end.

(** An event on the page: its handler; if the state changed, a render,
    after which the panel's load effect runs and, if [videoFile] changed,
    the player's; if that reported a name other than the current one, a
    second render with the new name. *)
Definition page_event (now : Z) (url : string) (video : VideoPlayer.Video)
           (ev : Index.Event) (a : App) : App :=
  let pg1 := Index.handle ev (page a) in
  if negb (Index.state_changed ev (page a) pg1) then mkApp pg1 (player a) (panel a)
  else
    let s1 := page_rendered (Index.currentVideoFilename pg1) now (panel a) in
    let file_changed :=
      Index.stores_file ev
      || negb (Bool.eqb (Index.has_file (page a)) (Index.has_file pg1)) in
    if negb file_changed then mkApp pg1 (player a) s1
    else
      let p1 := VideoPlayer.dispatch video
                  (VideoPlayer.Load (Index.videoFile pg1) url) (player a) in
      match Index.videoFile pg1, reported_name p1 with
      | Some _, Some name =>
          if Index.same_option_string (Index.currentVideoFilename pg1) (Some name)
          then mkApp pg1 p1 s1
          else
            let pg2 := Index.setCurrentVideoFilename (Some name) pg1 in
            mkApp pg2 p1 (page_rendered (Some name) now s1)
      | _, _ => mkApp pg1 p1 s1
      end.

(** An event in the panel, and the passing of time there. *)
Definition panel_event (now : Z) (ev : Event) (a : App) : App :=
  mkApp (page a) (player a) (dispatch now ev (advance now (panel a))).

Definition panel_advance (now : Z) (a : App) : App :=
  mkApp (page a) (player a) (advance now (panel a)).


(* ================================================================== *)
(** * The vocabulary of the statements *)
(* ================================================================== *)

(** ** Induction on trees *)

Section NodeInduction.

Variable P : node -> Prop.
Hypothesis P_text : forall s, P (TextNode s).
Hypothesis P_element :
  forall tag attrs ls cs, Forall P cs -> P (Element tag attrs ls cs).

Fixpoint node_rect' (n : node) : P n :=
  match n with
  | TextNode s => P_text s
  | Element tag attrs ls cs =>
      P_element tag attrs ls cs
        ((fix all (l : list node) : Forall P l :=
            match l with
            | [] => Forall_nil_2 P
            | c :: l' => Forall_cons_2 P c l' (node_rect' c) (all l')
            end) cs)
  end.

End NodeInduction.

Section MarkupInduction.

Variable P : markup -> Prop.
Hypothesis P_text : forall s, P (MText s).
Hypothesis P_element :
  forall tag attrs cs, Forall P cs -> P (MElement tag attrs cs).

Fixpoint markup_rect' (m : markup) : P m :=
  match m with
  | MText s => P_text s
  | MElement tag attrs cs =>
      P_element tag attrs cs
        ((fix all (l : list markup) : Forall P l :=
            match l with
            | [] => Forall_nil_2 P
            | c :: l' => Forall_cons_2 P c l' (markup_rect' c) (all l')
            end) cs)
  end.

End MarkupInduction.

(** ** Numerals and clock times *)

(** Two decimal digits, the tens first. *)
Definition two_digits (k : Z) : string :=
  String (digit_char (k / 10)) (String (digit_char (k mod 10)) "").

(** [H:MM:SS] of a whole number of seconds. *)
Definition hms (n : Z) : string :=
  N_toString (Z.to_N (n / 3600)) +:+ ":" +:+ two_digits ((n / 60) mod 60)
    +:+ ":" +:+ two_digits (n mod 60).

Fixpoint all_digits (s : string) : bool :=
  match s with
  | EmptyString => true
  | String c s' => is_digit c && all_digits s'
  end.

(** No digit at the front: the empty string, or a first character that
    is not a digit. *)
Definition no_leading_digit (s : string) : bool :=
  match s with
  | EmptyString => true
  | String c _ => negb (is_digit c)
  end.

(** The remainder left after [fuel] decimal places of [r / d]. *)
Fixpoint final_remainder (fuel : nat) (r d : Z) : Z :=
  if r =? 0 then 0
  else match fuel with
       | O => r
       | S fuel' => final_remainder fuel' ((10 * r) mod d) d
       end.

(** The numbers whose decimal expansion ends within the places that
    [Number_toString] prints. *)
Definition is_decimal (q : Q) : bool :=
  final_remainder max_frac_digits (Z.abs (Qnum q) mod Zpos (Qden q)) (Zpos (Qden q)) =? 0.

(** A character that the pattern [[^/.]] of the file-name expression
    accepts. *)
Definition extension_char (c : ascii) : bool :=
  negb (Ascii.eqb c "." || Ascii.eqb c "/").

(** ** Documents of text runs and stamps *)

(** The document of the data model: text runs and stamp tokens, possibly
    inside the block and line elements that editing creates. *)
Inductive Segment : Type :=
| Run (text : string)
| Tok (stamp : Stamp)
| Wrap (tag : string) (attrs : list (string * string)) (body : list Segment).

Section SegmentInduction.

Variable P : Segment -> Prop.
Hypothesis P_run : forall t, P (Run t).
Hypothesis P_tok : forall st, P (Tok st).
Hypothesis P_wrap : forall tag attrs body, Forall P body -> P (Wrap tag attrs body).

Fixpoint Segment_rect' (seg : Segment) : P seg :=
  match seg with
  | Run t => P_run t
  | Tok st => P_tok st
  | Wrap tag attrs body =>
      P_wrap tag attrs body
        ((fix all (l : list Segment) : Forall P l :=
            match l with
            | [] => Forall_nil_2 P
            | c :: l' => Forall_cons_2 P c l' (Segment_rect' c) (all l')
            end) body)
  end.

End SegmentInduction.

(** The stamp that [insertTimestamp] builds at time [now]. *)
Definition time_stamp (time : number) (now : Z) : Stamp :=
  {| stamp_id := "time-" +:+ Number_toString (Fin (inject_Z now));
     stamp_type := "time";
     stamp_value := time;
     stamp_label := "Timestamp" |}.

(** The short text shown inside a stamp, as [insertTimestamp] and
    [insertFrameStamp] compute it. *)
Definition displayText (st : Stamp) : string :=
  if String.eqb (stamp_type st) "time" then formatTime (stamp_value st)
  else "F" +:+ Number_toString (stamp_value st).

(** The DOM that inserting the stamps of a document produces. *)
Fixpoint render (k : bool) (seg : Segment) : node :=
  match seg with
  | Run t => TextNode t
  | Tok st => stampButton k st (displayText st)
  | Wrap tag attrs body => Element tag attrs [] (map (render k) body)
  end.

(** The stamps of a document, in document order. *)
Fixpoint tokens (seg : Segment) : list Stamp :=
  match seg with
  | Run _ => []
  | Tok st => [st]
  | Wrap _ _ body => flat_map tokens body
  end.

(** A wrapper is any element that is not itself a stamp button. *)
Definition plain_wrapper (tag : string) (attrs : list (string * string)) : bool :=
  negb (String.eqb tag "button" && hasAttribute "data-stamp-id" attrs).

Fixpoint well_formed (ok : Stamp -> bool) (seg : Segment) : bool :=
  match seg with
  | Run _ => true
  | Tok st => ok st
  | Wrap tag attrs body => plain_wrapper tag attrs && forallb (well_formed ok) body
  end.

(** A stamp whose value prints in positional notation. *)
Definition printable (st : Stamp) : bool :=
  match stamp_value st with
  | Fin q => is_decimal q
  | _ => false
  end.

(** A stamp as the two insert buttons make them: a time stamp holds a
    non-negative number of seconds, a frame stamp a non-negative whole
    number. *)
Definition inserted (st : Stamp) : bool :=
  match stamp_value st with
  | Fin q =>
      is_decimal q && (0 <=? Qnum q)
      && (String.eqb (stamp_type st) "time"
          || (String.eqb (stamp_type st) "frame" && (Zpos (Qden q) =? 1)))
  | _ => false
  end.

(** The export text in the words of the specification. *)
Definition bracket (st : Stamp) : string :=
  match stamp_value st with
  | Fin q =>
      if String.eqb (stamp_type st) "time"
      then "[" +:+ hms (Qfloor q) +:+ "]"
      else "[Frame " +:+ N_toString (Z.to_N (Qfloor q)) +:+ "]"
  | _ => ""
  end.

(** The text of a document without its line structure: the text runs
    and the bracket forms of the stamps, one after another. *)
Fixpoint running_text (seg : Segment) : string :=
  match seg with
  | Run t => t
  | Tok st => bracket st
  | Wrap _ _ body => fold_right (fun b acc => running_text b +:+ acc) "" body
  end.

Definition running_text_all (doc : list Segment) : string :=
  fold_right (fun b acc => running_text b +:+ acc) "" doc.

(** ** The visible text of a document *)

(** The visible text of the specification is what a reader of the notes
    sees, which for a document of elements is its text as laid out on
    the page: a [br] breaks the line, a block element stands on lines of
    its own, a paragraph with an empty line around it, and an inline
    element adds nothing to the text inside it.  The pieces are
    collected in document order and joined as the HTML standard joins
    the rendered text of an element: empty strings are dropped, line
    breaks required at the very start or the very end are dropped, and a
    run of required breaks gives as many line feeds as the largest of
    them asks for.  Text runs are taken as they are. *)
Inductive Piece : Type :=
| Chars (text : string)
| LineBreaks (count : nat).

Definition block_tag (tag : string) : bool :=
  existsb (String.eqb tag)
          ["div"; "p"; "li"; "ul"; "ol"; "blockquote"; "pre";
           "h1"; "h2"; "h3"; "h4"; "h5"; "h6"].

Fixpoint pieces (seg : Segment) : list Piece :=
  match seg with
  | Run t => [Chars t]
  | Tok st => [Chars (bracket st)]
  | Wrap tag _ body =>
      let inner := flat_map pieces body in
      if String.eqb tag "br" then [Chars LF]
      else if String.eqb tag "p" then LineBreaks 2 :: inner ++ [LineBreaks 2]
      else if block_tag tag then LineBreaks 1 :: inner ++ [LineBreaks 1]
      else inner
  end.

Fixpoint line_feeds (n : nat) : string :=
  match n with
  | O => ""
  | S n' => LF +:+ line_feeds n'
  end.

(** [required] is the largest line break required since the last text,
    [started] says whether any text has been laid out yet. *)
Fixpoint lay_out (required : nat) (started : bool) (ps : list Piece) : string :=
  match ps with
  | [] => ""
  | Chars text :: rest =>
      if truthy_string text then
        (if started then line_feeds required else "")
          +:+ text +:+ lay_out 0 true rest
      else lay_out required started rest
  | LineBreaks n :: rest => lay_out (Nat.max required n) started rest
  end.

Definition visible_text_all (doc : list Segment) : string :=
  lay_out 0 false (flat_map pieces doc).

(** A segment that stays on the line: a text run or a stamp. *)
Definition on_the_line (seg : Segment) : bool :=
  match seg with
  | Run _ | Tok _ => true
  | Wrap _ _ _ => false
  end.

(** Notes of several lines as the browser builds them while the user
    types and presses Enter: the first line directly in the editor,
    every further line in a [div] of its own. *)
Definition lines_document (first : string) (more : list string) : list Segment :=
  Run first :: map (fun line => Wrap "div" [] [Run line]) more.

(** The lines one after another, and the lines each on its own line. *)
Definition lines_joined (first : string) (more : list string) : string :=
  first +:+ fold_right (fun line acc => line +:+ acc) "" more.

Definition lines_apart (first : string) (more : list string) : string :=
  first +:+ fold_right (fun line acc => LF +:+ line +:+ acc) "" more.

(** Two stamps with the same fields, the values compared as numbers. *)
Definition stamp_equiv (a b : Stamp) : Prop :=
  stamp_id a = stamp_id b /\ stamp_type a = stamp_type b
  /\ num_eq (stamp_value a) (stamp_value b) /\ stamp_label a = stamp_label b.

Definition listeners_of (n : node) : list ClickListener :=
  match n with
  | TextNode _ => []
  | Element _ _ ls _ => ls
  end.

(** What [querySelectorAll] contributes for one child of the editor. *)
Definition query (n : node) : list node :=
  (if is_stamp_button n then [n] else []) ++ matching_descendants n.

(** A node after its markup has been stored, parsed again and passed
    through [reattachStampListeners]. *)
Definition reload (k : bool) (n : node) : node :=
  reattach k (parse (serialize n)).

Definition is_element (m : markup) : bool :=
  match m with
  | MText _ => false
  | MElement _ _ _ => true
  end.

(** ** The double-backspace machine *)






Definition is_some {A} (o : option A) : bool :=
  match o with Some _ => true | None => false end.

(** ** Timers and typing *)

Definition is_autosave (t : Timer) : bool :=
  match timer_callback t with
  | AutoSaveCb _ => true
  | ReattachCb _ => false
  end.

Definition pending_autosaves (s : State) : list Timer :=
  List.filter is_autosave (timers s).

(** What holds of the timers in every state the component reaches: ids
    are positive, distinct and below the next one to be issued, and
    every pending autosave is the one [autoSaveTimeoutRef] names. *)
Record TimerInv (s : State) : Prop := mkTimerInv {
  inv_next : (0 < nextTimerId s)%nat;
  inv_ids : Forall (fun t => (0 < timer_id t < nextTimerId s)%nat) (timers s);
  inv_nodup : NoDup (map timer_id (timers s));
  inv_ref : Forall (fun t => is_autosave t = true ->
                             autoSaveTimeoutRef s = Some (timer_id t)) (timers s)
}.

(** Two states that differ at most in the listeners of the document and
    in timers that are not autosaves. *)
Record same_view (s s' : State) : Prop := mkSameView {
  sv_videoFilename : videoFilename s' = videoFilename s;
  sv_getCurrentTime : getCurrentTime s' = getCurrentTime s;
  sv_getCurrentFrame : getCurrentFrame s' = getCurrentFrame s;
  sv_seekToTime : seekToTime s' = seekToTime s;
  sv_hasChanges : hasChanges s' = hasChanges s;
  sv_lastBackspaceTime : lastBackspaceTime s' = lastBackspaceTime s;
  sv_ref : autoSaveTimeoutRef s' = autoSaveTimeoutRef s;
  sv_storage : localStorage s' = localStorage s;
  sv_next : nextTimerId s' = nextTimerId s;
  sv_log : log s' = log s;
  sv_markup : option_map innerHTML (editorRef s') = option_map innerHTML (editorRef s);
  sv_autosaves : pending_autosaves s' = pending_autosaves s;
  sv_timers : sublist (timers s') (timers s)
}.

(** A burst of typing: each call of [handleInput] with the content the
    edit left behind. *)
Definition typing (calls : list (Z * list node)) : list (Z * Event) :=
  map (fun call => (fst call, Input (snd call))) calls.

(** Each call comes less than 1000 ms after the one before it. *)
Fixpoint spaced (t : Z) (rest : list (Z * list node)) : Prop :=
  match rest with
  | [] => True
  | call :: rest' => t <= fst call < t + 1000 /\ spaced (fst call) rest'
  end.

Fixpoint last_call (call : Z * list node) (rest : list (Z * list node))
  : Z * list node :=
  match rest with
  | [] => call
  | call' :: rest' => last_call call' rest'
  end.

(** ** Sample states *)

Definition stamp_12 : Stamp := mkStamp "time-1700000000000" "time" (Fin 12.5) "Timestamp".

Definition sample_document : list Segment :=
  [Run "intro ";
   Tok (mkStamp "time-1700000000000" "time" (Fin 12.5) "Timestamp");
   Wrap "div" [] [Run "cut at ";
                  Tok (mkStamp "frame-1700000000500" "frame" (Fin 90) "Frame")]].

(** A panel on [clip.mp4] holding one line of text. *)
Definition sample_state : State :=
  mkState (Some "clip.mp4") (Some (Fin 12.5)) (Some (Fin 375)) true
          false 0 (Some [TextNode "intro "]) None ∅ [] 1 [].

(** A panel without a video. *)
Definition idle_state : State :=
  mkState None (Some (Fin 0)) (Some (Fin 0)) true false 0 None None ∅ [] 1 [].

(** An editor holding ["abc"] followed by one stamp, armed at time 1000. *)
Definition armed_state : State :=
  mkState (Some "clip.mp4") (Some (Fin 12.5)) (Some (Fin 375)) true
          false 1000
          (Some [TextNode "abc"; stampButton true stamp_12 "0:00:12"])
          None ∅ [] 1 [].

Definition caret_after_abc : Range := caret (InEditor [0%nat]) 3.


(** Notes for B are on record; the panel shows A, whose notes are being
    typed when the video changes. *)
Definition storage_with_B : gmap string (list markup) :=
  {[ storage_key "b.mp4" := [MText "notes for B"] ]}.

Definition editing_A : State :=
  mkState (Some "a.mp4") (Some (Fin 0)) (Some (Fin 0)) true
          false 0 (Some []) None storage_with_B [] 1 [].

(** A panel mounted on [clip.mp4] with nothing on record. *)
Definition clip_mounted : State :=
  mount (Some "clip.mp4") (Some (Fin 0)) (Some (Fin 0)) true ∅ 0.

(** A panel on [clip.mp4] showing the sample document, unsaved. *)
Definition exporting_state : State :=
  mkState (Some "clip.mp4") (Some (Fin 12.5)) (Some (Fin 375)) true
          false 0 (Some (map (render true) sample_document)) None ∅ [] 1 [].

Definition saved_state : State :=
  mkState (Some "clip.mp4") (Some (Fin 12.5)) (Some (Fin 375)) true
          true 0 (Some (map (render true) sample_document)) None ∅ [] 1 [].

(** ** Markup in normal form *)

(** No empty text run and no two text runs side by side, at this level. *)
Fixpoint compact (ms : list markup) : bool :=
  match ms with
  | [] => true
  | MText s :: rest =>
      truthy_string s
      && match rest with MText _ :: _ => false | _ => true end
      && compact rest
  | MElement _ _ _ :: rest => compact rest
  end.

(** ** What a video's record shows *)

(** The editor content once the load effect and the reattach timer have
    run for video [g] over the storage [st]. *)
Definition shown (k : bool) (st : gmap string (list markup)) (g : option string)
  : option (list node) :=
  match g with
  | Some f =>
      if truthy_string f then
        match st !! storage_key f with
        | Some saved =>
            if truthy_markup saved
            then Some (map (reattach k) (set_innerHTML saved))
            else Some []
        | None => Some []
        end
      else None
  | None => None
  end.

(** ** The children at a path *)

(** The child list of the element at path [q] ([[]] is the editor
    itself). *)
Fixpoint children_at (cs : list node) (q : path) : option (list node) :=
  match q with
  | [] => Some cs
  | j :: q' =>
      match cs !! j with
      | Some (Element _ _ _ cs') => children_at cs' q'
      | _ => None
      end
  end.

(** A text node split in two around a stamp button, and the same
    without the button. *)
Definition split_around (i o : nat) (d : string) (btn : node) (l : list node)
  : list node :=
  take i l ++ [TextNode (text_before o d); btn; TextNode (text_after o d)]
         ++ drop (S i) l.

Definition split_in_two (i o : nat) (d : string) (l : list node) : list node :=
  take i l ++ [TextNode (text_before o d); TextNode (text_after o d)]
         ++ drop (S i) l.

(** ** A session on one video *)

(** The record of video [f] holds the markup [m]; no record counts as
    the empty markup. *)
Definition record_is (st : gmap string (list markup)) (f : string)
           (m : list markup) : Prop :=
  st !! storage_key f = Some m \/ (m = [] /\ st !! storage_key f = None).

(** What holds throughout a session on video [f]: the editor is there,
    a pending autosave is one for [f], and while nothing is marked as
    changed the record of [f] is the markup of the document. *)
Record Session (f : string) (s : State) : Prop := mkSession {
  ses_timers : TimerInv s;
  ses_video : videoFilename s = Some f;
  ses_editor : is_some (editorRef s) = true;
  ses_captured :
    Forall (fun t => timer_callback t = AutoSaveCb (Some f)) (pending_autosaves s);
  ses_saved :
    hasChanges s = false ->
    forall ed, editorRef s = Some ed -> record_is (localStorage s) f (innerHTML ed)
}.

(** Every event but a change of video. *)
Definition same_video (ev : Event) : bool :=
  match ev with
  | Activate _ => false
  | _ => true
  end.

(** A stored value that is the serialisation of some document. *)
Definition serialised (m : list markup) : Prop := exists cs, m = innerHTML cs.

(** ** The notes editor as the focused element *)

(** [document.activeElement] when the caret is in the notes editor: a
    [div] whose [contenteditable] attribute is the one of the panel's
    JSX. *)
Definition notes_editor_focused : VideoPlayer.ActiveElement :=
  VideoPlayer.mkActive
    "DIV"
    (bool_decide (getAttribute "contenteditable" editor_attributes = Some "true")).

(** ** What the load effect puts into the editor *)

Definition loaded (st : gmap string (list markup)) (g : option string)
  : option (list node) :=
  match g with
  | Some f =>
      if truthy_string f then
        match st !! storage_key f with
        | Some saved =>
            if truthy_markup saved then Some (set_innerHTML saved) else Some []
        | None => Some []
        end
      else None
  | None => None
  end.

(** Timers that are all reattach timers for [k], due by [later]. *)
Definition reattach_only (k : bool) (later : Z) (ts : list Timer) : Prop :=
  Forall (fun t => timer_due t <= later /\ timer_callback t = ReattachCb k) ts.

(** ** More sample states *)

(** A panel on [clip.mp4] whose record and editor both hold "kept". *)
Definition notes_on_record : State :=
  mkState (Some "clip.mp4") (Some (Fin 0)) (Some (Fin 0)) true false 0
          (Some [TextNode "kept"]) None
          {[ storage_key "clip.mp4" := [MText "kept"] ]} [] 1 [].

Definition watching : App :=
  mkApp (Index.mkPage (Some (VideoPlayer.mkFile "clip.mp4" "video/mp4"))
                      (Some "clip.mp4") "default" false false None None [])
        (VideoPlayer.initial false) notes_on_record.

(** ** File names *)

(** A name in which no dot occurs. *)
Definition dotless (s : string) : bool :=
  forallb (fun c => negb (Ascii.eqb c ".")) (list_ascii_of_string s).


(** ** Where an inserted stamp lands *)

(** The path at which [insertStampButton] leaves the new button, by the
    selection it finds: right after the first half of the text node that
    holds the caret, at the caret's offset among the children of the
    element (or of the editor itself, path [[]]) that holds it, and at
    the end of the editor when the first range lies outside the editor
    or [getSelection()] gave no selection at all. *)
Inductive lands (editor : list node) : option Selection -> path -> Prop :=
| lands_in_text (q : path) (i o : nat) (d : string) (rest : list Range) :
    node_at editor (q ++ [i]) = Some (TextNode d) ->
    lands editor (Some (caret (InEditor (q ++ [i])) o :: rest)) (q ++ [S i])
| lands_in_element (q : path) (cs : list node) (o : nat) (rest : list Range) :
    children_at editor q = Some cs -> (o <= length cs)%nat ->
    lands editor (Some (caret (InEditor q) o :: rest)) (q ++ [o])
| lands_at_end_outside (r : Range) (rest : list Range) :
    editor_contains_range r = false ->
    lands editor (Some (r :: rest)) [length editor]
| lands_at_end_null :
    lands editor None [length editor].

(** The stamp that [insertFrameStamp] builds at time [now]. *)
Definition frame_stamp (frame : number) (now : Z) : Stamp :=
  {| stamp_id := "frame-" +:+ Number_toString (Fin (inject_Z now));
     stamp_type := "frame";
     stamp_value := frame;
     stamp_label := "Frame" |}.

(** ** Keys out of reach of every write *)

(** [k] is out of reach in [s]: it is not the record key of the active
    video, and not the key of a name that a pending autosave holds. *)
Definition out_of_reach (k : string) (s : State) : Prop :=
  (forall f, videoFilename s = Some f -> k <> storage_key f)
  /\ Forall (fun t => forall f, timer_callback t = AutoSaveCb (Some f) ->
                                k <> storage_key f) (timers s).

(** No event of the run makes the video with record key [k] the active
    one. *)
Definition never_activates (k : string) (evs : list (Z * Event)) : Prop :=
  Forall (fun e => forall f, snd e = Activate (Some f) -> k <> storage_key f) evs.

(** ** Notes of three lines *)

(** A panel on [clip.mp4] whose editor holds three typed lines. *)
Definition three_lines_state : State :=
  mkState (Some "clip.mp4") (Some (Fin 12.5)) (Some (Fin 375)) true
          false 0
          (Some (map (render true)
                     (lines_document "line one" ["line two"; "line three"])))
          None ∅ [] 1 [].

(** ** Deleting a stamp while an autosave is pending *)

(** An editor holding ["abc"] followed by one stamp, not armed. *)
Definition unarmed_state : State := setLastBackspaceTime 0 armed_state.

(** The user types (the editor then holds ["abc"] and the stamp), then
    presses Backspace twice right after the text, 200 ms apart. *)
Definition type_then_delete : list (Z * Event) :=
  [(1000, Input [TextNode "abc"; stampButton true stamp_12 "0:00:12"]);
   (1100, KeyDown "Backspace" (Some [caret_after_abc]));
   (1300, KeyDown "Backspace" (Some [caret_after_abc]))].

(** ** The id of a stamp in the editor *)

(** [data-stamp-id] of the node at path [p] of the editor. *)
Definition stamp_id_at_path (s : State) (p : path) : option string :=
  match editorRef s with
  | Some editor =>
      match node_at editor p with
      | Some n => dataset_stampId n
      | None => None
      end
  | None => None
  end.

(* ================================================================== *)
(** * Facts about numerals and [formatTime] *)
(* ================================================================== *)

Example formatTime_3661 : formatTime (Fin 3661) = "1:01:01".
Proof. vm_compute. reflexivity. Qed.

Example formatTime_59 : formatTime (Fin 59) = "0:00:59".
Proof. vm_compute. reflexivity. Qed.

Example formatTime_fraction : formatTime (Fin 125.4) = "0:02:05".
Proof. vm_compute. reflexivity. Qed.

Example formatTime_negative : formatTime (Fin (-5)) = "-1:-1:-5".
Proof. vm_compute. reflexivity. Qed.

Example formatTime_NaN : formatTime NaN = "NaN:NaN:NaN".
Proof. vm_compute. reflexivity. Qed.

Example toString_decimal : Number_toString (Fin 125.4) = "125.4".
Proof. vm_compute. reflexivity. Qed.

Example parseFloat_decimal : num_eq (parseFloat "125.4") (Fin 125.4).
Proof. vm_compute. reflexivity. Qed.

Example parseFloat_exponent : num_eq (parseFloat "  -1.5e2xyz") (Fin (-150)).
Proof. vm_compute. reflexivity. Qed.

Example parseFloat_junk : parseFloat "abc" = NaN.
Proof. vm_compute. reflexivity. Qed.

Section StringFacts.

Lemma append_cons (c : ascii) (s t : string) :
  String c (s +:+ t) = String c s +:+ t.
Proof. reflexivity. Qed.

Lemma append_nil_r (s : string) : s +:+ "" = s.
Proof. induction s as [|c s IH]; simpl; [reflexivity | now rewrite IH]. Qed.

Lemma append_assoc (s t u : string) : (s +:+ t) +:+ u = s +:+ (t +:+ u).
Proof. induction s as [|c s IH]; simpl; [reflexivity | now rewrite IH]. Qed.

Lemma length_append (s t : string) :
  String.length (s +:+ t) = (String.length s + String.length t)%nat.
Proof. induction s as [|c s IH]; simpl; [reflexivity | now rewrite IH]. Qed.

End StringFacts.

Section FloorFacts.

Lemma Qfloor_div_pos (q : Q) (c : positive) :
  Qfloor (q / inject_Z (Zpos c)) = Qfloor q / Zpos c.
Proof.
  destruct q as [a d]. unfold Qdiv, Qinv, Qmult, Qfloor; simpl.
  rewrite Z.mul_1_r, Pos2Z.inj_mul.
  rewrite Z.div_div; lia.
Qed.

Lemma Qfloor_sub_multiple (q : Q) (c : positive) (k : Z) :
  Qfloor (q - inject_Z (Zpos c) * inject_Z k) = Qfloor q - Zpos c * k.
Proof.
  destruct q as [a d]. unfold Qminus, Qplus, Qopp, Qmult, Qfloor; simpl.
  rewrite !Pos.mul_1_r, Z.mul_1_r.
  replace (a + - (Zpos c * k) * Zpos d) with (a + (- (Zpos c * k)) * Zpos d) by lia.
  rewrite Z.div_add by lia. lia.
Qed.

Lemma Qtrunc_nonneg (q : Q) : (0 <= q)%Q -> Qtrunc q = Qfloor q.
Proof.
  destruct q as [a d]. unfold Qle, Qtrunc, Qfloor; simpl. intros H.
  apply Z.quot_div_nonneg; lia.
Qed.

Lemma Qdiv_pos_nonneg (q : Q) (c : positive) :
  (0 <= q)%Q -> (0 <= q / inject_Z (Zpos c))%Q.
Proof.
  destruct q as [a d]. unfold Qle, Qdiv, Qinv, Qmult; simpl. lia.
Qed.

Lemma Number_toString_nat (z : Z) :
  0 <= z -> Number_toString (Fin (inject_Z z)) = N_toString (Z.to_N z).
Proof.
  intros Hz. unfold Number_toString, inject_Z, Qneg. cbn [Qnum Qden].
  rewrite Z.mod_1_r, Z.div_1_r, Z.abs_eq by lia.
  destruct (z <? 0) eqn:E; [lia|].
  change (frac_digits max_frac_digits 0 1) with "".
  cbn [truthy_string]. apply append_nil_r.
Qed.

Lemma padStart_two_digits (k : Z) :
  0 <= k < 60 -> padStart 2 "0" (N_toString (Z.to_N k)) = two_digits k.
Proof.
  intros Hk.
  assert (exists n : nat, (n < 60)%nat /\ k = Z.of_nat n) as (n & Hn & ->).
  { exists (Z.to_nat k). lia. }
  do 60 (destruct n as [|n]; [vm_compute; reflexivity|]). lia.
Qed.

End FloorFacts.

(** C5. For every non-negative (finite) number of seconds, [formatTime]
    returns the hours as a plain decimal numeral, then the minutes and the
    seconds as exactly two digits each; the three fields are the
    base-60 decomposition of the floor of the argument, so nothing is
    rounded up.  In particular [formatTime(3661) = "1:01:01"] and
    [formatTime(59) = "0:00:59"]. *)
Theorem C5_formatTime_floor_padded :
  (forall q : Q, (0 <= q)%Q ->
     let n := Qfloor q in
     let hh := n / 3600 in
     let mm := (n / 60) mod 60 in
     let ss := n mod 60 in
     formatTime (Fin q)
       = N_toString (Z.to_N hh) +:+ ":" +:+ two_digits mm +:+ ":" +:+ two_digits ss
     /\ 3600 * hh + 60 * mm + ss = n
     /\ 0 <= hh /\ 0 <= mm < 60 /\ 0 <= ss < 60
     /\ (inject_Z n <= q < inject_Z (n + 1))%Q)
  /\ formatTime (Fin 3661) = "1:01:01"
  /\ formatTime (Fin 59) = "0:00:59".
Proof.
  split; [| split; vm_compute; reflexivity].
  intros q Hq n hh mm ss.
  assert (Hn : 0 <= n).
  { unfold n. change 0 with (Qfloor 0). now apply Qfloor_resp_le. }
  assert (Hmm : mm = (n - 3600 * hh) / 60).
  { unfold mm, hh. rewrite <- Z.mod_eq by lia.
    replace 3600 with (60 * 60) by lia. rewrite Z.rem_mul_r by lia.
    rewrite Z.mul_comm, Z.div_add by lia.
    rewrite (Z.div_small (n mod 60)) by (apply Z.mod_pos_bound; lia). lia. }
  assert (Hss : ss = n - 60 * (n / 60)).
  { unfold ss. rewrite Z.mod_eq; lia. }
  assert (Bh : 0 <= hh) by (unfold hh; apply Z.div_pos; lia).
  assert (Bm : 0 <= mm < 60) by (unfold mm; apply Z.mod_pos_bound; lia).
  assert (Bs : 0 <= ss < 60) by (unfold ss; apply Z.mod_pos_bound; lia).
  split; [| split; [| split; [| split; [| split; [| split]]]]];
    try assumption.
  - unfold formatTime, num_div, num_rem, Math_floor.
    change (Qzero 3600) with false. change (Qzero 60) with false. cbv iota.
    change (3600%Q) with (inject_Z (Zpos 3600)).
    change (60%Q) with (inject_Z (Zpos 60)).
    rewrite !Qtrunc_nonneg by (now apply Qdiv_pos_nonneg).
    rewrite !Qfloor_div_pos, !Qfloor_sub_multiple.
    fold n. fold hh. rewrite <- Hmm, <- Hss.
    rewrite !Number_toString_nat by lia.
    rewrite !padStart_two_digits by assumption. reflexivity.
  - pose proof (Z.div_mod n 60). pose proof (Z.div_mod (n / 60) 60).
    unfold hh, mm, ss. replace 3600 with (60 * 60) by lia.
    rewrite <- Z.div_div by lia. lia.
  - apply Qfloor_le.
  - apply Qlt_floor.
Qed.

(** The theorem at 7384.75 seconds: two hours, three minutes, four
    seconds, the fraction dropped. *)
Lemma C5_formatTime_witness :
  formatTime (Fin 7384.75) = "2:03:04".
Proof.
  destruct C5_formatTime_floor_padded as [Hgen _].
  destruct (Hgen 7384.75%Q) as [-> _].
  - unfold Qle; simpl; lia.
  - vm_compute. reflexivity.
Defined.

(* ================================================================== *)
(** * Stamp activation *)
(* ================================================================== *)

(** C9. With a seek collaborator, activating a Time stamp seeks to the
    stamp's value and activating a Frame stamp seeks to its value divided
    by 30; the player's frame accessor is the floor of thirty times the
    current time; without a seek collaborator the only effect is an
    error notice. *)
Theorem C9_activation_seeks_at_30_fps :
  forall (stamp : Stamp) (v : Q) (s : State),
    stamp_value stamp = Fin v ->
    (stamp_type stamp = "time" ->
     handleStampClick true stamp s
       = emit (toast_success ("Jumped to " +:+ formatTime (Fin v)))
              (emit (seek (Fin v)) s))
    /\ (stamp_type stamp = "frame" ->
        handleStampClick true stamp s
          = emit (toast_success ("Jumped to frame " +:+ Number_toString (Fin v)))
                 (emit (seek (Fin (v / 30))) s))
    /\ handleStampClick false stamp s
         = emit (toast_error "Cannot navigate to timestamp") s
    /\ (forall t : Q,
          getCurrentVideoFrame (Fin t) = Fin (inject_Z (Qfloor (t * 30)))).
Proof.
  intros stamp v s Hv. unfold handleStampClick. rewrite Hv.
  repeat split.
  - intros ->. reflexivity.
  - intros ->. reflexivity.
Qed.

Lemma C9_activation_witness :
  log (handleStampClick true (mkStamp "frame-1" "frame" (Fin 90) "Frame") sample_state)
    = [toast_success "Jumped to frame 90"; seek (Fin (90 / 30))].
Proof.
  destruct (C9_activation_seeks_at_30_fps
              (mkStamp "frame-1" "frame" (Fin 90) "Frame") 90 sample_state
              eq_refl) as (_ & Hframe & _).
  rewrite (Hframe eq_refl). reflexivity.
Defined.

(* ================================================================== *)
(** * Operations without an active video *)
(* ================================================================== *)

(** C8. With no active video, save, export and clear change nothing of
    the storage, the document or the dirty flag.  Save and export then
    show an error notice; clear returns without showing any.  The page
    itself never gets there: in that state the Save, Export and Delete
    buttons are all disabled. *)
Theorem C8_no_video_no_mutation_clear_is_silent :
  forall (s : State) (confirmed : bool),
    truthy (videoFilename s) = false ->
    saveNotes s = emit (toast_error "No video loaded") s
    /\ exportNotes s = emit (toast_error "No notes to export") s
    /\ clearNotes confirmed s = s
    /\ save_disabled s = true
    /\ export_disabled s = true
    /\ delete_disabled s = true.
Proof.
  intros s confirmed H.
  unfold saveNotes, exportNotes, clearNotes, save_disabled, export_disabled,
    delete_disabled.
  rewrite H. cbn [negb orb].
  destruct (videoFilename s) as [f|]; simpl in H.
  - rewrite H. destruct (editorRef s); auto 10.
  - auto 10.
Qed.

Lemma C8_no_video_witness :
  log (saveNotes idle_state) = [toast_error "No video loaded"]
  /\ log (exportNotes idle_state) = [toast_error "No notes to export"]
  /\ log (clearNotes true idle_state) = []
  /\ delete_disabled idle_state = true.
Proof.
  destruct (C8_no_video_no_mutation_clear_is_silent idle_state true eq_refl)
    as (-> & -> & -> & _ & _ & ->).
  repeat split.
Defined.

(** C8 as the specification has it fails for clear: called with no
    active video, whatever the answer to the confirmation would be, it
    shows no notice at all, where save shows one. *)
Lemma C8_clear_without_video_shows_no_notice :
  truthy (videoFilename idle_state) = false
  /\ log (clearNotes true idle_state) = log idle_state
  /\ log (clearNotes false idle_state) = log idle_state
  /\ log (saveNotes idle_state) = toast_error "No video loaded" :: log idle_state
  /\ log (exportNotes idle_state)
     = toast_error "No notes to export" :: log idle_state.
Proof. repeat split. Qed.

(* ================================================================== *)
(** * Inserting a stamp without a usable selection *)
(* ================================================================== *)

Section Frames.

Variable s : State.

Lemma clear_pending_autosave_editorRef :
  editorRef (clear_pending_autosave s) = editorRef s.
Proof.
  unfold clear_pending_autosave, clearTimeout.
  destruct (autoSaveTimeoutRef s) as [id|]; [destruct (id =? 0)%nat|]; reflexivity.
Qed.

Lemma clear_pending_autosave_localStorage :
  localStorage (clear_pending_autosave s) = localStorage s.
Proof.
  unfold clear_pending_autosave, clearTimeout.
  destruct (autoSaveTimeoutRef s) as [id|]; [destruct (id =? 0)%nat|]; reflexivity.
Qed.

Lemma clear_pending_autosave_hasChanges :
  hasChanges (clear_pending_autosave s) = hasChanges s.
Proof.
  unfold clear_pending_autosave, clearTimeout.
  destruct (autoSaveTimeoutRef s) as [id|]; [destruct (id =? 0)%nat|]; reflexivity.
Qed.

Lemma clear_pending_autosave_log :
  log (clear_pending_autosave s) = log s.
Proof.
  unfold clear_pending_autosave, clearTimeout.
  destruct (autoSaveTimeoutRef s) as [id|]; [destruct (id =? 0)%nat|]; reflexivity.
Qed.

Lemma clear_pending_autosave_videoFilename :
  videoFilename (clear_pending_autosave s) = videoFilename s.
Proof.
  unfold clear_pending_autosave, clearTimeout.
  destruct (autoSaveTimeoutRef s) as [id|]; [destruct (id =? 0)%nat|]; reflexivity.
Qed.

Lemma clear_pending_autosave_nextTimerId :
  nextTimerId (clear_pending_autosave s) = nextTimerId s.
Proof.
  unfold clear_pending_autosave, clearTimeout.
  destruct (autoSaveTimeoutRef s) as [id|]; [destruct (id =? 0)%nat|]; reflexivity.
Qed.

Lemma reschedule_autosave_editorRef (delay now : Z) (f : option string) :
  editorRef (reschedule_autosave delay now f s) = editorRef s.
Proof.
  unfold reschedule_autosave, setTimeout. cbn.
  apply clear_pending_autosave_editorRef.
Qed.

End Frames.

Lemma formatTime_inline (time : number) :
  Number_toString (Math_floor (time / Fin 3600)%js) +:+ ":"
    +:+ padStart 2 "0" (Number_toString (Math_floor ((time mod Fin 3600) / Fin 60)%js))
    +:+ ":" +:+ padStart 2 "0" (Number_toString (Math_floor (time mod Fin 60)%js))
  = formatTime time.
Proof. reflexivity. Qed.

(** C7. With an active video, a mounted editor and a time accessor:
    when [window.getSelection()] is null, or its first range lies outside
    the editor, the stamp button is appended at the end of the document;
    when the selection exists but holds no range, [getRangeAt(0)] throws
    and nothing is inserted, scheduled or flagged. *)
Theorem C7_insert_without_range_throws :
  forall (s : State) (time : number) (f : string) (editor : list node) (now : Z),
    getCurrentTime s = Some time ->
    videoFilename s = Some f ->
    truthy_string f = true ->
    editorRef s = Some editor ->
    let btn := stampButton (seekToTime s) (time_stamp time now) (formatTime time) in
    insertTimestamp (Some []) now s = Throws "IndexSizeError" s
    /\ editorRef (state_of (insertTimestamp None now s)) = Some (editor ++ [btn])
    /\ (forall r rest, editor_contains_range r = false ->
          editorRef (state_of (insertTimestamp (Some (r :: rest)) now s))
            = Some (editor ++ [btn])).
Proof.
  intros s time f editor now Ht Hf Hfs He btn.
  unfold insertTimestamp. rewrite Ht, Hf, He, Hfs.
  rewrite formatTime_inline. fold (time_stamp time now).
  unfold insertStampButton. rewrite He.
  split; [reflexivity | split].
  - cbn [getRangeAt0 and_then state_of]. cbn [editorRef emit].
    now rewrite reschedule_autosave_editorRef.
  - intros r rest Hr. cbn [getRangeAt0 and_then state_of]. rewrite Hr.
    cbn [editorRef emit]. now rewrite reschedule_autosave_editorRef.
Qed.

Lemma C7_insert_without_range_witness :
  insertTimestamp (Some []) 1700000000000 sample_state
    = Throws "IndexSizeError" sample_state.
Proof.
  apply (C7_insert_without_range_throws sample_state (Fin 12.5) "clip.mp4"
           [TextNode "intro "] 1700000000000 eq_refl eq_refl eq_refl eq_refl).
Defined.

(* ================================================================== *)
(** * Markup, clones and reattached listeners *)
(* ================================================================== *)

Lemma map_ext_Forall {A B} (f g : A -> B) (l : list A) :
  Forall (fun x => f x = g x) l -> map f l = map g l.
Proof. induction 1 as [|x l Hx _ IH]; simpl; [reflexivity | now rewrite Hx, IH]. Qed.

(** Listeners are not part of the markup. *)
Lemma serialize_cloneNode (n : node) : serialize (cloneNode n) = serialize n.
Proof.
  induction n as [s | tag attrs ls cs IH] using node_rect'; simpl; [reflexivity|].
  rewrite map_map. now rewrite (map_ext_Forall _ _ _ IH).
Qed.

Lemma serialize_reattach (k : bool) (n : node) :
  serialize (reattach k n) = serialize n.
Proof.
  induction n as [s | tag attrs ls cs IH] using node_rect'; [reflexivity|].
  cbn [reattach]. destruct (is_stamp_button _); cbn [serialize]; rewrite map_map.
  - f_equal. f_equal. apply map_ext. intros c. apply serialize_cloneNode.
  - now rewrite (map_ext_Forall _ _ _ IH).
Qed.

Lemma innerHTML_reattach (k : bool) (cs : list node) :
  innerHTML (map (reattach k) cs) = innerHTML cs.
Proof.
  unfold innerHTML. rewrite map_map. f_equal.
  apply map_ext. intros c. apply serialize_reattach.
Qed.

(* ================================================================== *)
(** * The double-backspace machine *)
(* ================================================================== *)

Section Paths.

Lemma split_last_snoc (q : path) (i : nat) : split_last (q ++ [i]) = Some (q, i).
Proof.
  induction q as [|j q IH]; [reflexivity|].
  change ((j :: q) ++ [i]) with (j :: (q ++ [i])).
  cbn [split_last]. rewrite IH. destruct (q ++ [i]) eqn:E; [|reflexivity].
  destruct q; discriminate.
Qed.

Lemma split_last_None (p : path) : split_last p = None -> p = [].
Proof.
  destruct p as [|i p] using rev_ind; [reflexivity|].
  now rewrite split_last_snoc.
Qed.

Lemma split_last_Some (p q : path) (i : nat) :
  split_last p = Some (q, i) -> p = q ++ [i].
Proof.
  revert q i. induction p as [|j p IH]; intros q i; [discriminate|].
  cbn [split_last]. destruct p as [|k p'].
  - intros [= <- <-]. reflexivity.
  - destruct (split_last (k :: p')) as [[q' i']|] eqn:E; [|discriminate].
    intros [= <- <-]. now rewrite (IH _ _ eq_refl).
Qed.

Lemma node_at_snoc (cs : list node) (q : path) (i : nat) (n : node) :
  node_at cs q = Some n -> node_at cs (q ++ [i]) = children_of n !! i.
Proof.
  revert cs. induction q as [|j q IH]; intros cs; [discriminate|].
  change ((j :: q) ++ [i]) with (j :: (q ++ [i])).
  cbn [node_at]. destruct q as [|k q'].
  - intros ->. reflexivity.
  - destruct (cs !! j) as [c|]; [|discriminate].
    intros H. rewrite <- (IH _ H).
    destruct ((k :: q') ++ [i]) eqn:E; [discriminate | reflexivity].
Qed.

Lemma remove_node_snoc (q : path) (i : nat) (cs : list node) :
  remove_node (q ++ [i]) cs = update_children q (delete i) cs.
Proof. unfold remove_node. now rewrite split_last_snoc. Qed.

End Paths.

(** The node that a key press next to a stamp inside the editor removes
    is a stamp-tagged node, and removing it deletes exactly that entry
    from its parent's child list. *)
Lemma adjacent_stamp_in_editor (editor : list node) (p : path) (o : nat)
      (r : Range) (v : Victim) :
  startContainer r = InEditor p -> startOffset r = o ->
  adjacent_stamp editor r = Some v ->
  exists (q : path) (i : nat) (n : node),
    node_at editor (q ++ [i]) = Some n
    /\ has_stampId n = true
    /\ remove_victim v editor = update_children q (delete i) editor.
Proof.
  intros Hc Ho. unfold adjacent_stamp. rewrite Hc, Ho. cbn [resolve].
  destruct (split_last p) as [[q i]|] eqn:Hp.
  - pose proof (split_last_Some _ _ _ Hp) as ->.
    destruct (node_at editor (q ++ [i])) as [[data | tag attrs ls cs]|] eqn:Hn;
      [| |discriminate].
    + destruct (o =? String.length data)%nat; [|discriminate].
      destruct (node_at editor (q ++ [S i])) as [sib|] eqn:Hs; [|discriminate].
      destruct (has_stampId sib) eqn:Hid; [|discriminate].
      intros [= <-]. exists q, (S i), sib. repeat split; try assumption.
      cbn [remove_victim]. rewrite split_last_snoc. apply remove_node_snoc.
    + destruct (0 <? o)%nat; [|discriminate].
      destruct (cs !! (o - 1)%nat) as [prev|] eqn:Hprev; [|discriminate].
      destruct (has_stampId prev) eqn:Hid; [|discriminate].
      intros [= <-]. exists (q ++ [i]), (o - 1)%nat, prev. repeat split.
      * rewrite (node_at_snoc _ _ _ _ Hn). exact Hprev.
      * assumption.
      * cbn [remove_victim]. apply remove_node_snoc.
  - pose proof (split_last_None _ Hp) as ->.
    destruct (0 <? o)%nat; [|discriminate].
    destruct (editor !! (o - 1)%nat) as [prev|] eqn:Hprev; [|discriminate].
    destruct (has_stampId prev) eqn:Hid; [|discriminate].
    intros [= <-]. exists [], (o - 1)%nat, prev. repeat split; try assumption.
Qed.




(* ================================================================== *)
(** * Time passing with no timer pending *)
(* ================================================================== *)

Lemma advance_no_timers (now : Z) (s : State) : timers s = [] -> advance now s = s.
Proof. unfold advance. now intros ->. Qed.


(* ================================================================== *)
(** * A pending autosave and a change of video *)
(* ================================================================== *)

Lemma clear_pending_autosave_no_timers (s : State) :
  timers s = [] -> timers (clear_pending_autosave s) = [].
Proof.
  unfold clear_pending_autosave, clearTimeout. intros H.
  destruct (autoSaveTimeoutRef s) as [id|]; [destruct (id =? 0)%nat|];
    cbn; now rewrite ?H.
Qed.

(** C1. The autosave that [handleInput] schedules holds the file name of
    the render that scheduled it, but not the document: when the video
    changes from [A] to [B] before it fires, it is not cancelled, and
    when it fires it stores the document loaded for [B] under the key
    of [A]. *)
Theorem C1_stale_autosave_stores_new_document_under_old_key :
  forall (s : State) (A B : string) (editor : list node)
         (saved : list markup) (t0 t1 later : Z),
    videoFilename s = Some A -> truthy_string A = true ->
    truthy_string B = true ->
    editorRef s = Some editor ->
    timers s = [] ->
    localStorage s !! storage_key B = Some saved ->
    truthy_markup saved = true ->
    t0 <= t1 < t0 + 1000 ->
    t0 + 1000 <= later ->
    let s1 := dispatch t0 (Input editor) s in
    let s2 := dispatch t1 (Activate (Some B)) (advance t1 s1) in
    timers s1 = [mkTimer (nextTimerId s) (t0 + 1000) (AutoSaveCb (Some A))]
    /\ In (mkTimer (nextTimerId s) (t0 + 1000) (AutoSaveCb (Some A))) (timers s2)
    /\ editorRef s2 = Some (set_innerHTML saved)
    /\ localStorage (advance later s2) !! storage_key A
       = Some (innerHTML (set_innerHTML saved)).
Proof.
  intros s A B editor saved t0 t1 later HA HtA HtB He Hts Hsaved Htm Ht Hl.
  destruct s as [vf gt gf sk hc lb er ar ls ts nt lg].
  cbn in HA, He, Hts, Hsaved. subst vf er ts.
  cbv zeta. cbn [dispatch editorRef].
  set (s0 := set_editorRef _ _).
  assert (H1 : handleInput t0 s0
               = mkState (Some A) gt gf sk true lb (Some editor) (Some nt) ls
                         [mkTimer nt (t0 + 1000) (AutoSaveCb (Some A))] (S nt) lg).
  { unfold handleInput, reschedule_autosave, setTimeout, clear_pending_autosave,
      clearTimeout, s0. cbn.
    destruct ar as [id|]; [destruct (id =? 0)%nat|]; reflexivity. }
  rewrite H1. clear H1 s0. cbn [nextTimerId].
  split; [reflexivity|].
  assert (H2 : advance t1 (mkState (Some A) gt gf sk true lb (Some editor) (Some nt) ls
                         [mkTimer nt (t0 + 1000) (AutoSaveCb (Some A))] (S nt) lg)
               = mkState (Some A) gt gf sk true lb (Some editor) (Some nt) ls
                         [mkTimer nt (t0 + 1000) (AutoSaveCb (Some A))] (S nt) lg).
  { unfold advance. cbn. destruct (t0 + 1000 <=? t1) eqn:E; [lia | reflexivity]. }
  rewrite H2. clear H2.
  set (T1 := mkTimer nt (t0 + 1000) (AutoSaveCb (Some A))).
  set (T2 := mkTimer (S nt) (t1 + 0) (ReattachCb sk)).
  assert (H3 : activate (Some B) t1
                 (mkState (Some A) gt gf sk true lb (Some editor) (Some nt) ls
                          [T1] (S nt) lg)
               = mkState (Some B) gt gf sk false lb (Some (set_innerHTML saved))
                         (Some nt) ls [T1; T2] (S (S nt)) lg).
  { unfold activate, loadNotes. cbn. rewrite HtB. cbn. rewrite HtB, Hsaved, Htm.
    reflexivity. }
  rewrite H3. clear H3. cbn [timers editorRef].
  split; [now left | split; [reflexivity|]].
  unfold advance. cbn [timers length advance_steps earliest].
  cbn [timer_due T1 T2].
  destruct (t1 + 0 <? t0 + 1000) eqn:E1; [|lia].
  destruct (t1 + 0 <=? later) eqn:E2; [|lia].
  assert (H4 : fire T2 (mkState (Some B) gt gf sk false lb (Some (set_innerHTML saved))
                         (Some nt) ls [T1; T2] (S (S nt)) lg)
               = mkState (Some B) gt gf sk false lb
                         (Some (map (reattach sk) (set_innerHTML saved)))
                         (Some nt) ls [T1] (S (S nt)) lg).
  { unfold fire. cbn.
    rewrite (decide_True (P := nt <> S nt)) by lia.
    rewrite (decide_False (P := S nt <> S nt)) by lia. reflexivity. }
  rewrite H4. clear H4. cbn [timers earliest timer_due T1].
  destruct (t0 + 1000 <=? later) eqn:E3; [|lia].
  unfold fire. cbn. rewrite HtA, ?E1, ?E2, ?E3. cbn.
  rewrite lookup_insert_eq. f_equal. apply innerHTML_reattach.
Qed.

Lemma C1_stale_autosave_witness :
  localStorage
    (advance 2000
       (dispatch 600 (Activate (Some "b.mp4"))
          (advance 600 (dispatch 100 (Input [TextNode "notes for A"]) editing_A))))
    !! storage_key "a.mp4"
  = Some [MText "notes for B"].
Proof.
  destruct (C1_stale_autosave_stores_new_document_under_old_key
              (set_editorRef (Some [TextNode "notes for A"]) editing_A)
              "a.mp4" "b.mp4" [TextNode "notes for A"] [MText "notes for B"]
              100 600 2000 eq_refl eq_refl eq_refl eq_refl eq_refl eq_refl eq_refl
              ltac:(lia) ltac:(lia)) as (_ & _ & _ & H).
  exact H.
Defined.

(* ================================================================== *)
(** * Timers: at most one autosave is pending *)
(* ================================================================== *)

Section TimerFacts.

Lemma Forall_of_sublist {A} (P : A -> Prop) (l k : list A) :
  sublist l k -> Forall P k -> Forall P l.
Proof.
  induction 1 as [| x l k _ IH | x l k _ IH]; intros H.
  - constructor.
  - apply Forall_cons in H as [Hx Hk]. constructor; auto.
  - apply Forall_cons in H as [_ Hk]. auto.
Qed.

Lemma sublist_map {A B} (f : A -> B) (l k : list A) :
  sublist l k -> sublist (map f l) (map f k).
Proof. induction 1; simpl; now constructor. Qed.

Lemma sublist_List_filter {A} (p : A -> bool) (l : list A) :
  sublist (List.filter p l) l.
Proof.
  induction l as [|x l IH]; simpl; [constructor|].
  destruct (p x); now constructor.
Qed.

Lemma TimerInv_sublist (s s' : State) :
  sublist (timers s') (timers s) ->
  nextTimerId s' = nextTimerId s ->
  autoSaveTimeoutRef s' = autoSaveTimeoutRef s ->
  TimerInv s -> TimerInv s'.
Proof.
  intros Hsub Hn Hr [H1 H2 H3 H4]. split.
  - now rewrite Hn.
  - rewrite Hn. eapply Forall_of_sublist; eassumption.
  - eapply sublist_NoDup; [exact H3 | now apply sublist_map].
  - rewrite Hr. eapply Forall_of_sublist; eassumption.
Qed.

Lemma TimerInv_frame (s s' : State) :
  timers s' = timers s ->
  nextTimerId s' = nextTimerId s ->
  autoSaveTimeoutRef s' = autoSaveTimeoutRef s ->
  TimerInv s -> TimerInv s'.
Proof. intros Ht. apply TimerInv_sublist. now rewrite Ht. Qed.

(** All pending autosaves bear the id in the reference, and ids are
    distinct: there is at most one. *)
Lemma TimerInv_at_most_one (s : State) :
  TimerInv s -> (length (pending_autosaves s) <= 1)%nat.
Proof.
  intros [_ _ Hnd Href]. unfold pending_autosaves.
  destruct (List.filter is_autosave (timers s)) as [|a [|b rest]] eqn:E;
    [simpl; lia | simpl; lia | exfalso].
  assert (Ha : In a (List.filter is_autosave (timers s))) by (rewrite E; now left).
  assert (Hb : In b (List.filter is_autosave (timers s)))
    by (rewrite E; right; now left).
  apply filter_In in Ha as [Ha1 Ha2]. apply filter_In in Hb as [Hb1 Hb2].
  rewrite Forall_forall in Href.
  pose proof (Href a (proj2 (list_elem_of_In _ _) Ha1) Ha2) as Ra.
  pose proof (Href b (proj2 (list_elem_of_In _ _) Hb1) Hb2) as Rb.
  assert (Hid : timer_id a = timer_id b) by congruence.
  assert (Hnd' : NoDup (map timer_id (List.filter is_autosave (timers s)))).
  { eapply sublist_NoDup; [exact Hnd | apply sublist_map, sublist_List_filter]. }
  rewrite E in Hnd'. simpl in Hnd'.
  apply NoDup_cons in Hnd' as [Hnotin _]. apply Hnotin. rewrite Hid. now left.
Qed.

End TimerFacts.

Section AdvanceFacts.

Lemma same_view_refl (s : State) : same_view s s.
Proof. now split. Qed.

Lemma same_view_trans (s1 s2 s3 : State) :
  same_view s1 s2 -> same_view s2 s3 -> same_view s1 s3.
Proof.
  intros [] []. split; try congruence.
  etransitivity; eassumption.
Qed.

Lemma same_view_TimerInv (s s' : State) :
  same_view s s' -> TimerInv s -> TimerInv s'.
Proof. intros []. now apply TimerInv_sublist. Qed.

Lemma earliest_In (ts : list Timer) (t : Timer) :
  earliest ts = Some t -> In t ts.
Proof.
  revert t. induction ts as [|u ts IH]; intros t; [discriminate|].
  cbn [earliest]. destruct (earliest ts) as [w|].
  - destruct (timer_due w <? timer_due u); intros [= <-]; [right; auto | now left].
  - intros [= <-]. now left.
Qed.

Lemma earliest_None (ts : list Timer) : earliest ts = None -> ts = [].
Proof.
  destruct ts as [|u ts]; [reflexivity|]. cbn [earliest].
  destruct (earliest ts) as [w|]; [destruct (_ <? _)|]; discriminate.
Qed.

Lemma earliest_le (ts : list Timer) (t : Timer) :
  earliest ts = Some t -> Forall (fun u => timer_due t <= timer_due u) ts.
Proof.
  revert t. induction ts as [|u ts IH]; intros t; [constructor|].
  cbn [earliest]. destruct (earliest ts) as [w|] eqn:E.
  - specialize (IH w eq_refl).
    destruct (timer_due w <? timer_due u) eqn:C; intros [= <-].
    + constructor; [lia | exact IH].
    + constructor; [lia|]. eapply Forall_impl; [exact IH|].
      intros x Hx. simpl in Hx. lia.
  - intros [= <-]. rewrite (earliest_None _ E).
    apply Forall_cons_2; [lia | apply Forall_nil_2].
Qed.

Lemma run_callback_timers (cb : Callback) (s : State) :
  timers (run_callback cb s) = timers s
  /\ nextTimerId (run_callback cb s) = nextTimerId s
  /\ autoSaveTimeoutRef (run_callback cb s) = autoSaveTimeoutRef s
  /\ videoFilename (run_callback cb s) = videoFilename s
  /\ is_some (editorRef (run_callback cb s)) = is_some (editorRef s).
Proof.
  destruct cb as [[f|]|k]; cbn [run_callback].
  - unfold autoSave. destruct (editorRef s) eqn:E;
      [destruct (truthy_string f)|]; cbn; rewrite ?E; repeat split.
  - repeat split.
  - unfold reattachStampListeners. destruct (editorRef s) eqn:E;
      cbn; rewrite ?E; repeat split.
Qed.

Lemma fire_timers (t : Timer) (s : State) :
  timers (fire t s) = filter (fun u => timer_id u <> timer_id t) (timers s)
  /\ nextTimerId (fire t s) = nextTimerId s
  /\ autoSaveTimeoutRef (fire t s) = autoSaveTimeoutRef s
  /\ videoFilename (fire t s) = videoFilename s
  /\ is_some (editorRef (fire t s)) = is_some (editorRef s).
Proof.
  unfold fire.
  destruct (run_callback_timers (timer_callback t)
              (set_timers (filter (fun u => timer_id u <> timer_id t) (timers s))
                          (nextTimerId s) s)) as (-> & -> & -> & -> & ->).
  now cbn.
Qed.

Lemma fire_TimerInv (t : Timer) (s : State) : TimerInv s -> TimerInv (fire t s).
Proof.
  destruct (fire_timers t s) as (Ht & Hn & Hr & _).
  apply TimerInv_sublist; try assumption. rewrite Ht. apply sublist_filter.
Qed.

Lemma fire_length (t : Timer) (s : State) :
  In t (timers s) -> (length (timers (fire t s)) < length (timers s))%nat.
Proof.
  intros Hin. destruct (fire_timers t s) as (-> & _).
  apply (length_filter_lt _ _ t); [now apply list_elem_of_In | tauto].
Qed.

(** Every step of [advance] keeps the invariant, the active video and
    whether the editor is mounted. *)
Lemma advance_steps_TimerInv (n : nat) (now : Z) (s : State) :
  TimerInv s ->
  TimerInv (advance_steps n now s)
  /\ videoFilename (advance_steps n now s) = videoFilename s
  /\ is_some (editorRef (advance_steps n now s)) = is_some (editorRef s).
Proof.
  revert s. induction n as [|n IH]; intros s Hinv; cbn [advance_steps]; [auto|].
  destruct (earliest (timers s)) as [t|]; [|auto].
  destruct (timer_due t <=? now); [|auto].
  destruct (IH (fire t s) (fire_TimerInv t s Hinv)) as (H1 & H2 & H3).
  destruct (fire_timers t s) as (_ & _ & _ & Hv & He).
  split; [exact H1 | split; congruence].
Qed.

End AdvanceFacts.

Ltac split_ands := repeat match goal with |- _ /\ _ => split end.

Section FiringTimers.

Lemma timer_id_inj_in (ts : list Timer) (t u : Timer) :
  NoDup (map timer_id ts) -> In t ts -> In u ts ->
  timer_id t = timer_id u -> t = u.
Proof.
  induction ts as [|w ts IH]; intros Hnd Ht Hu Hid; [destruct Ht|].
  cbn [map] in Hnd. apply NoDup_cons in Hnd as [Hw Hnd].
  assert (Hmem : forall x, In x ts -> timer_id x ∈ map timer_id ts).
  { intros x Hx. apply list_elem_of_In, in_map, Hx. }
  destruct Ht as [<-|Ht], Hu as [<-|Hu]; auto.
  - exfalso. apply Hw. rewrite Hid. now apply Hmem.
  - exfalso. apply Hw. rewrite <- Hid. now apply Hmem.
Qed.

Lemma filter_id_autosaves_kept (id : nat) (ts : list Timer) :
  (forall u, In u ts -> is_autosave u = true -> timer_id u <> id) ->
  List.filter is_autosave (filter (fun u => timer_id u <> id) ts)
    = List.filter is_autosave ts.
Proof.
  induction ts as [|w ts IH]; intros H; [reflexivity|].
  rewrite filter_cons. cbn [List.filter].
  destruct (decide (timer_id w <> id)) as [Hne|Heq].
  - cbn [List.filter]. rewrite IH by (intros u Hu; apply H; now right).
    reflexivity.
  - destruct (is_autosave w) eqn:Ew.
    + exfalso. apply Heq, H; [now left | exact Ew].
    + apply IH. intros u Hu. apply H. now right.
Qed.

Lemma filter_id_autosaves_gone (id : nat) (ts : list Timer) :
  (forall u, In u ts -> is_autosave u = true -> timer_id u = id) ->
  List.filter is_autosave (filter (fun u => timer_id u <> id) ts) = [].
Proof.
  induction ts as [|w ts IH]; intros H; [reflexivity|].
  rewrite filter_cons.
  destruct (decide (timer_id w <> id)) as [Hne|Heq].
  - cbn [List.filter]. destruct (is_autosave w) eqn:Ew.
    + exfalso. apply Hne, H; [now left | exact Ew].
    + apply IH. intros u Hu. apply H. now right.
  - apply IH. intros u Hu. apply H. now right.
Qed.

Lemma pending_autosaves_In (s : State) (t : Timer) :
  In t (pending_autosaves s) <-> In t (timers s) /\ is_autosave t = true.
Proof. apply filter_In. Qed.

(** Firing a reattach timer changes listeners only. *)
Lemma fire_reattach_view (s : State) (t : Timer) (k : bool) :
  TimerInv s -> In t (timers s) -> timer_callback t = ReattachCb k ->
  same_view s (fire t s).
Proof.
  intros Hinv Hin Hcb. unfold fire. rewrite Hcb. cbn [run_callback].
  unfold reattachStampListeners. cbn [editorRef set_timers].
  assert (Hauto :
    List.filter is_autosave (filter (fun u => timer_id u <> timer_id t) (timers s))
      = List.filter is_autosave (timers s)).
  { apply filter_id_autosaves_kept. intros u Hu Hau Hid.
    assert (u = t) as -> by (eapply timer_id_inj_in; eauto using inv_nodup).
    unfold is_autosave in Hau. rewrite Hcb in Hau. discriminate. }
  destruct (editorRef s) as [ed|] eqn:He; split; cbn; rewrite ?He; cbn;
    try reflexivity; try exact Hauto; try apply sublist_filter.
  now rewrite innerHTML_reattach.
Qed.

(** While no autosave is due, letting time pass changes listeners only. *)
Lemma advance_steps_quiet (n : nat) (now : Z) (s : State) :
  TimerInv s ->
  Forall (fun t => now < timer_due t) (pending_autosaves s) ->
  same_view s (advance_steps n now s).
Proof.
  revert s. induction n as [|n IH]; intros s Hinv Hq; cbn [advance_steps];
    [apply same_view_refl|].
  destruct (earliest (timers s)) as [t|] eqn:E; [|apply same_view_refl].
  destruct (timer_due t <=? now) eqn:Hdue; [|apply same_view_refl].
  pose proof (earliest_In _ _ E) as Hin.
  destruct (timer_callback t) as [f|k] eqn:Hcb.
  - exfalso. rewrite Forall_forall in Hq.
    assert (Hp : In t (pending_autosaves s)).
    { apply pending_autosaves_In. split; [exact Hin|].
      unfold is_autosave. now rewrite Hcb. }
    apply list_elem_of_In in Hp. specialize (Hq t Hp). simpl in Hq. lia.
  - pose proof (fire_reattach_view s t k Hinv Hin Hcb) as Hv.
    eapply same_view_trans; [exact Hv|].
    apply IH; [now apply fire_TimerInv|].
    now rewrite (sv_autosaves _ _ Hv).
Qed.

Lemma advance_quiet (now : Z) (s : State) :
  TimerInv s ->
  Forall (fun t => now < timer_due t) (pending_autosaves s) ->
  same_view s (advance now s).
Proof. apply advance_steps_quiet. Qed.

(** What the one pending autosave does when it fires. *)
Lemma fire_autosave (s : State) (a : Timer) (f : string) (ed : list node) :
  TimerInv s -> pending_autosaves s = [a] ->
  timer_callback a = AutoSaveCb (Some f) -> truthy_string f = true ->
  editorRef s = Some ed ->
  log (fire a s) = setItem (storage_key f) (innerHTML ed) :: log s
  /\ localStorage (fire a s) = <[storage_key f := innerHTML ed]> (localStorage s)
  /\ hasChanges (fire a s) = false
  /\ pending_autosaves (fire a s) = []
  /\ editorRef (fire a s) = Some ed.
Proof.
  intros Hinv Hp Hcb Hf He. unfold fire. rewrite Hcb. cbn [run_callback].
  unfold autoSave. cbn [editorRef set_timers]. rewrite He, Hf.
  split; [reflexivity | split; [reflexivity | split; [reflexivity | split]]].
  - unfold pending_autosaves. cbn.
    apply filter_id_autosaves_gone. intros u Hu Hau.
    assert (Hin : In u (pending_autosaves s))
      by (apply pending_autosaves_In; auto).
    rewrite Hp in Hin. destruct Hin as [<-|[]]. reflexivity.
  - cbn. exact He.
Qed.

(** Once the one pending autosave is due, letting time pass writes the
    document once under the file name the timer holds. *)
Lemma advance_steps_due (now : Z) (a : Timer) (f : string) (m : list markup)
      (n : nat) (s : State) :
  TimerInv s -> pending_autosaves s = [a] ->
  timer_due a <= now ->
  timer_callback a = AutoSaveCb (Some f) -> truthy_string f = true ->
  option_map innerHTML (editorRef s) = Some m ->
  (length (timers s) <= n)%nat ->
  let s' := advance_steps n now s in
  log s' = setItem (storage_key f) m :: log s
  /\ localStorage s' = <[storage_key f := m]> (localStorage s)
  /\ hasChanges s' = false
  /\ pending_autosaves s' = []
  /\ option_map innerHTML (editorRef s') = Some m
  /\ videoFilename s' = videoFilename s
  /\ TimerInv s'.
Proof.
  intros Hinv Hp Hdue Hcb Hf. revert s Hinv Hp.
  induction n as [|n IH]; intros s Hinv Hp Hm Hlen.
  { exfalso. assert (Hin : In a (pending_autosaves s)) by (rewrite Hp; now left).
    apply pending_autosaves_In in Hin as [Hin _].
    destruct (timers s); [destruct Hin | simpl in Hlen; lia]. }
  assert (Ha : In a (timers s)).
  { assert (Hin : In a (pending_autosaves s)) by (rewrite Hp; now left).
    now apply pending_autosaves_In in Hin. }
  cbn [advance_steps]. cbv zeta.
  destruct (earliest (timers s)) as [t|] eqn:E;
    [| rewrite (earliest_None _ E) in Ha; destruct Ha].
  pose proof (earliest_In _ _ E) as Hin.
  pose proof (earliest_le _ _ E) as Hle. rewrite Forall_forall in Hle.
  specialize (Hle a (proj2 (list_elem_of_In _ _) Ha)). simpl in Hle.
  destruct (timer_due t <=? now) eqn:Hd; [|lia].
  destruct (timer_callback t) as [g|k] eqn:Ht.
  - assert (t = a) as ->.
    { assert (Hpt : In t (pending_autosaves s)).
      { apply pending_autosaves_In. split; [exact Hin|].
        unfold is_autosave. now rewrite Ht. }
      rewrite Hp in Hpt. now destruct Hpt as [<-|[]]. }
    destruct (editorRef s) as [ed|] eqn:He; [|discriminate].
    cbn in Hm. injection Hm as <-.
    destruct (fire_autosave s a f ed Hinv Hp Hcb Hf He) as (L & St & Hc & Pa & Ed).
    pose proof (fire_TimerInv a s Hinv) as Hinv2.
    assert (Hq : Forall (fun t => now < timer_due t) (pending_autosaves (fire a s)))
      by (rewrite Pa; constructor).
    pose proof (advance_steps_quiet n now _ Hinv2 Hq) as Hv.
    destruct (fire_timers a s) as (_ & _ & _ & Hvf & _).
    split_ands.
    + now rewrite (sv_log _ _ Hv).
    + now rewrite (sv_storage _ _ Hv).
    + now rewrite (sv_hasChanges _ _ Hv).
    + now rewrite (sv_autosaves _ _ Hv).
    + rewrite (sv_markup _ _ Hv), Ed. reflexivity.
    + now rewrite (sv_videoFilename _ _ Hv).
    + eapply same_view_TimerInv; eassumption.
  - pose proof (fire_reattach_view s t k Hinv Hin Ht) as Hv.
    destruct (IH (fire t s)) as (L & St & Hc & Pa & Ed & Vf & Inv').
    + now apply fire_TimerInv.
    + now rewrite (sv_autosaves _ _ Hv).
    + now rewrite (sv_markup _ _ Hv).
    + pose proof (fire_length t s Hin). lia.
    + split_ands; try assumption.
      * now rewrite L, (sv_log _ _ Hv).
      * now rewrite St, (sv_storage _ _ Hv).
      * now rewrite Vf, (sv_videoFilename _ _ Hv).
Qed.

End FiringTimers.

Section Scheduling.

Lemma clear_pending_autosave_timers (s : State) :
  TimerInv s ->
  sublist (timers (clear_pending_autosave s)) (timers s)
  /\ List.filter is_autosave (timers (clear_pending_autosave s)) = [].
Proof.
  intros [Hn Hids Hnd Href]. unfold clear_pending_autosave, clearTimeout.
  rewrite Forall_forall in Href, Hids.
  assert (Hnone :
             (autoSaveTimeoutRef s = None \/ autoSaveTimeoutRef s = Some 0%nat) ->
             List.filter is_autosave (timers s) = []).
  { intros Hr.
    destruct (List.filter is_autosave (timers s)) as [|a l] eqn:E; [reflexivity|].
    exfalso. assert (Ha : In a (List.filter is_autosave (timers s)))
      by (rewrite E; now left).
    apply filter_In in Ha as [Ha1 Ha2]. apply list_elem_of_In in Ha1.
    pose proof (Href a Ha1 Ha2) as R. pose proof (Hids a Ha1) as I.
    simpl in I. destruct Hr as [Hr|Hr]; rewrite Hr in R; [discriminate|].
    injection R as R. lia. }
  destruct (autoSaveTimeoutRef s) as [id|] eqn:Er.
  - destruct (id =? 0)%nat eqn:E0.
    + apply Nat.eqb_eq in E0. subst id. split; [reflexivity|].
      apply Hnone. now right.
    + cbn. split; [apply sublist_filter|].
      apply filter_id_autosaves_gone. intros u Hu Hau.
      apply list_elem_of_In in Hu. specialize (Href u Hu Hau). congruence.
  - split; [reflexivity|]. apply Hnone. now left.
Qed.

(** Rescheduling leaves exactly one autosave pending, the new one. *)
Lemma reschedule_autosave_spec (delay now : Z) (f : option string) (s : State) :
  TimerInv s ->
  let s' := reschedule_autosave delay now f s in
  TimerInv s'
  /\ pending_autosaves s' = [mkTimer (nextTimerId s) (now + delay) (AutoSaveCb f)]
  /\ videoFilename s' = videoFilename s
  /\ editorRef s' = editorRef s
  /\ hasChanges s' = hasChanges s
  /\ localStorage s' = localStorage s
  /\ log s' = log s.
Proof.
  intros Hinv. destruct (clear_pending_autosave_timers s Hinv) as [Hsub Hnone].
  destruct Hinv as [Hn Hids Hnd Href].
  unfold reschedule_autosave, setTimeout. cbv zeta. cbn -[clear_pending_autosave].
  rewrite clear_pending_autosave_nextTimerId.
  set (ts := timers (clear_pending_autosave s)) in *.
  assert (Hids' : Forall (fun t => (0 < timer_id t < nextTimerId s)%nat) ts)
    by (eapply Forall_of_sublist; eassumption).
  split_ands.
  - split; cbn -[clear_pending_autosave]; fold ts.
    + lia.
    + apply Forall_app. split.
      * eapply Forall_impl; [exact Hids'|]. intros t Ht. simpl in Ht. lia.
      * apply Forall_cons_2; [cbn; lia | apply Forall_nil_2].
    + rewrite map_app. cbn. apply NoDup_app. split_ands.
      * eapply sublist_NoDup; [exact Hnd | now apply sublist_map].
      * intros x Hx Hx'. apply list_elem_of_In in Hx.
        apply in_map_iff in Hx as (t & <- & Ht).
        rewrite Forall_forall in Hids'.
        apply list_elem_of_In in Ht. specialize (Hids' t Ht). simpl in Hids'.
        apply list_elem_of_singleton in Hx'. lia.
      * apply NoDup_singleton.
    + apply Forall_app. split.
      * apply Forall_forall. intros t Ht Hau. exfalso.
        assert (Hin : In t (List.filter is_autosave ts)).
        { apply filter_In. split; [now apply list_elem_of_In | exact Hau]. }
        rewrite Hnone in Hin. destruct Hin.
      * apply Forall_cons_2; [reflexivity | apply Forall_nil_2].
  - unfold pending_autosaves. cbn -[clear_pending_autosave]. fold ts.
    rewrite List.filter_app, Hnone. reflexivity.
  - cbn -[clear_pending_autosave]. apply clear_pending_autosave_videoFilename.
  - cbn -[clear_pending_autosave]. apply clear_pending_autosave_editorRef.
  - cbn -[clear_pending_autosave]. apply clear_pending_autosave_hasChanges.
  - cbn -[clear_pending_autosave]. apply clear_pending_autosave_localStorage.
  - cbn -[clear_pending_autosave]. apply clear_pending_autosave_log.
Qed.

(** Arming a reattach timer keeps the invariant and the autosaves. *)
Lemma setTimeout_reattach_TimerInv (k : bool) (now : Z) (s : State) :
  TimerInv s ->
  TimerInv (snd (setTimeout (ReattachCb k) 0 now s))
  /\ pending_autosaves (snd (setTimeout (ReattachCb k) 0 now s))
     = pending_autosaves s.
Proof.
  intros [Hn Hids Hnd Href]. unfold setTimeout. cbn. split.
  - split; cbn.
    + lia.
    + apply Forall_app. split.
      * eapply Forall_impl; [exact Hids|]. intros t Ht. simpl in Ht. lia.
      * apply Forall_cons_2; [cbn; lia | apply Forall_nil_2].
    + rewrite map_app. cbn. apply NoDup_app. split_ands.
      * exact Hnd.
      * intros x Hx Hx'. apply list_elem_of_In in Hx.
        apply in_map_iff in Hx as (t & <- & Ht).
        rewrite Forall_forall in Hids.
        apply list_elem_of_In in Ht. specialize (Hids t Ht). simpl in Hids.
        apply list_elem_of_singleton in Hx'. lia.
      * apply NoDup_singleton.
    + apply Forall_app. split; [exact Href|].
      apply Forall_cons_2; [discriminate | apply Forall_nil_2].
  - unfold pending_autosaves. cbn. rewrite List.filter_app. cbn.
    apply app_nil_r.
Qed.

End Scheduling.

Section Preservation.

Ltac frame_cases :=
  repeat match goal with
         | |- context [match ?x with _ => _ end] => destruct x eqn:?
         end;
  cbn; split_ands; reflexivity.

Lemma handleKeyDown_frame key selection now s :
  timers (handleKeyDown key selection now s) = timers s
  /\ nextTimerId (handleKeyDown key selection now s) = nextTimerId s
  /\ autoSaveTimeoutRef (handleKeyDown key selection now s) = autoSaveTimeoutRef s.
Proof. unfold handleKeyDown. frame_cases. Qed.

Lemma handleStampClick_frame k stamp s :
  timers (handleStampClick k stamp s) = timers s
  /\ nextTimerId (handleStampClick k stamp s) = nextTimerId s
  /\ autoSaveTimeoutRef (handleStampClick k stamp s) = autoSaveTimeoutRef s.
Proof. unfold handleStampClick. frame_cases. Qed.

Lemma listeners_frame (ls : list ClickListener) (s : State) :
  let s' := fold_left (fun s l => run_listener l s) ls s in
  timers s' = timers s /\ nextTimerId s' = nextTimerId s
  /\ autoSaveTimeoutRef s' = autoSaveTimeoutRef s.
Proof.
  revert s. induction ls as [|l ls IH]; intros s; cbn [fold_left]; [auto|].
  destruct (IH (run_listener l s)) as (-> & -> & ->).
  unfold run_listener.
  destruct (handleStampClick_frame (bound_seekToTime l) (bound_stamp l)
              (emit preventDefault s)) as (-> & -> & ->).
  auto.
Qed.

Lemma saveNotes_frame s :
  timers (saveNotes s) = timers s /\ nextTimerId (saveNotes s) = nextTimerId s
  /\ autoSaveTimeoutRef (saveNotes s) = autoSaveTimeoutRef s.
Proof. unfold saveNotes. frame_cases. Qed.

Lemma clearNotes_frame c s :
  timers (clearNotes c s) = timers s /\ nextTimerId (clearNotes c s) = nextTimerId s
  /\ autoSaveTimeoutRef (clearNotes c s) = autoSaveTimeoutRef s.
Proof. unfold clearNotes. frame_cases. Qed.

Lemma exportNotes_frame s :
  timers (exportNotes s) = timers s /\ nextTimerId (exportNotes s) = nextTimerId s
  /\ autoSaveTimeoutRef (exportNotes s) = autoSaveTimeoutRef s.
Proof. unfold exportNotes. frame_cases. Qed.

Lemma loadNotes_TimerInv now s :
  TimerInv s ->
  TimerInv (loadNotes now s)
  /\ pending_autosaves (loadNotes now s) = pending_autosaves s.
Proof.
  intros Hinv. unfold loadNotes.
  destruct (videoFilename s) as [f|]; [|auto].
  destruct (editorRef s) as [ed|]; [|auto].
  destruct (truthy_string f); [|auto].
  destruct (localStorage s !! storage_key f) as [saved|];
    [destruct (truthy_markup saved)|].
  - destruct (setTimeout_reattach_TimerInv (seekToTime s) now
                (set_editorRef (Some (set_innerHTML saved)) s)) as [H1 H2].
    { revert Hinv. now apply TimerInv_frame. }
    split; [revert H1; now apply TimerInv_frame | exact H2].
  - split; [revert Hinv; now apply TimerInv_frame | reflexivity].
  - split; [revert Hinv; now apply TimerInv_frame | reflexivity].
Qed.

Lemma activate_TimerInv f now s : TimerInv s -> TimerInv (activate f now s).
Proof.
  intros Hinv. unfold activate. apply loadNotes_TimerInv.
  revert Hinv. apply TimerInv_frame;
    destruct (truthy f); cbn; try destruct (editorRef s); reflexivity.
Qed.

Lemma insertStampButton_TimerInv stamp text selection now s :
  TimerInv s ->
  TimerInv (state_of (insertStampButton stamp text selection now s)).
Proof.
  intros Hinv. unfold insertStampButton.
  destruct (editorRef s) as [ed|]; [|exact Hinv].
  destruct (getRangeAt0 selection) as [e|range]; [exact Hinv|].
  cbn [state_of]. apply reschedule_autosave_spec.
  revert Hinv. apply TimerInv_frame; frame_cases.
Qed.

Lemma and_then_emit_TimerInv (o : Outcome) (e : Effect) :
  TimerInv (state_of o) -> TimerInv (uncaught_of (and_then o (emit e))).
Proof. destruct o as [s|x s]; cbn; now apply TimerInv_frame. Qed.

Lemma dispatch_TimerInv now ev s : TimerInv s -> TimerInv (dispatch now ev s).
Proof.
  intros Hinv. destruct ev; cbn [dispatch].
  - destruct (editorRef s); [|exact Hinv]. unfold handleInput.
    apply reschedule_autosave_spec. revert Hinv. now apply TimerInv_frame.
  - destruct (handleKeyDown_frame key selection now s) as (? & ? & ?).
    revert Hinv. now apply TimerInv_frame.
  - unfold insertTimestamp.
    destruct (getCurrentTime s), (videoFilename s) as [f|], (editorRef s) eqn:He;
      try (cbn; revert Hinv; now apply TimerInv_frame).
    destruct (truthy_string f); [|cbn; revert Hinv; now apply TimerInv_frame].
    apply and_then_emit_TimerInv. now apply insertStampButton_TimerInv.
  - unfold insertFrameStamp.
    destruct (getCurrentFrame s), (videoFilename s) as [f|], (editorRef s) eqn:He;
      try (cbn; revert Hinv; now apply TimerInv_frame).
    destruct (truthy_string f); [|cbn; revert Hinv; now apply TimerInv_frame].
    apply and_then_emit_TimerInv. now apply insertStampButton_TimerInv.
  - destruct (saveNotes_frame s) as (? & ? & ?).
    revert Hinv. now apply TimerInv_frame.
  - destruct (clearNotes_frame confirmed s) as (? & ? & ?).
    revert Hinv. now apply TimerInv_frame.
  - destruct (exportNotes_frame s) as (? & ? & ?).
    revert Hinv. now apply TimerInv_frame.
  - destruct (editorRef s) as [ed|]; [|exact Hinv].
    destruct (node_at ed p) as [[d|tag attrs ls cs]|]; try exact Hinv.
    destruct (listeners_frame ls s) as (? & ? & ?).
    revert Hinv. now apply TimerInv_frame.
  - now apply activate_TimerInv.
  - revert Hinv. now apply TimerInv_frame.
Qed.

Lemma advance_TimerInv now s : TimerInv s -> TimerInv (advance now s).
Proof. intros H. now apply advance_steps_TimerInv. Qed.

Lemma run_TimerInv evs s : TimerInv s -> TimerInv (run evs s).
Proof.
  revert s. induction evs as [|[now ev] evs IH]; intros s Hinv; cbn [run]; [auto|].
  apply IH, dispatch_TimerInv, advance_TimerInv, Hinv.
Qed.

Lemma mount_TimerInv f time frame k storage now :
  TimerInv (mount f time frame k storage now).
Proof.
  unfold mount. apply loadNotes_TimerInv. split; cbn.
  - lia.
  - apply Forall_nil_2.
  - apply NoDup_nil_2.
  - apply Forall_nil_2.
Qed.

End Preservation.

(* ================================================================== *)
(** * The autosave debounce *)
(* ================================================================== *)

Section Debounce.

Variable f : string.

Lemma input_step (t : Z) (c : list node) (s : State) :
  TimerInv s -> videoFilename s = Some f -> is_some (editorRef s) = true ->
  let s' := dispatch t (Input c) s in
  TimerInv s' /\ videoFilename s' = Some f
  /\ editorRef s' = Some c
  /\ pending_autosaves s' = [mkTimer (nextTimerId s) (t + 1000) (AutoSaveCb (Some f))]
  /\ log s' = log s /\ localStorage s' = localStorage s.
Proof using Type.
  intros Hinv Hv He. cbn [dispatch].
  destruct (editorRef s) as [ed|] eqn:E; [|discriminate].
  unfold handleInput. cbn [videoFilename set_editorRef].
  destruct (reschedule_autosave_spec 1000 t (videoFilename s)
              (setHasChanges true (set_editorRef (Some c) s)))
    as (H1 & H2 & H3 & H4 & H5 & H6 & H7).
  { revert Hinv. now apply TimerInv_frame. }
  cbn [videoFilename editorRef hasChanges localStorage log nextTimerId
       setHasChanges set_editorRef] in H2, H3, H4, H5, H6, H7.
  rewrite Hv in *. split_ands; assumption.
Qed.

Lemma typing_rest (rest : list (Z * list node)) :
  forall (t : Z) (c : list node) (s : State) (id : nat),
    TimerInv s -> videoFilename s = Some f ->
    option_map innerHTML (editorRef s) = Some (innerHTML c) ->
    pending_autosaves s = [mkTimer id (t + 1000) (AutoSaveCb (Some f))] ->
    spaced t rest ->
    let s' := run (typing rest) s in
    let tN := fst (last_call (t, c) rest) in
    let cN := snd (last_call (t, c) rest) in
    TimerInv s' /\ videoFilename s' = Some f
    /\ option_map innerHTML (editorRef s') = Some (innerHTML cN)
    /\ (exists id', pending_autosaves s'
                    = [mkTimer id' (tN + 1000) (AutoSaveCb (Some f))])
    /\ log s' = log s /\ localStorage s' = localStorage s
    /\ t <= tN.
Proof using Type.
  induction rest as [|[t' c'] rest IH]; intros t c s id Hinv Hv Hm Hp Hsp.
  - cbn. split_ands; eauto; lia.
  - cbn [typing map run fst snd last_call]. fold (typing rest).
    destruct Hsp as [Ht Hsp].
    cbn [fst] in Ht, Hsp.
    assert (Hq : Forall (fun u => t' < timer_due u) (pending_autosaves s)).
    { rewrite Hp. apply Forall_cons_2; [cbn; lia | apply Forall_nil_2]. }
    pose proof (advance_quiet t' s Hinv Hq) as Hview.
    pose proof (same_view_TimerInv _ _ Hview Hinv) as Hinv'.
    assert (Hmounted : is_some (editorRef (advance t' s)) = true).
    { pose proof (sv_markup _ _ Hview) as E. rewrite Hm in E.
      destruct (editorRef (advance t' s)); [reflexivity | discriminate]. }
    destruct (input_step t' c' (advance t' s) Hinv')
      as (I1 & I2 & I3 & I4 & I5 & I6); try assumption.
    { now rewrite (sv_videoFilename _ _ Hview). }
    destruct (IH t' c' _ (nextTimerId (advance t' s)) I1 I2)
      as (J1 & J2 & J3 & J4 & J5 & J6 & J7); try assumption.
    { now rewrite I3. }
    split_ands; try assumption.
    + now rewrite J5, I5, (sv_log _ _ Hview).
    + now rewrite J6, I6, (sv_storage _ _ Hview).
    + lia.
Qed.

End Debounce.

(** C6. Autosave is a trailing-edge debounce with one timer.
    (a) In every state reached from a mount at most one autosave is
    pending.
    (b) After calls of [handleInput] that each come less than 1000 ms
    after the previous one (so in particular calls that all fall within
    one 1000 ms window) exactly one autosave is pending, due 1000 ms after
    the last call; until then nothing is written, and from then on
    exactly one write has happened, of the content the last call left,
    under the active video's key.
    (c) A stamp insertion that goes through likewise leaves exactly one
    autosave pending, due 500 ms after it, which writes once.
    In both cases whatever autosave was pending before is gone. *)
Theorem C6_autosave_trailing_debounce :
  (forall f time frame k storage t0 evs,
      (length (pending_autosaves (run evs (mount f time frame k storage t0))) <= 1)%nat)
  /\ (forall (s : State) (f : string) (t1 : Z) (c1 : list node)
             (rest : list (Z * list node)),
         TimerInv s -> videoFilename s = Some f -> truthy_string f = true ->
         is_some (editorRef s) = true ->
         spaced t1 rest ->
         let s' := run (typing ((t1, c1) :: rest)) s in
         let tN := fst (last_call (t1, c1) rest) in
         let cN := snd (last_call (t1, c1) rest) in
         (exists id, pending_autosaves s'
                     = [mkTimer id (tN + 1000) (AutoSaveCb (Some f))])
         /\ (forall later, later < tN + 1000 ->
               log (advance later s') = log (advance t1 s))
         /\ (forall later, tN + 1000 <= later ->
               log (advance later s')
                 = setItem (storage_key f) (innerHTML cN) :: log (advance t1 s)
               /\ localStorage (advance later s') !! storage_key f
                  = Some (innerHTML cN)
               /\ hasChanges (advance later s') = false
               /\ pending_autosaves (advance later s') = []))
  /\ (forall (s : State) (f : string) (editor : list node) (stamp : Stamp)
             (text : string) (selection : option Selection) (range : option Range)
             (now : Z),
         TimerInv s -> videoFilename s = Some f -> truthy_string f = true ->
         editorRef s = Some editor ->
         getRangeAt0 selection = inr range ->
         let s' := state_of (insertStampButton stamp text selection now s) in
         pending_autosaves s'
           = [mkTimer (nextTimerId s) (now + 500) (AutoSaveCb (Some f))]
         /\ hasChanges s' = true
         /\ (forall later, later < now + 500 -> log (advance later s') = log s')
         /\ (forall later, now + 500 <= later ->
               exists m, option_map innerHTML (editorRef s') = Some m
                 /\ log (advance later s') = setItem (storage_key f) m :: log s'
                 /\ hasChanges (advance later s') = false
                 /\ pending_autosaves (advance later s') = [])).
Proof.
  split; [| split].
  - intros. apply TimerInv_at_most_one, run_TimerInv, mount_TimerInv.
  - intros s f t1 c1 rest Hinv Hv Hf He Hsp.
    cbn [typing map run fst snd]. fold (typing rest).
    destruct (advance_steps_TimerInv (length (timers s)) t1 s Hinv)
      as (A1 & A2 & A3). fold (advance t1 s) in A1, A2, A3.
    destruct (input_step f t1 c1 (advance t1 s) A1)
      as (I1 & I2 & I3 & I4 & I5 & I6); try congruence.
    destruct (typing_rest f rest t1 c1 _ (nextTimerId (advance t1 s)) I1 I2)
      as (J1 & J2 & J3 & (id' & J4) & J5 & J6 & J7); try assumption.
    { now rewrite I3. }
    cbv zeta. split_ands.
    + eauto.
    + intros later Hl. rewrite <- I5, <- J5. apply sv_log.
      apply advance_quiet; [exact J1|]. rewrite J4.
      apply Forall_cons_2; [cbn; lia | apply Forall_nil_2].
    + intros later Hl.
      destruct (advance_steps_due later _ f _ _ _ J1 J4 Hl eq_refl Hf J3 (le_n _))
        as (K1 & K2 & K3 & K4 & _).
      fold (advance later (run (typing rest) (dispatch t1 (Input c1) (advance t1 s))))
        in K1, K2, K3, K4.
      split_ands; try assumption.
      * now rewrite K1, J5, I5.
      * rewrite K2. apply lookup_insert_eq.
  - intros s f editor stamp text selection range now Hinv Hv Hf He Hsel.
    unfold insertStampButton. rewrite He, Hsel, Hv. cbn [state_of].
    match goal with
    | |- context [reschedule_autosave 500 now (Some f) ?s2] =>
        set (s0 := s2)
    end.
    assert (Hinv0 : TimerInv s0).
    { revert Hinv. apply TimerInv_frame; unfold s0;
        repeat match goal with
               | |- context [match ?x with _ => _ end] => destruct x eqn:?
               end; reflexivity. }
    assert (Hc0 : hasChanges s0 = true) by reflexivity.
    assert (He0 : is_some (editorRef s0) = true).
    { unfold s0.
      repeat match goal with
             | |- context [match ?x with _ => _ end] => destruct x eqn:?
             end; reflexivity. }
    destruct (reschedule_autosave_spec 500 now (Some f) s0 Hinv0)
      as (R1 & R2 & R3 & R4 & R5 & R6 & R7).
    assert (Hn0 : nextTimerId s0 = nextTimerId s).
    { unfold s0.
      repeat match goal with
             | |- context [match ?x with _ => _ end] => destruct x eqn:?
             end; reflexivity. }
    rewrite Hn0 in R2. cbv zeta. split_ands.
    + exact R2.
    + congruence.
    + intros later Hl. apply sv_log. apply advance_quiet; [exact R1|].
      rewrite R2. apply Forall_cons_2; [cbn; lia | apply Forall_nil_2].
    + intros later Hl.
      destruct (editorRef (reschedule_autosave 500 now (Some f) s0)) as [ed|] eqn:E.
      2:{ rewrite <- R4 in He0. discriminate. }
      exists (innerHTML ed).
      assert (Hm : option_map innerHTML
                     (editorRef (reschedule_autosave 500 now (Some f) s0))
                   = Some (innerHTML ed)) by (now rewrite E).
      destruct (advance_steps_due later _ f (innerHTML ed) _ _ R1 R2 Hl eq_refl Hf
                  Hm (le_n _)) as (K1 & K2 & K3 & K4 & _).
      split_ands; try assumption. reflexivity.
Qed.

(** Three edits 300 and 500 ms apart: one write, 1000 ms after the last. *)
Lemma C6_autosave_debounce_witness :
  log (advance 1900
         (run (typing [(100, [TextNode "a"]); (400, [TextNode "ab"]);
                       (900, [TextNode "abc"])]) clip_mounted))
    = [setItem (storage_key "clip.mp4") [MText "abc"]]
  /\ log (advance 1899
            (run (typing [(100, [TextNode "a"]); (400, [TextNode "ab"]);
                          (900, [TextNode "abc"])]) clip_mounted))
     = [].
Proof.
  destruct C6_autosave_trailing_debounce as (_ & Htyping & _).
  destruct (Htyping clip_mounted "clip.mp4" 100 [TextNode "a"]
              [(400, [TextNode "ab"]); (900, [TextNode "abc"])]
              (mount_TimerInv _ _ _ _ _ _) eq_refl eq_refl eq_refl
              ltac:(cbn; lia)) as (_ & Hbefore & Hafter).
  split.
  - destruct (Hafter 1900 ltac:(cbn; lia)) as (-> & _). reflexivity.
  - rewrite (Hbefore 1899 ltac:(cbn; lia)). reflexivity.
Defined.

(* ================================================================== *)
(** * Printing and reading numerals *)
(* ================================================================== *)

Section Numerals.

Lemma digits_value_acc_uint (d : Decimal.uint) (acc : positive) :
  digits_value_acc (Npos acc) (NilEmpty.string_of_uint d)
    = Npos (Pos.of_uint_acc d acc).
Proof.
  revert acc. induction d; intros acc; cbn [NilEmpty.string_of_uint digits_value_acc Pos.of_uint_acc];
    [reflexivity
    | rewrite <- IHd; f_equal;
      match goal with
      | |- context [N.of_nat ?x] =>
          let v := eval vm_compute in (N.of_nat x) in change (N.of_nat x) with v
      end; lia ..].
Qed.

Lemma digits_value_acc_of_uint (d : Decimal.uint) :
  digits_value_acc 0 (NilEmpty.string_of_uint d) = Pos.of_uint d.
Proof.
  induction d; cbn [NilEmpty.string_of_uint digits_value_acc Pos.of_uint];
    [reflexivity | exact IHd | apply digits_value_acc_uint ..].
Qed.

Lemma digits_value_N_toString (n : N) : digits_value (N_toString n) = Z.of_N n.
Proof.
  unfold digits_value, N_toString. rewrite digits_value_acc_of_uint.
  f_equal. apply DecimalN.Unsigned.of_to.
Qed.

Lemma all_digits_uint (d : Decimal.uint) :
  all_digits (NilEmpty.string_of_uint d) = true.
Proof. induction d; cbn; auto. Qed.

Lemma N_toString_digits (n : N) :
  all_digits (N_toString n) = true /\ truthy_string (N_toString n) = true.
Proof.
  split; [apply all_digits_uint|]. unfold N_toString.
  destruct n as [|p]; [reflexivity|]. cbn [N.to_uint].
  pose proof (DecimalPos.Unsigned.to_uint_nonnil p) as H.
  destruct (Pos.to_uint p); [congruence | reflexivity ..].
Qed.

Lemma span_digits_app (ds rest : string) :
  all_digits ds = true -> no_leading_digit rest = true ->
  span_digits (ds +:+ rest) = (ds, rest).
Proof.
  intros Hd Hr. induction ds as [|c ds IH]; cbn [String.append].
  - destruct rest as [|c r]; [reflexivity|]. cbn in *.
    destruct (is_digit c); [discriminate | reflexivity].
  - cbn in Hd. apply andb_true_iff in Hd as [Hc Hd]. cbn [span_digits].
    rewrite Hc, (IH Hd). reflexivity.
Qed.

Lemma digits_value_acc_app (acc : N) (s : string) :
  Z.of_N (digits_value_acc acc s)
    = Z.of_N acc * Zpos (pow10 (String.length s)) + digits_value s.
Proof.
  unfold digits_value. revert acc.
  induction s as [|c s IH]; intros acc; cbn [digits_value_acc String.length pow10].
  - lia.
  - rewrite IH, (IH (10 * 0 + _)%N). lia.
Qed.

Lemma digit_char_spec (k : Z) :
  0 <= k <= 9 ->
  is_digit (digit_char k) = true
  /\ N.of_nat (nat_of_ascii (digit_char k) - 48) = Z.to_N k.
Proof.
  intros Hk.
  assert (exists n : nat, (n < 10)%nat /\ k = Z.of_nat n) as (n & Hn & ->).
  { exists (Z.to_nat k). lia. }
  do 10 (destruct n as [|n]; [split; reflexivity|]). lia.
Qed.

(** The digits printed for [r / d] denote it exactly when the expansion
    ends. *)
Lemma frac_digits_value (fuel : nat) :
  forall r d : Z,
    0 < d -> 0 <= r < d -> final_remainder fuel r d = 0 ->
    all_digits (frac_digits fuel r d) = true
    /\ digits_value (frac_digits fuel r d) * d
       = r * Zpos (pow10 (String.length (frac_digits fuel r d))).
Proof.
  induction fuel as [|fuel IH]; intros r d Hd Hr Hfin;
    cbn [frac_digits final_remainder] in *.
  - destruct (r =? 0) eqn:E; [|lia]. split; [reflexivity | cbn; lia].
  - destruct (r =? 0) eqn:E; [split; [reflexivity | cbn; lia]|].
    assert (Hq : 0 <= 10 * r / d <= 9).
    { split; [apply Z.div_pos; lia|].
      assert (10 * r / d < 10) by (apply Z.div_lt_upper_bound; lia). lia. }
    destruct (digit_char_spec _ Hq) as [Hdig Hval].
    destruct (IH ((10 * r) mod d) d Hd (Z.mod_pos_bound _ _ Hd) Hfin) as [IH1 IH2].
    split; [cbn; now rewrite Hdig, IH1|].
    unfold digits_value in *. cbn [digits_value_acc String.length pow10].
    rewrite digits_value_acc_app, Hval. unfold digits_value.
    rewrite N.mul_0_r, N.add_0_l, Z2N.id by lia.
    pose proof (Z.div_mod (10 * r) d ltac:(lia)) as Hdm.
    set (k := Zpos (pow10 (String.length (frac_digits fuel ((10 * r) mod d) d)))) in *.
    set (V := Z.of_N (digits_value_acc 0 (frac_digits fuel ((10 * r) mod d) d))) in *.
    rewrite Pos2Z.inj_mul. fold k. nia.
Qed.

End Numerals.

Section ReadingBack.

Lemma digit_not_space (c : ascii) : is_digit c = true -> is_space c = false.
Proof.
  unfold is_digit, is_space. intros H.
  apply andb_true_iff in H as [H1 H2].
  apply Nat.leb_le in H1. apply Nat.leb_le in H2.
  apply orb_false_iff. split.
  - apply Nat.eqb_neq. lia.
  - apply andb_false_iff. right. apply Nat.leb_gt. lia.
Qed.

Lemma digit_first (c : ascii) (s : string) :
  is_digit c = true ->
  skip_spaces (String c s) = String c s
  /\ split_sign (String c s) = (false, String c s)
  /\ starts_with_Infinity (String c s) = false.
Proof.
  intros H. split; [cbn; now rewrite (digit_not_space _ H)|].
  destruct c as [[] [] [] [] [] [] [] []]; try discriminate H; split; reflexivity.
Qed.

Lemma minus_first (s : string) :
  skip_spaces (String "-" s) = String "-" s
  /\ split_sign (String "-" s) = (true, s).
Proof. split; reflexivity. Qed.

Lemma N_toString_first (n : N) :
  exists c s, N_toString n = String c s /\ is_digit c = true.
Proof.
  destruct (N_toString_digits n) as [Hd Ht].
  destruct (N_toString n) as [|c s]; [discriminate|].
  exists c, s. split; [reflexivity|]. cbn in Hd.
  now apply andb_true_iff in Hd as [Hc _].
Qed.

(** Reading back what [Number_toString] prints gives the number. *)
Lemma parseFloat_Number_toString (q : Q) :
  is_decimal q = true -> num_eq (parseFloat (Number_toString (Fin q))) (Fin q).
Proof.
  intros Hdec. unfold is_decimal in Hdec. apply Z.eqb_eq in Hdec.
  destruct q as [n d]. cbn [Qnum Qden] in Hdec.
  unfold Number_toString. cbn [Qnum Qden]. unfold Qneg. cbn [Qnum].
  set (a := Z.abs n) in *.
  assert (Ha : 0 <= a) by (unfold a; lia).
  assert (Hr : 0 <= a mod Zpos d < Zpos d) by (apply Z.mod_pos_bound; lia).
  destruct (frac_digits_value max_frac_digits (a mod Zpos d) (Zpos d)
              (Pos2Z.is_pos d) Hr Hdec) as [Fd Fv].
  set (fs := frac_digits max_frac_digits (a mod Zpos d) (Zpos d)) in *.
  set (I := N_toString (Z.to_N (a / Zpos d))).
  destruct (N_toString_digits (Z.to_N (a / Zpos d))) as [Id It]. fold I in Id, It.
  destruct (N_toString_first (Z.to_N (a / Zpos d))) as (c & I' & HI & Hc). fold I in HI.
  set (tail := if truthy_string fs then "." +:+ fs else "").
  assert (Htail : no_leading_digit tail = true)
    by (unfold tail; destruct (truthy_string fs); reflexivity).
  assert (Hfrac : fraction_part tail = (fs, "")).
  { unfold tail. destruct fs as [|c0 fs0] eqn:Efs; [reflexivity|].
    cbn [truthy_string String.append fraction_part].
    transitivity (span_digits (String c0 fs0 +:+ ""));
      [now rewrite append_nil_r | apply span_digits_app; [exact Fd | reflexivity]]. }
  assert (Hbody : forall neg,
    parse_literal neg (I +:+ tail)
    = Fin (if neg then - Qmake (Z.of_N (Z.to_N (a / Zpos d))
                                  * Zpos (pow10 (String.length fs))
                                + digits_value fs) (pow10 (String.length fs))
           else Qmake (Z.of_N (Z.to_N (a / Zpos d))
                         * Zpos (pow10 (String.length fs))
                       + digits_value fs) (pow10 (String.length fs)))%Q).
  { intros neg. unfold parse_literal. rewrite HI at 1. cbn [String.append].
    destruct (digit_first c (I' +:+ tail) Hc) as (_ & _ & ->).
    rewrite (span_digits_app _ _ Id Htail), Hfrac, It.
    cbn [orb exponent_part scale10]. unfold I.
    rewrite digits_value_N_toString. reflexivity. }
  assert (Hval : (Qmake (Z.of_N (Z.to_N (a / Zpos d))
                           * Zpos (pow10 (String.length fs))
                         + digits_value fs) (pow10 (String.length fs))
                  == Qmake a d)%Q).
  { unfold Qeq. cbn [Qnum Qden]. rewrite Z2N.id by (apply Z.div_pos; lia).
    pose proof (Z.div_mod a (Zpos d) ltac:(lia)) as Hdm.
    revert Fv Hdm.
    generalize (Zpos (pow10 (String.length fs))) (digits_value fs)
               (a / Zpos d) (a mod Zpos d) (Zpos d).
    intros k F ip r D Fv Hdm. nia. }
  unfold parseFloat.
  destruct (n <? 0) eqn:Hneg.
  - change ("-" +:+ I +:+ tail) with (String "-" (I +:+ tail)).
    destruct (minus_first (I +:+ tail)) as (-> & ->).
    rewrite (Hbody true). cbn [num_eq]. rewrite Hval. unfold Qeq, a. cbn. lia.
  - change ("" +:+ I +:+ tail) with (I +:+ tail).
    rewrite HI at 1. cbn [String.append].
    destruct (digit_first c (I' +:+ tail) Hc) as (-> & -> & _).
    rewrite (append_cons c), <- HI.
    rewrite (Hbody false). cbn [num_eq]. rewrite Hval. unfold Qeq, a. cbn. lia.
Qed.

End ReadingBack.

(* ================================================================== *)
(** * Exporting a document *)
(* ================================================================== *)

(** ** The export text *)

Section MarkupFacts.

(** Coalescing text runs changes neither the text of a list of markup
    nodes nor anything that is collected from its elements only. *)
Lemma coalesce_text (h : markup -> string) (ms : list markup) :
  (forall s, h (MText s) = s) ->
  fold_right (fun m acc => h m +:+ acc) "" (coalesce ms)
    = fold_right (fun m acc => h m +:+ acc) "" ms.
Proof.
  intros Hh. induction ms as [|m ms IH]; [reflexivity|].
  destruct m as [s | tag attrs cs]; cbn [coalesce fold_right].
  - rewrite <- IH, Hh.
    destruct (coalesce ms) as [|[t | tag attrs cs] rest]; cbn [fold_right].
    + destruct s; cbn [truthy_string fold_right]; rewrite ?Hh; reflexivity.
    + rewrite !Hh. apply append_assoc.
    + destruct s; cbn [truthy_string fold_right]; rewrite ?Hh; reflexivity.
  - now rewrite IH.
Qed.

Lemma coalesce_elements {X} (h : markup -> list X) (ms : list markup) :
  (forall s, h (MText s) = []) ->
  flat_map h (coalesce ms) = flat_map h ms.
Proof.
  intros Hh. induction ms as [|m ms IH]; [reflexivity|].
  destruct m as [s | tag attrs cs]; cbn [coalesce flat_map].
  - rewrite <- IH, Hh.
    destruct (coalesce ms) as [|[t | tag attrs cs] rest]; cbn [flat_map app].
    + destruct s; cbn; rewrite ?Hh; reflexivity.
    + now rewrite !Hh.
    + destruct s; cbn [truthy_string flat_map app]; rewrite ?Hh; reflexivity.
  - now rewrite IH.
Qed.

Lemma fold_right_map_text {A} (g : A -> node) (l : list A) :
  textContent_all (map g l)
    = fold_right (fun a acc => textContent (g a) +:+ acc) "" l.
Proof.
  unfold textContent_all. induction l as [|a l IH]; cbn; [reflexivity | now rewrite IH].
Qed.

Lemma fold_right_ext_Forall {A} (g h : A -> string) (l : list A) :
  Forall (fun a => g a = h a) l ->
  fold_right (fun a acc => g a +:+ acc) "" l
    = fold_right (fun a acc => h a +:+ acc) "" l.
Proof. induction 1 as [|a l Ha _ IH]; cbn; [reflexivity | now rewrite Ha, IH]. Qed.

(** The export text of a node does not depend on the round trip through
    markup that [exportNotes] makes. *)
Lemma export_through_markup (n : node) :
  textContent (replace_stamps (parse (serialize n)))
    = textContent (replace_stamps n).
Proof.
  induction n as [s | tag attrs ls cs IH] using node_rect'; [reflexivity|].
  cbn [serialize parse replace_stamps is_stamp_button].
  destruct (String.eqb tag "button" && hasAttribute "data-stamp-id" attrs);
    [reflexivity|].
  cbn [textContent]. rewrite !map_map.
  change (fold_right (fun c acc => textContent c +:+ acc) "" ?l)
    with (textContent_all l).
  rewrite !fold_right_map_text.
  rewrite (coalesce_text (fun m => textContent (replace_stamps (parse m))))
    by reflexivity.
  rewrite <- (map_id cs) at 2.
  change (fold_right (fun m acc => textContent (replace_stamps (parse m)) +:+ acc)
            "" (map serialize cs))
    with (fold_right (fun m acc => (fun m => textContent (replace_stamps (parse m))) m +:+ acc)
            "" (map serialize cs)).
  rewrite map_id.
  transitivity (fold_right
                  (fun c acc => textContent (replace_stamps (parse (serialize c))) +:+ acc)
                  "" cs).
  - clear IH. induction cs as [|c cs IHc]; cbn; [reflexivity | now rewrite IHc].
  - now apply fold_right_ext_Forall.
Qed.

Lemma export_content_direct (cs : list node) :
  export_content cs = textContent_all (map replace_stamps cs).
Proof.
  unfold export_content, set_innerHTML, innerHTML. rewrite !map_map.
  rewrite !fold_right_map_text.
  rewrite (coalesce_text (fun m => textContent (replace_stamps (parse m))))
    by reflexivity.
  induction cs as [|c cs IH]; cbn; [reflexivity|].
  now rewrite export_through_markup, IH.
Qed.

End MarkupFacts.

Section ExportFacts.

Lemma formatTime_hms (q : Q) : (0 <= q)%Q -> formatTime (Fin q) = hms (Qfloor q).
Proof.
  intros Hq. set (n := Qfloor q).
  assert (Hn : 0 <= n).
  { unfold n. change 0 with (Qfloor 0). now apply Qfloor_resp_le. }
  assert (Hmm : (n / 60) mod 60 = (n - 3600 * (n / 3600)) / 60).
  { rewrite <- Z.mod_eq by lia.
    replace 3600 with (60 * 60) by lia. rewrite Z.rem_mul_r by lia.
    rewrite Z.mul_comm, Z.div_add by lia.
    rewrite (Z.div_small (n mod 60)) by (apply Z.mod_pos_bound; lia). lia. }
  assert (Hss : n mod 60 = n - 60 * (n / 60)) by (rewrite Z.mod_eq; lia).
  unfold formatTime, hms, num_div, num_rem, Math_floor.
  change (Qzero 3600) with false. change (Qzero 60) with false. cbv iota.
  change (3600%Q) with (inject_Z (Zpos 3600)).
  change (60%Q) with (inject_Z (Zpos 60)).
  rewrite !Qtrunc_nonneg by (now apply Qdiv_pos_nonneg).
  rewrite !Qfloor_div_pos, !Qfloor_sub_multiple.
  fold n. rewrite <- Hmm, <- Hss.
  rewrite !Number_toString_nat;
    [| apply Z.mod_pos_bound; lia | apply Z.mod_pos_bound; lia
     | apply Z.div_pos; lia].
  rewrite !padStart_two_digits by (apply Z.mod_pos_bound; lia). reflexivity.
Qed.

Lemma Number_toString_truthy (q : Q) : truthy_string (Number_toString (Fin q)) = true.
Proof.
  unfold Number_toString.
  destruct (N_toString_first (Z.to_N (Z.abs (Qnum q) / Zpos (Qden q))))
    as (c & s & -> & _).
  destruct (Qneg q); reflexivity.
Qed.

Lemma formatTime_parseFloat (q : Q) :
  is_decimal q = true -> (0 <= q)%Q ->
  formatTime (parseFloat (Number_toString (Fin q))) = hms (Qfloor q).
Proof.
  intros Hd Hq. pose proof (parseFloat_Number_toString q Hd) as He.
  destruct (parseFloat (Number_toString (Fin q))) as [| neg | q'];
    cbn [num_eq] in He; try contradiction.
  rewrite formatTime_hms by (now rewrite He). now rewrite He.
Qed.

Lemma stampButton_is_stamp_button (k : bool) (st : Stamp) (txt : string) :
  is_stamp_button (stampButton k st txt) = true.
Proof. reflexivity. Qed.

Lemma stampButton_dataset (k : bool) (st : Stamp) (txt : string) :
  dataset_stampId (stampButton k st txt) = Some (stamp_id st)
  /\ dataset_stampType (stampButton k st txt) = Some (stamp_type st)
  /\ dataset_stampValue (stampButton k st txt)
     = Some (Number_toString (stamp_value st))
  /\ dataset_stampLabel (stampButton k st txt) = Some (stamp_label st).
Proof. repeat split. Qed.

Lemma export_text_inserted (k : bool) (st : Stamp) (txt : string) :
  inserted st = true -> export_text (stampButton k st txt) = bracket st.
Proof.
  unfold inserted, bracket, export_text.
  destruct (stampButton_dataset k st txt) as (_ & -> & -> & _).
  destruct (stamp_value st) as [| neg | q] eqn:Ev; try discriminate.
  intros H. apply andb_true_iff in H as [H Hkind].
  apply andb_true_iff in H as [Hdec Hnn]. apply Z.leb_le in Hnn.
  assert (Hq : (0 <= q)%Q) by (unfold Qle; cbn; lia).
  cbn [truthy default from_option id]. rewrite Number_toString_truthy, !andb_true_r.
  destruct (String.eqb_spec (stamp_type st) "time") as [Et|Et].
  - rewrite Et. rewrite bool_decide_true by reflexivity.
    now rewrite formatTime_parseFloat.
  - rewrite bool_decide_false by congruence.
    cbn [orb] in Hkind. apply andb_true_iff in Hkind as [Ef Hden].
    apply String.eqb_eq in Ef. rewrite Ef.
    rewrite bool_decide_true by reflexivity.
    apply Z.eqb_eq in Hden. destruct q as [n d]. cbn [Qden] in Hden.
    injection Hden as ->. cbn [Qnum] in Hnn.
    change (n # 1) with (inject_Z n). rewrite Number_toString_nat by assumption.
    now rewrite Qfloor_Z.
Qed.

(** What [exportNotes] extracts from a rendered document is the text of
    the document with each stamp in its bracket form. *)
Lemma export_render (k : bool) (seg : Segment) :
  well_formed inserted seg = true ->
  textContent (replace_stamps (render k seg)) = running_text seg.
Proof.
  induction seg as [t | st | tag attrs body IH] using Segment_rect';
    cbn [well_formed render running_text]; intros Hwf.
  - reflexivity.
  - change (replace_stamps (stampButton k st (displayText st)))
      with (TextNode (export_text (stampButton k st (displayText st)))).
    cbn [textContent]. now apply export_text_inserted.
  - apply andb_true_iff in Hwf as [Hplain Hbody].
    unfold plain_wrapper in Hplain. apply negb_true_iff in Hplain.
    cbn [replace_stamps is_stamp_button]. rewrite Hplain. cbn [textContent].
    rewrite forallb_forall in Hbody. rewrite Forall_forall in IH.
    induction body as [|b body IHb]; [reflexivity|].
    cbn [map fold_right]. rewrite IH, IHb.
    + reflexivity.
    + intros x Hx. apply IH. now right.
    + intros x Hx. apply Hbody. now right.
    + now left.
    + apply Hbody. now left.
Qed.

Lemma export_content_render (k : bool) (doc : list Segment) :
  forallb (well_formed inserted) doc = true ->
  export_content (map (render k) doc) = running_text_all doc.
Proof.
  intros Hwf. rewrite export_content_direct. rewrite map_map.
  rewrite fold_right_map_text. unfold running_text_all.
  rewrite forallb_forall in Hwf.
  induction doc as [|b doc IH]; [reflexivity|].
  cbn [fold_right]. rewrite export_render, IH.
  - reflexivity.
  - intros x Hx. apply Hwf. now right.
  - apply Hwf. now left.
Qed.

(** ** The file name *)

Lemma list_ascii_of_string_app (s t : string) :
  list_ascii_of_string (s +:+ t) = list_ascii_of_string s ++ list_ascii_of_string t.
Proof. induction s as [|c s IH]; cbn; [reflexivity | now rewrite IH]. Qed.

Lemma span_extension_app (ext rest : list ascii) :
  forallb extension_char ext = true ->
  span_extension (ext ++ "."%char :: rest) = (ext, "."%char :: rest).
Proof.
  induction ext as [|c ext IH]; intros H; [reflexivity|].
  cbn in H. apply andb_true_iff in H as [Hc H].
  cbn [app span_extension]. unfold extension_char in Hc.
  apply negb_true_iff in Hc. rewrite Hc, (IH H). reflexivity.
Qed.

Lemma forallb_rev_true {A} (p : A -> bool) (l : list A) :
  forallb p l = true -> forallb p (rev l) = true.
Proof.
  rewrite !forallb_forall. intros H x Hx. apply H. now apply in_rev.
Qed.

(** A last dot followed by a non-empty run without dot or slash is an
    extension, and is stripped. *)
Lemma strip_extension_spec (base ext : string) :
  truthy_string ext = true ->
  forallb extension_char (list_ascii_of_string ext) = true ->
  strip_extension (base +:+ "." +:+ ext) = base.
Proof.
  intros Hne Hext. unfold strip_extension.
  rewrite !list_ascii_of_string_app, !rev_app_distr. cbn [list_ascii_of_string rev app].
  rewrite <- app_assoc. cbn [app].
  rewrite span_extension_app by (now apply forallb_rev_true).
  destruct (rev (list_ascii_of_string ext)) as [|c l] eqn:E.
  - destruct ext; [discriminate|]. cbn in E.
    destruct (rev (list_ascii_of_string ext)); discriminate.
  - cbn. now rewrite rev_involutive, string_of_list_ascii_of_string.
Qed.

End ExportFacts.

(** ** The lines of the notes *)

Section Lines.

Lemma line_feeds_length (n : nat) : String.length (line_feeds n) = n.
Proof. induction n as [|n IH]; cbn; [reflexivity | now rewrite IH]. Qed.

Lemma lay_out_chars (ts : list string) (started : bool) :
  lay_out 0 started (map Chars ts) = fold_right (fun t acc => t +:+ acc) "" ts.
Proof.
  revert started. induction ts as [|t ts IH]; intros started; [reflexivity|].
  cbn [map lay_out fold_right]. destruct t as [|c t].
  - cbn. apply IH.
  - cbn [truthy_string]. rewrite IH. now destruct started.
Qed.

Lemma pieces_on_the_line (doc : list Segment) :
  forallb on_the_line doc = true ->
  flat_map pieces doc = map Chars (map running_text doc).
Proof.
  induction doc as [|seg doc IH]; [reflexivity|].
  cbn [forallb]. intros H. apply andb_true_iff in H as [Hs Hd].
  destruct seg; [| |discriminate]; cbn; now rewrite IH.
Qed.

Lemma visible_text_on_the_line (doc : list Segment) :
  forallb on_the_line doc = true ->
  visible_text_all doc = running_text_all doc.
Proof.
  intros H. unfold visible_text_all, running_text_all.
  rewrite (pieces_on_the_line doc H), lay_out_chars.
  clear H. induction doc as [|seg doc IH]; cbn; [reflexivity | now rewrite IH].
Qed.

Lemma lay_out_lines (more : list string) (required : nat) :
  (required <= 1)%nat ->
  forallb truthy_string more = true ->
  lay_out required true
          (flat_map pieces (map (fun line => Wrap "div" [] [Run line]) more))
    = fold_right (fun line acc => LF +:+ line +:+ acc) "" more.
Proof.
  revert required. induction more as [|l more IH]; intros required Hr Hm.
  - reflexivity.
  - cbn [forallb] in Hm. apply andb_true_iff in Hm as [Hl Hm].
    cbn [map flat_map].
    change (pieces (Wrap "div" [] [Run l])) with [LineBreaks 1; Chars l; LineBreaks 1].
    cbn [app lay_out]. rewrite Hl.
    replace (Nat.max required 1) with 1%nat by lia.
    cbn [line_feeds Nat.max]. rewrite (IH 1%nat) by (auto; lia).
    cbn. reflexivity.
Qed.

Lemma visible_text_lines (first : string) (more : list string) :
  truthy_string first = true -> forallb truthy_string more = true ->
  visible_text_all (lines_document first more) = lines_apart first more.
Proof.
  intros Hf Hm. unfold visible_text_all, lines_document, lines_apart.
  cbn [flat_map pieces app lay_out]. rewrite Hf.
  rewrite lay_out_lines by (auto; lia). reflexivity.
Qed.

Lemma running_text_lines (first : string) (more : list string) :
  running_text_all (lines_document first more) = lines_joined first more.
Proof.
  unfold running_text_all, lines_document, lines_joined.
  cbn [fold_right running_text]. f_equal.
  induction more as [|l more IH]; cbn; [reflexivity|].
  now rewrite IH, append_nil_r.
Qed.

Lemma lines_lengths (first : string) (more : list string) :
  String.length (lines_apart first more)
    = (String.length (lines_joined first more) + length more)%nat.
Proof.
  unfold lines_apart, lines_joined. rewrite !length_append.
  rewrite <- Nat.add_assoc. f_equal.
  induction more as [|l more IH]; [reflexivity|].
  cbn [fold_right length]. rewrite !length_append, IH. cbn. lia.
Qed.

Lemma lines_joined_not_apart (first : string) (more : list string) :
  more <> [] -> lines_joined first more <> lines_apart first more.
Proof.
  intros Hne E. pose proof (lines_lengths first more) as H.
  rewrite <- E in H. destruct more; [congruence | cbn in H; lia].
Qed.

Lemma well_formed_lines (ok : Stamp -> bool) (first : string) (more : list string) :
  forallb (well_formed ok) (lines_document first more) = true.
Proof.
  unfold lines_document. cbn [forallb well_formed andb].
  induction more as [|l more IH]; [reflexivity|]. cbn. exact IH.
Qed.

End Lines.

(** C4. With an active video, [exportNotes] offers for download a file
    named after the video with its extension stripped and [_notes.md]
    appended, whose content is the line [# Notes for <video>], an empty
    line, and the text of the document with every time stamp replaced by
    [[H:MM:SS]] of its value and every frame stamp by [[Frame n]].  The
    text is the running text, not the visible text: the two agree on
    notes of one line, but notes of several lines are exported with
    their lines joined, no line break between them. *)
Theorem C4_export_joins_the_lines :
  (forall (s : State) (f : string) (doc : list Segment) (k : bool),
      videoFilename s = Some f -> truthy_string f = true ->
      editorRef s = Some (map (render k) doc) ->
      forallb (well_formed inserted) doc = true ->
      exportNotes s
        = emit (toast_success "Notes exported")
               (emit (download (strip_extension f +:+ "_notes.md")
                               ("# Notes for " +:+ f +:+ LF +:+ LF
                                  +:+ running_text_all doc)) s))
  /\ (forall doc : list Segment,
         forallb on_the_line doc = true ->
         visible_text_all doc = running_text_all doc)
  /\ (forall (s : State) (f first : string) (more : list string) (k : bool),
         videoFilename s = Some f -> truthy_string f = true ->
         truthy_string first = true -> forallb truthy_string more = true ->
         more <> [] ->
         editorRef s = Some (map (render k) (lines_document first more)) ->
         exportNotes s
           = emit (toast_success "Notes exported")
                  (emit (download (strip_extension f +:+ "_notes.md")
                                  ("# Notes for " +:+ f +:+ LF +:+ LF
                                     +:+ lines_joined first more)) s)
         /\ visible_text_all (lines_document first more) = lines_apart first more
         /\ lines_joined first more <> lines_apart first more)
  /\ (forall base ext : string,
         truthy_string ext = true ->
         forallb extension_char (list_ascii_of_string ext) = true ->
         strip_extension (base +:+ "." +:+ ext) = base)
  /\ (forall (k : bool) (id label : string),
         export_text (stampButton k (mkStamp id "time" (Fin 125.4) label) "0:02:05")
           = "[0:02:05]"
         /\ bracket (mkStamp id "time" (Fin 125.4) label) = "[0:02:05]")
  /\ (forall (k : bool) (id label : string),
         export_text (stampButton k (mkStamp id "frame" (Fin 90) label) "F90")
           = "[Frame 90]"
         /\ bracket (mkStamp id "frame" (Fin 90) label) = "[Frame 90]").
Proof.
  assert (Hexport : forall (s : State) (f : string) (doc : list Segment) (k : bool),
             videoFilename s = Some f -> truthy_string f = true ->
             editorRef s = Some (map (render k) doc) ->
             forallb (well_formed inserted) doc = true ->
             exportNotes s
             = emit (toast_success "Notes exported")
                    (emit (download (strip_extension f +:+ "_notes.md")
                                    ("# Notes for " +:+ f +:+ LF +:+ LF
                                       +:+ running_text_all doc)) s)).
  { intros s f doc k Hv Hf He Hwf. unfold exportNotes. rewrite Hv, He, Hf.
    unfold export_markdown, export_filename.
    now rewrite export_content_render. }
  split; [exact Hexport | split; [| split; [| split; [| split]]]].
  - exact visible_text_on_the_line.
  - intros s f first more k Hv Hf Hfirst Hmore Hne He. split; [| split].
    + rewrite (Hexport s f _ k Hv Hf He (well_formed_lines _ _ _)).
      now rewrite running_text_lines.
    + now apply visible_text_lines.
    + now apply lines_joined_not_apart.
  - apply strip_extension_spec.
  - intros k id label. split; vm_compute; reflexivity.
  - intros k id label. split; vm_compute; reflexivity.
Qed.

Lemma C4_export_joins_the_lines_witness :
  log (exportNotes three_lines_state)
    = [toast_success "Notes exported";
       download "clip_notes.md"
                ("# Notes for clip.mp4" +:+ LF +:+ LF
                   +:+ "line oneline twoline three")]
  /\ visible_text_all (lines_document "line one" ["line two"; "line three"])
     = "line one" +:+ LF +:+ "line two" +:+ LF +:+ "line three".
Proof.
  destruct C4_export_joins_the_lines as (_ & _ & H & _).
  destruct (H three_lines_state "clip.mp4" "line one" ["line two"; "line three"]
              true eq_refl eq_refl eq_refl eq_refl ltac:(discriminate) eq_refl)
    as (-> & -> & _).
  split; vm_compute; reflexivity.
Defined.

(* ================================================================== *)
(** * Reloading a saved document *)
(* ================================================================== *)

Section Reloading.

Lemma flat_map_map_out {A B C} (F : B -> C) (g : A -> list B) (l : list A) :
  flat_map (fun a => map F (g a)) l = map F (flat_map g l).
Proof.
  induction l as [|a l IH]; cbn [flat_map map]; [reflexivity|].
  now rewrite IH, map_app.
Qed.

Lemma flat_map_ext_Forall {A B} (g h : A -> list B) (l : list A) :
  Forall (fun a => g a = h a) l -> flat_map g l = flat_map h l.
Proof. induction 1 as [|a l Ha _ IH]; cbn; [reflexivity | now rewrite Ha, IH]. Qed.

Lemma reload_stampButton_descendants (k k0 : bool) (st : Stamp) (txt : string) :
  matching_descendants (reload k (stampButton k0 st txt)) = [].
Proof.
  unfold reload, stampButton.
  destruct (String.eqb (stamp_type st) "time"), txt; reflexivity.
Qed.

Lemma reload_stampButton_query (k k0 : bool) (st : Stamp) (txt : string) :
  query (reload k (stampButton k0 st txt)) = [reload k (stampButton k0 st txt)].
Proof.
  unfold query. rewrite reload_stampButton_descendants. reflexivity.
Qed.

Lemma reload_stampButton_listeners (k k0 : bool) (st : Stamp) (txt : string) :
  listeners_of (reload k (stampButton k0 st txt))
    = [mkListener (stamp_of_dataset (reload k (stampButton k0 st txt))) k].
Proof. reflexivity. Qed.

Lemma reload_stampButton_dataset (k k0 : bool) (st : Stamp) (txt : string) :
  stamp_of_dataset (reload k (stampButton k0 st txt))
    = stamp_of_dataset (stampButton k0 st txt).
Proof. reflexivity. Qed.

Lemma or_string_Some_self (s : string) : or_string (Some s) "" = s.
Proof. destruct s; reflexivity. Qed.

Lemma printable_round_trip (st : Stamp) :
  printable st = true ->
  num_eq (parseFloat (Number_toString (stamp_value st))) (stamp_value st).
Proof.
  unfold printable. destruct (stamp_value st) as [| neg | q]; try discriminate.
  apply parseFloat_Number_toString.
Qed.

(** The data attributes of a stamp button give back the stamp. *)
Lemma stamp_of_dataset_stampButton (k : bool) (st : Stamp) (txt : string) :
  printable st = true -> stamp_equiv (stamp_of_dataset (stampButton k st txt)) st.
Proof.
  intros Hp. unfold stamp_equiv, stamp_of_dataset.
  destruct (stampButton_dataset k st txt) as (-> & -> & -> & ->).
  rewrite !or_string_Some_self. cbn [default from_option id stamp_id stamp_type stamp_value stamp_label].
  split; [reflexivity|]. split; [reflexivity|]. split; [|reflexivity].
  pose proof (printable_round_trip st Hp) as He.
  unfold printable in Hp. destruct (stamp_value st) as [| neg | q] eqn:Ev; try discriminate.
  unfold or_string. cbn [truthy]. now rewrite Number_toString_truthy.
Qed.

Lemma flat_map_map_in {A B C} (g : A -> B) (h : B -> list C) (l : list A) :
  flat_map h (map g l) = flat_map (fun a => h (g a)) l.
Proof. induction l as [|a l IH]; cbn; [reflexivity | now rewrite IH]. Qed.

(** Querying reloaded children: text boundaries lost in the markup do
    not matter, since text nodes contribute nothing. *)
Lemma query_reloaded_children (k : bool) (cs : list node) :
  flat_map query (map (reattach k) (map parse (coalesce (map serialize cs))))
    = flat_map (fun c => query (reload k c)) cs.
Proof.
  rewrite map_map, flat_map_map_in.
  rewrite (coalesce_elements (fun m => query (reattach k (parse m)))) by reflexivity.
  now rewrite flat_map_map_in.
Qed.

Lemma query_reload_render (ok : Stamp -> bool) (k k0 : bool) (seg : Segment) :
  well_formed ok seg = true ->
  query (reload k (render k0 seg))
    = map (fun st => reload k (stampButton k0 st (displayText st))) (tokens seg).
Proof.
  induction seg as [t | st | tag attrs body IH] using Segment_rect';
    cbn [well_formed render tokens map]; intros Hwf.
  - reflexivity.
  - apply reload_stampButton_query.
  - apply andb_true_iff in Hwf as [Hplain Hbody].
    unfold plain_wrapper in Hplain. apply negb_true_iff in Hplain.
    unfold reload, query. cbn [serialize parse reattach is_stamp_button].
    rewrite Hplain. cbn [app matching_descendants is_stamp_button].
    rewrite Hplain. cbn [app].
    match goal with |- flat_map ?f _ = _ => change f with query end.
    fold (reload k).
    rewrite query_reloaded_children, flat_map_map_in, <- flat_map_map_out.
    apply flat_map_ext_Forall.
    rewrite forallb_forall in Hbody. rewrite Forall_forall in IH |- *.
    intros b Hb. apply IH; [assumption|]. apply Hbody. now apply list_elem_of_In.
Qed.

(** The stamp buttons of a reloaded document are the reloaded buttons of
    its stamps, in document order. *)
Lemma query_reload_document (ok : Stamp -> bool) (k k0 : bool) (doc : list Segment) :
  forallb (well_formed ok) doc = true ->
  querySelectorAll_stamps
    (map (reattach k) (set_innerHTML (innerHTML (map (render k0) doc))))
    = map (fun st => reload k (stampButton k0 st (displayText st)))
          (flat_map tokens doc).
Proof.
  intros Hwf. unfold set_innerHTML, innerHTML, querySelectorAll_stamps.
  match goal with |- flat_map ?f _ = _ => change f with query end.
  rewrite query_reloaded_children, flat_map_map_in, <- flat_map_map_out.
  apply flat_map_ext_Forall. rewrite forallb_forall in Hwf. apply Forall_forall.
  intros b Hb. apply (query_reload_render ok). apply Hwf. now apply list_elem_of_In.
Qed.

Lemma truthy_append_r (s t : string) :
  truthy_string t = true -> truthy_string (s +:+ t) = true.
Proof. destruct s, t; cbn; congruence. Qed.

(** Markup that contains an element is not the empty string. *)
Lemma truthy_markup_element (ms : list markup) :
  existsb is_element ms = true -> truthy_markup (coalesce ms) = true.
Proof.
  induction ms as [|m ms IH]; [discriminate|].
  destruct m as [s | tag attrs cs]; cbn [existsb is_element orb coalesce].
  - intros H. specialize (IH H).
    destruct (coalesce ms) as [|[t | tag attrs cs] rest];
      cbn [truthy_markup existsb] in IH |- *.
    + discriminate.
    + apply orb_true_iff in IH as [Ht | Hr].
      * now rewrite truthy_append_r.
      * rewrite Hr. apply orb_true_r.
    + destruct (truthy_string s); cbn [truthy_markup existsb];
        rewrite ?orb_true_r; reflexivity.
  - reflexivity.
Qed.

Lemma tokens_without_elements (k : bool) (doc : list Segment) :
  existsb is_element (map serialize (map (render k) doc)) = false ->
  flat_map tokens doc = [].
Proof.
  induction doc as [|seg doc IH]; [reflexivity|].
  destruct seg as [t | st | tag attrs body]; cbn [map existsb render]; intros H.
  - cbn [flat_map tokens app]. apply IH. exact H.
  - discriminate.
  - discriminate.
Qed.

Lemma tokens_of_empty_markup (k : bool) (doc : list Segment) :
  truthy_markup (innerHTML (map (render k) doc)) = false ->
  flat_map tokens doc = [].
Proof.
  intros H. apply (tokens_without_elements k).
  destruct (existsb is_element (map serialize (map (render k) doc))) eqn:E;
    [|reflexivity].
  unfold innerHTML in H. now rewrite truthy_markup_element in H.
Qed.

End Reloading.

Section ReloadedStamps.

Lemma tokens_ok (ok : Stamp -> bool) (seg : Segment) :
  well_formed ok seg = true -> Forall (fun st => ok st = true) (tokens seg).
Proof.
  induction seg as [t | st | tag attrs body IH] using Segment_rect';
    cbn [well_formed tokens]; intros Hwf.
  - apply Forall_nil_2.
  - apply Forall_cons_2; [assumption | apply Forall_nil_2].
  - apply andb_true_iff in Hwf as [_ Hbody].
    induction IH as [|b body Hb _ IHbody]; cbn [flat_map]; [apply Forall_nil_2|].
    cbn [forallb] in Hbody. apply andb_true_iff in Hbody as [H1 H2].
    apply Forall_app. split; [now apply Hb | now apply IHbody].
Qed.

Lemma tokens_all_ok (ok : Stamp -> bool) (doc : list Segment) :
  forallb (well_formed ok) doc = true ->
  Forall (fun st => ok st = true) (flat_map tokens doc).
Proof.
  induction doc as [|b doc IH]; cbn [forallb flat_map]; intros H;
    [apply Forall_nil_2|].
  apply andb_true_iff in H as [H1 H2].
  apply Forall_app. split; [now apply tokens_ok | now apply IH].
Qed.

Lemma Forall2_map_diag {A B} (P : B -> A -> Prop) (F : A -> B) (l : list A) :
  Forall (fun a => P (F a) a) l -> Forall2 P (map F l) l.
Proof. induction 1; cbn [map]; constructor; assumption. Qed.

(** Saving, loading again, and letting the reattach timer fire. *)
Lemma save_and_reload (s : State) (f : string) (editor : list node) (now later : Z) :
  videoFilename s = Some f -> truthy_string f = true ->
  editorRef s = Some editor -> timers s = [] -> now <= later ->
  editorRef (advance later (activate (Some f) now (saveNotes s)))
    = Some (if truthy_markup (innerHTML editor)
            then map (reattach (seekToTime s)) (set_innerHTML (innerHTML editor))
            else []).
Proof.
  intros Hv Hf He Hts Hle.
  destruct s as [vf gt gf sk hc lb er ar ls ts nt lg].
  cbn in Hv, He, Hts. subst vf er ts.
  unfold saveNotes, activate, loadNotes. cbn. rewrite Hf. cbn. rewrite Hf.
  rewrite lookup_insert_eq.
  destruct (truthy_markup (innerHTML editor)) eqn:Et; [|reflexivity].
  unfold advance. cbn.
  destruct (now + 0 <=? later) eqn:E; [|lia].
  unfold fire. cbn. reflexivity.
Qed.

End ReloadedStamps.

(** C3. A document is saved, loaded again and its stamp listeners are
    reattached.  The stamp buttons of the reloaded document correspond
    one to one, in order, to the stamps of the original; the id, type,
    value and label read from each button's data attributes are those
    of its stamp; and each button carries exactly one click listener,
    bound to the stamp read from that same button, so that a click
    navigates to that stamp alone. *)
Theorem C3_stamps_survive_reload :
  forall (s : State) (f : string) (doc : list Segment) (k0 : bool)
         (now later : Z),
    videoFilename s = Some f -> truthy_string f = true ->
    editorRef s = Some (map (render k0) doc) ->
    timers s = [] ->
    forallb (well_formed printable) doc = true ->
    now <= later ->
    let s' := advance later (activate (Some f) now (saveNotes s)) in
    exists editor' : list node,
      editorRef s' = Some editor'
      /\ Forall2
           (fun (b : node) (st : Stamp) =>
              stamp_equiv (stamp_of_dataset b) st
              /\ listeners_of b = [mkListener (stamp_of_dataset b) (seekToTime s)]
              /\ forall s0 : State,
                  fold_left (fun acc l => run_listener l acc) (listeners_of b) s0
                    = handleStampClick (seekToTime s) (stamp_of_dataset b)
                        (emit preventDefault s0))
           (querySelectorAll_stamps editor') (flat_map tokens doc).
Proof.
  intros s f doc k0 now later Hv Hf He Hts Hwf Hle. cbv zeta.
  rewrite (save_and_reload s f _ now later Hv Hf He Hts Hle).
  eexists. split; [reflexivity|].
  destruct (truthy_markup (innerHTML (map (render k0) doc))) eqn:Et.
  - rewrite (query_reload_document printable) by assumption.
    apply Forall2_map_diag.
    eapply Forall_impl; [apply tokens_all_ok, Hwf|].
    intros st Hp. cbn beta in Hp.
    rewrite reload_stampButton_listeners, reload_stampButton_dataset.
    split; [now apply stamp_of_dataset_stampButton|].
    split; reflexivity.
  - rewrite (tokens_of_empty_markup k0 doc Et). constructor.
Qed.

Lemma C3_reload_witness :
  exists editor' : list node,
    editorRef (advance 10 (activate (Some "clip.mp4") 5 (saveNotes saved_state)))
      = Some editor'
    /\ Forall2
         (fun (b : node) (st : Stamp) =>
            stamp_equiv (stamp_of_dataset b) st
            /\ listeners_of b = [mkListener (stamp_of_dataset b) true]
            /\ forall s0 : State,
                fold_left (fun acc l => run_listener l acc) (listeners_of b) s0
                  = handleStampClick true (stamp_of_dataset b)
                      (emit preventDefault s0))
         (querySelectorAll_stamps editor')
         [mkStamp "time-1700000000000" "time" (Fin 12.5) "Timestamp";
          mkStamp "frame-1700000000500" "frame" (Fin 90) "Frame"].
Proof.
  apply (C3_stamps_survive_reload saved_state "clip.mp4" sample_document true 5 10);
    try reflexivity; lia.
Defined.

(* ================================================================== *)
(** * Saved notes come back as they were *)
(* ================================================================== *)

Section Compact.

Lemma truthy_append_l (s t : string) :
  truthy_string s = true -> truthy_string (s +:+ t) = true.
Proof. destruct s; [discriminate | reflexivity]. Qed.

Lemma compact_coalesce (ms : list markup) : compact (coalesce ms) = true.
Proof.
  induction ms as [|m ms IH]; [reflexivity|].
  destruct m as [s | tag attrs cs]; cbn [coalesce]; [|exact IH].
  destruct (coalesce ms) as [|[t | tag attrs cs] rest] eqn:E.
  - destruct (truthy_string s) eqn:Hs; cbn [compact]; [now rewrite Hs | reflexivity].
  - cbn [compact] in IH |- *.
    apply andb_true_iff in IH as [IH Hrest].
    apply andb_true_iff in IH as [Ht Hnext].
    now rewrite truthy_append_r, Hnext, Hrest.
  - destruct (truthy_string s) eqn:Hs; cbn [compact] in IH |- *;
      [now rewrite Hs, IH | exact IH].
Qed.

Lemma coalesce_compact (ms : list markup) : compact ms = true -> coalesce ms = ms.
Proof.
  induction ms as [|m ms IH]; [reflexivity|].
  destruct m as [s | tag attrs cs]; cbn [compact coalesce]; intros H.
  - apply andb_true_iff in H as [H Hrest].
    apply andb_true_iff in H as [Hs Hnext].
    rewrite (IH Hrest). destruct ms as [|[t | tag attrs cs] rest].
    + now rewrite Hs.
    + discriminate.
    + now rewrite Hs.
  - now rewrite IH.
Qed.

Lemma coalesce_idempotent (ms : list markup) : coalesce (coalesce ms) = coalesce ms.
Proof. apply coalesce_compact, compact_coalesce. Qed.

Lemma compact_falsy_nil (ms : list markup) :
  compact ms = true -> truthy_markup ms = false -> ms = [].
Proof.
  destruct ms as [|[s | tag attrs cs] rest]; [reflexivity | |];
    cbn [compact truthy_markup existsb]; intros Hc Ht.
  - apply andb_true_iff in Hc as [Hc _]. apply andb_true_iff in Hc as [Hs _].
    now rewrite Hs in Ht.
  - discriminate.
Qed.

Lemma coalesce_Forall (P : markup -> Prop) (ms : list markup) :
  (forall s, P (MText s)) -> Forall P ms -> Forall P (coalesce ms).
Proof.
  intros Htext. induction 1 as [|m ms Hm _ IH]; [apply Forall_nil_2|].
  destruct m as [s | tag attrs cs]; cbn [coalesce].
  - destruct (coalesce ms) as [|[t | tag attrs cs] rest].
    + destruct (truthy_string s); [apply Forall_cons_2; auto | apply Forall_nil_2].
    + apply Forall_cons_2; [apply Htext | now inversion IH].
    + destruct (truthy_string s); [apply Forall_cons_2; auto | exact IH].
  - apply Forall_cons_2; assumption.
Qed.

(** Parsing what was serialised and serialising again changes nothing. *)
Lemma serialize_parse_serialize (n : node) :
  serialize (parse (serialize n)) = serialize n.
Proof.
  induction n as [s | tag attrs ls cs IH] using node_rect'; [reflexivity|].
  cbn [serialize parse]. f_equal. rewrite map_map.
  rewrite (map_ext_Forall (fun m => serialize (parse m)) (fun m => m)).
  - rewrite map_id. apply coalesce_idempotent.
  - apply coalesce_Forall; [reflexivity|].
    apply Forall_map. exact IH.
Qed.

Lemma innerHTML_set_innerHTML (cs : list node) :
  innerHTML (set_innerHTML (innerHTML cs)) = innerHTML cs.
Proof.
  unfold innerHTML, set_innerHTML. rewrite map_map.
  rewrite (map_ext_Forall (fun m => serialize (parse m)) (fun m => m)).
  - rewrite map_id. apply coalesce_idempotent.
  - apply coalesce_Forall; [reflexivity|].
    apply Forall_map, Forall_forall. intros c _. apply serialize_parse_serialize.
Qed.

End Compact.

(** The notes that [saveNotes] stores are the notes the load effect
    shows: after a save and a reload of the same video the editor holds
    the markup it held, the record is that markup, and nothing is marked
    as changed. *)
Theorem save_then_load_restores_markup :
  forall (s : State) (f : string) (editor : list node) (now later : Z),
    videoFilename s = Some f -> truthy_string f = true ->
    editorRef s = Some editor -> timers s = [] -> now <= later ->
    let s' := advance later (activate (Some f) now (saveNotes s)) in
    option_map innerHTML (editorRef s') = Some (innerHTML editor)
    /\ localStorage s' !! storage_key f = Some (innerHTML editor)
    /\ hasChanges s' = false
    /\ timers s' = [].
Proof.
  intros s f editor now later Hv Hf He Hts Hle. cbv zeta.
  split.
  - rewrite (save_and_reload s f editor now later Hv Hf He Hts Hle).
    cbn [option_map]. f_equal.
    destruct (truthy_markup (innerHTML editor)) eqn:Et.
    + rewrite innerHTML_reattach. apply innerHTML_set_innerHTML.
    + symmetry. apply compact_falsy_nil; [apply compact_coalesce | exact Et].
  - destruct s as [vf gt gf sk hc lb er ar ls ts nt lg].
    cbn in Hv, He, Hts. subst vf er ts.
    unfold saveNotes, activate, loadNotes. cbn. rewrite Hf. cbn. rewrite Hf.
    rewrite lookup_insert_eq.
    destruct (truthy_markup (innerHTML editor)) eqn:Et.
    + unfold advance. cbn.
      destruct (now + 0 <=? later) eqn:E; [|lia].
      unfold fire. cbn.
      rewrite (decide_False (P := nt <> nt)) by lia.
      rewrite lookup_insert_eq. auto.
    + unfold advance. cbn. rewrite lookup_insert_eq. auto.
Qed.

Lemma save_then_load_witness :
  option_map innerHTML
    (editorRef (advance 10 (activate (Some "clip.mp4") 5 (saveNotes saved_state))))
    = Some (innerHTML (map (render true) sample_document)).
Proof.
  apply (save_then_load_restores_markup saved_state "clip.mp4"
           (map (render true) sample_document) 5 10);
    try reflexivity; lia.
Defined.

(* ================================================================== *)
(** * Reattaching listeners again and again *)
(* ================================================================== *)

Section Reattaching.

Lemma cloneNode_idempotent (n : node) : cloneNode (cloneNode n) = cloneNode n.
Proof.
  induction n as [s | tag attrs ls cs IH] using node_rect'; [reflexivity|].
  cbn [cloneNode]. f_equal. rewrite map_map. now apply map_ext_Forall.
Qed.

Lemma reattach_idempotent (k : bool) (n : node) :
  reattach k (reattach k n) = reattach k n.
Proof.
  induction n as [s | tag attrs ls cs IH] using node_rect'; [reflexivity|].
  cbn [reattach is_stamp_button].
  destruct (String.eqb tag "button" && hasAttribute "data-stamp-id" attrs) eqn:E;
    cbn [reattach is_stamp_button]; rewrite E.
  - f_equal. rewrite map_map. apply map_ext_Forall, Forall_forall.
    intros c _. apply cloneNode_idempotent.
  - f_equal. rewrite map_map. now apply map_ext_Forall.
Qed.

(** A clone carries no listener, nor does anything below it. *)
Lemma cloneNode_no_listeners (n : node) :
  listeners_of (cloneNode n) = []
  /\ Forall (fun b => listeners_of b = []) (matching_descendants (cloneNode n)).
Proof.
  induction n as [s | tag attrs ls cs IH] using node_rect';
    [split; [reflexivity | apply Forall_nil_2]|].
  split; [reflexivity|]. cbn [cloneNode matching_descendants].
  induction IH as [|c cs [Hc1 Hc2] _ IHcs]; cbn [map flat_map]; [apply Forall_nil_2|].
  apply Forall_app. split; [|exact IHcs].
  apply Forall_app. split; [|exact Hc2].
  destruct (is_stamp_button (cloneNode c)); [|apply Forall_nil_2].
  apply Forall_cons_2; [exact Hc1 | apply Forall_nil_2].
Qed.

Lemma reattach_listeners (k : bool) (n : node) :
  Forall (fun b => (length (listeners_of b) <= 1)%nat)
         (query (reattach k n)).
Proof.
  induction n as [s | tag attrs ls cs IH] using node_rect'; [apply Forall_nil_2|].
  unfold query. cbn [reattach is_stamp_button].
  destruct (String.eqb tag "button" && hasAttribute "data-stamp-id" attrs) eqn:E;
    cbn [is_stamp_button]; rewrite E.
  - apply Forall_cons_2; [cbn; lia|].
    cbn [app matching_descendants].
    clear IH. induction cs as [|c cs IHcs]; cbn [map flat_map]; [apply Forall_nil_2|].
    destruct (cloneNode_no_listeners c) as [Hc1 Hc2].
    apply Forall_app. split; [|exact IHcs].
    apply Forall_app. split.
    + destruct (is_stamp_button (cloneNode c)); [|apply Forall_nil_2].
      apply Forall_cons_2; [rewrite Hc1; cbn; lia | apply Forall_nil_2].
    + eapply Forall_impl; [exact Hc2|]. intros b ->. cbn; lia.
  - cbn [app matching_descendants].
    induction IH as [|c cs Hc _ IHcs]; cbn [map flat_map]; [apply Forall_nil_2|].
    apply Forall_app. split; [exact Hc | exact IHcs].
Qed.

End Reattaching.

(** [reattachStampListeners] may run any number of times: a second run
    changes nothing, no run changes the markup, and afterwards no stamp
    button carries more than one click listener, whatever listeners the
    buttons carried before. *)
Theorem reattach_never_stacks_listeners :
  forall (k : bool) (s : State),
    let s1 := reattachStampListeners k s in
    reattachStampListeners k s1 = s1
    /\ option_map innerHTML (editorRef s1) = option_map innerHTML (editorRef s)
    /\ (forall editor', editorRef s1 = Some editor' ->
          Forall (fun b => (length (listeners_of b) <= 1)%nat)
                 (querySelectorAll_stamps editor')).
Proof.
  intros k s. unfold reattachStampListeners.
  destruct s as [vf gt gf sk hc lb er ar ls ts nt lg]. cbn.
  destruct er as [editor|]; cbn; [|repeat split; discriminate].
  split; [| split].
  - unfold set_editorRef. cbn. do 2 f_equal. rewrite map_map.
    apply map_ext_Forall, Forall_forall. intros n _. apply reattach_idempotent.
  - f_equal. apply innerHTML_reattach.
  - intros editor' [= <-]. unfold querySelectorAll_stamps.
    induction editor as [|n editor IH]; cbn [map flat_map]; [apply Forall_nil_2|].
    apply Forall_app. split; [apply (reattach_listeners k n) | exact IH].
Qed.

Lemma reattach_never_stacks_witness :
  match editorRef (reattachStampListeners true
                     (state_of (insertTimestamp None 1700000000000 sample_state)))
  with
  | Some editor' =>
      Forall (fun b => (length (listeners_of b) <= 1)%nat)
             (querySelectorAll_stamps editor')
  | None => False
  end.
Proof.
  destruct (reattach_never_stacks_listeners true
              (state_of (insertTimestamp None 1700000000000 sample_state)))
    as (_ & _ & H).
  exact (H _ eq_refl).
Defined.

(* ================================================================== *)
(** * What pending timers can still do *)
(* ================================================================== *)

Section Pending.

Lemma advance_steps_preserves (P : State -> Prop) :
  (forall cb ts n s, P s -> P (run_callback cb (set_timers ts n s))) ->
  forall fuel now s, P s -> P (advance_steps fuel now s).
Proof.
  intros HP. induction fuel as [|fuel IH]; intros now s Hs; cbn [advance_steps];
    [exact Hs|].
  destruct (earliest (timers s)) as [t|]; [|exact Hs].
  destruct (timer_due t <=? now); [|exact Hs].
  apply IH. unfold fire. now apply HP.
Qed.

Lemma advance_preserves (P : State -> Prop) :
  (forall cb ts n s, P s -> P (run_callback cb (set_timers ts n s))) ->
  forall now s, P s -> P (advance now s).
Proof. intros HP now s. unfold advance. now apply advance_steps_preserves. Qed.

(** Without an editor element no timer callback does anything. *)
Lemma advance_without_editor (later : Z) (s : State) :
  editorRef s = None ->
  let s' := advance later s in
  editorRef s' = None /\ localStorage s' = localStorage s /\ log s' = log s
  /\ hasChanges s' = hasChanges s /\ videoFilename s' = videoFilename s.
Proof.
  intros He.
  apply (advance_preserves
           (fun s' => editorRef s' = None /\ localStorage s' = localStorage s
                      /\ log s' = log s /\ hasChanges s' = hasChanges s
                      /\ videoFilename s' = videoFilename s));
    [|split_ands; auto].
  intros cb ts n s0 (H1 & H2 & H3 & H4 & H5).
  destruct cb as [f | k]; cbn [run_callback].
  - unfold autoSave. cbn [editorRef set_timers]. rewrite H1.
    destruct f; cbn; split_ands; assumption.
  - unfold reattachStampListeners. cbn [editorRef set_timers]. rewrite H1.
    cbn. split_ands; assumption.
Qed.

End Pending.

(** When the panel is unmounted nothing is written any more: whatever
    timers were pending, the stored records and the effects stay as they
    were at the unmount, so an edit made less than a second earlier is
    never saved.  The autosave that was pending is cancelled as well. *)
Theorem unmount_never_writes :
  forall (s : State) (later : Z),
    localStorage (advance later (unmount s)) = localStorage s
    /\ log (advance later (unmount s)) = log s
    /\ (TimerInv s -> pending_autosaves (unmount s) = []).
Proof.
  intros s later.
  destruct (advance_without_editor later (unmount s) eq_refl) as (_ & -> & -> & _).
  unfold unmount. cbn [localStorage log set_editorRef].
  rewrite clear_pending_autosave_localStorage, clear_pending_autosave_log.
  split; [reflexivity | split; [reflexivity|]].
  intros Hinv. unfold pending_autosaves. cbn [timers set_editorRef].
  destruct (clear_pending_autosave_timers s Hinv) as (_ & H).
  exact H.
Qed.

Lemma unmount_never_writes_witness :
  pending_autosaves (dispatch 0 (Input [TextNode "typed"]) sample_state) <> []
  /\ pending_autosaves
       (unmount (dispatch 0 (Input [TextNode "typed"]) sample_state)) = [].
Proof.
  split; [discriminate|].
  destruct (unmount_never_writes
              (dispatch 0 (Input [TextNode "typed"]) sample_state) 5000)
    as (_ & _ & H).
  apply H. constructor; cbn.
  - lia.
  - repeat constructor.
  - apply NoDup_singleton.
  - repeat constructor.
Defined.

(** A change of video to none (the page's unload button) within a second
    of typing: the editor element goes away, the autosave stays armed
    and fires, but finds no editor and writes nothing.  What was typed
    is never stored; the record on file is the one from before. *)
Theorem unload_drops_pending_edits :
  forall (s : State) (f : string) (content : list node) (t0 t1 later : Z),
    videoFilename s = Some f -> truthy_string f = true ->
    is_some (editorRef s) = true -> timers s = [] ->
    t0 <= t1 < t0 + 1000 ->
    let s1 := dispatch t0 (Input content) s in
    let s2 := dispatch t1 (Activate None) (advance t1 s1) in
    pending_autosaves s2
      = [mkTimer (nextTimerId s) (t0 + 1000) (AutoSaveCb (Some f))]
    /\ editorRef (advance later s2) = None
    /\ localStorage (advance later s2) = localStorage s
    /\ log (advance later s2) = log s.
Proof.
  intros s f content t0 t1 later Hv Hf He Hts Ht.
  destruct s as [vf gt gf sk hc lb er ar ls ts nt lg].
  cbn in Hv, He, Hts. subst vf ts. destruct er as [editor|]; [|discriminate].
  cbv zeta. cbn [dispatch editorRef].
  set (s0 := set_editorRef _ _).
  assert (H1 : handleInput t0 s0
               = mkState (Some f) gt gf sk true lb (Some content) (Some nt) ls
                         [mkTimer nt (t0 + 1000) (AutoSaveCb (Some f))] (S nt) lg).
  { unfold handleInput, reschedule_autosave, setTimeout, clear_pending_autosave,
      clearTimeout, s0. cbn.
    destruct ar as [id|]; [destruct (id =? 0)%nat|]; reflexivity. }
  rewrite H1. clear H1 s0.
  assert (H2 : advance t1 (mkState (Some f) gt gf sk true lb (Some content) (Some nt) ls
                         [mkTimer nt (t0 + 1000) (AutoSaveCb (Some f))] (S nt) lg)
               = mkState (Some f) gt gf sk true lb (Some content) (Some nt) ls
                         [mkTimer nt (t0 + 1000) (AutoSaveCb (Some f))] (S nt) lg).
  { unfold advance. cbn. destruct (t0 + 1000 <=? t1) eqn:E; [lia | reflexivity]. }
  rewrite H2. clear H2.
  split; [reflexivity|].
  match goal with |- context [advance later ?s2] =>
    destruct (advance_without_editor later s2 eq_refl) as (-> & -> & -> & _)
  end.
  repeat split.
Qed.

Lemma unload_drops_pending_edits_witness :
  localStorage
    (advance 5000
       (dispatch 600 (Activate None)
          (advance 600 (dispatch 100 (Input [TextNode "typed"]) sample_state))))
  = ∅.
Proof.
  destruct (unload_drops_pending_edits sample_state "clip.mp4" [TextNode "typed"]
              100 600 5000 eq_refl eq_refl eq_refl eq_refl ltac:(lia))
    as (_ & _ & H & _).
  exact H.
Defined.

(* ================================================================== *)
(** * Clearing the notes *)
(* ================================================================== *)

Section EmptyEditor.

(** With an empty editor every timer callback leaves the editor empty,
    and a record it writes is the empty one. *)
Lemma advance_empty_editor (later : Z) (s : State) :
  editorRef s = Some [] ->
  let s' := advance later s in
  editorRef s' = Some []
  /\ forall k, localStorage s' !! k = localStorage s !! k
               \/ localStorage s' !! k = Some [].
Proof.
  intros He.
  apply (advance_preserves
           (fun s' => editorRef s' = Some []
                      /\ forall k, localStorage s' !! k = localStorage s !! k
                                   \/ localStorage s' !! k = Some []));
    [|split; [exact He | now left]].
  intros cb ts n s0 (H1 & H2).
  destruct cb as [g | k]; cbn [run_callback].
  - unfold autoSave. cbn [editorRef set_timers]. rewrite H1.
    destruct g as [g|]; [|cbn; auto].
    destruct (truthy_string g); [|cbn; auto].
    cbn. split; [exact H1|]. intros k.
    destruct (decide (storage_key g = k)) as [<- | Hne].
    + right. apply lookup_insert_eq.
    + rewrite lookup_insert_ne by exact Hne. apply H2.
  - unfold reattachStampListeners. cbn [editorRef set_timers]. rewrite H1.
    cbn. auto.
Qed.

End EmptyEditor.

(** A confirmed [clearNotes] removes the record of the active video and
    empties the editor; a declined one changes nothing.  Timers that are
    still pending cannot bring the notes back: at any later time the
    editor is empty and the record is absent or empty, and loading the
    video again shows an empty editor. *)
Theorem clearNotes_leaves_nothing_behind :
  forall (s : State) (f : string) (later reload : Z),
    videoFilename s = Some f -> truthy_string f = true ->
    is_some (editorRef s) = true ->
    let s1 := clearNotes true s in
    clearNotes false s = s
    /\ localStorage s1 = delete (storage_key f) (localStorage s)
    /\ editorRef s1 = Some [] /\ hasChanges s1 = false
    /\ log s1 = toast_success "Notes deleted" :: removeItem (storage_key f) :: log s
    /\ editorRef (advance later s1) = Some []
    /\ (localStorage (advance later s1) !! storage_key f = None
        \/ localStorage (advance later s1) !! storage_key f = Some [])
    /\ editorRef (activate (Some f) reload (advance later s1)) = Some [].
Proof.
  intros s f later reload Hv Hf He. cbv zeta.
  destruct (editorRef s) as [editor|] eqn:Ee; [|discriminate].
  assert (Hc : clearNotes true s
               = emit (toast_success "Notes deleted")
                   (setHasChanges false
                      (set_editorRef (Some (set_innerHTML []))
                         (localStorage_removeItem (storage_key f) s)))).
  { unfold clearNotes. now rewrite Hv, Ee, Hf. }
  split; [unfold clearNotes; now rewrite Hv, Ee, Hf|].
  rewrite Hc. clear Hc.
  set (s1 := emit _ _).
  assert (Hs1 : editorRef s1 = Some []) by reflexivity.
  assert (Hl1 : localStorage s1 = delete (storage_key f) (localStorage s))
    by reflexivity.
  destruct (advance_empty_editor later s1 Hs1) as (Ha & Hb).
  assert (Hk : localStorage (advance later s1) !! storage_key f = None
               \/ localStorage (advance later s1) !! storage_key f = Some []).
  { destruct (Hb (storage_key f)) as [H | H]; [left | now right].
    rewrite H, Hl1. apply lookup_delete_eq. }
  split; [exact Hl1|]. split; [exact Hs1|]. split; [reflexivity|].
  split; [reflexivity|]. split; [exact Ha|]. split; [exact Hk|].
  unfold activate. cbn [truthy]. rewrite Hf.
  cbn [editorRef set_videoFilename]. rewrite Ha.
  unfold loadNotes. cbn [videoFilename editorRef localStorage set_videoFilename].
  rewrite Ha, Hf.
  destruct Hk as [-> | ->]; reflexivity.
Qed.

Lemma clearNotes_witness :
  editorRef
    (activate (Some "clip.mp4") 3000
       (advance 2000
          (clearNotes true (dispatch 100 (Input [TextNode "typed"]) sample_state))))
  = Some [].
Proof.
  destruct (clearNotes_leaves_nothing_behind
              (dispatch 100 (Input [TextNode "typed"]) sample_state)
              "clip.mp4" 2000 3000 eq_refl eq_refl eq_refl)
    as (_ & _ & _ & _ & _ & _ & _ & H).
  exact H.
Defined.

(* ================================================================== *)
(** * One record per video *)
(* ================================================================== *)

Section Records.

Lemma storage_key_injective (f g : string) : storage_key f = storage_key g -> f = g.
Proof. unfold storage_key. cbn. now intros [= ->]. Qed.

Ltac storage_cases :=
  repeat match goal with
         | |- context [match ?x with _ => _ end] => destruct x eqn:?
         end;
  cbn; rewrite ?clear_pending_autosave_localStorage; try reflexivity.

Lemma handleStampClick_storage k stamp s :
  localStorage (handleStampClick k stamp s) = localStorage s.
Proof. unfold handleStampClick. storage_cases. Qed.

Lemma listeners_storage (ls : list ClickListener) (s : State) :
  localStorage (fold_left (fun s l => run_listener l s) ls s) = localStorage s.
Proof.
  revert s. induction ls as [|l ls IH]; intros s; cbn [fold_left]; [reflexivity|].
  rewrite IH. unfold run_listener. now rewrite handleStampClick_storage.
Qed.

Lemma reschedule_autosave_storage delay now f s :
  localStorage (reschedule_autosave delay now f s) = localStorage s.
Proof.
  unfold reschedule_autosave, setTimeout. cbn.
  apply clear_pending_autosave_localStorage.
Qed.

Lemma insertStampButton_storage stamp text selection now s :
  localStorage (state_of (insertStampButton stamp text selection now s))
    = localStorage s.
Proof.
  unfold insertStampButton.
  destruct (editorRef s) as [ed|]; [|reflexivity].
  destruct (getRangeAt0 selection) as [e|range]; [reflexivity|].
  cbn [state_of]. rewrite reschedule_autosave_storage. storage_cases.
Qed.

Lemma and_then_emit_storage (o : Outcome) (e : Effect) :
  localStorage (uncaught_of (and_then o (emit e))) = localStorage (state_of o).
Proof. destruct o; reflexivity. Qed.

Lemma loadNotes_storage now s : localStorage (loadNotes now s) = localStorage s.
Proof. unfold loadNotes. storage_cases. Qed.

Lemma activate_storage f now s : localStorage (activate f now s) = localStorage s.
Proof. unfold activate. rewrite loadNotes_storage. storage_cases. Qed.

(** An event handler touches at most the record of the active video. *)
Lemma dispatch_storage (now : Z) (ev : Event) (s : State) (k : string) :
  (forall f, videoFilename s = Some f -> k <> storage_key f) ->
  localStorage (dispatch now ev s) !! k = localStorage s !! k.
Proof.
  intros Hk. destruct ev; cbn [dispatch].
  - destruct (editorRef s); [|reflexivity]. unfold handleInput.
    now rewrite reschedule_autosave_storage.
  - unfold handleKeyDown.
    repeat match goal with
           | |- context [match ?x with _ => _ end] => destruct x eqn:?
           end; reflexivity.
  - unfold insertTimestamp.
    destruct (getCurrentTime s), (videoFilename s) as [f|], (editorRef s);
      try reflexivity.
    destruct (truthy_string f); [|reflexivity].
    now rewrite and_then_emit_storage, insertStampButton_storage.
  - unfold insertFrameStamp.
    destruct (getCurrentFrame s), (videoFilename s) as [f|], (editorRef s);
      try reflexivity.
    destruct (truthy_string f); [|reflexivity].
    now rewrite and_then_emit_storage, insertStampButton_storage.
  - unfold saveNotes.
    destruct (videoFilename s) as [f|] eqn:Hv; [|reflexivity].
    destruct (editorRef s); [|reflexivity].
    destruct (truthy_string f); [|reflexivity].
    cbn. apply lookup_insert_ne. intros E. now apply (Hk f).
  - unfold clearNotes.
    destruct (videoFilename s) as [f|] eqn:Hv; [|reflexivity].
    destruct (editorRef s); [|reflexivity].
    destruct (truthy_string f); [|reflexivity].
    destruct confirmed; [|reflexivity].
    cbn. apply lookup_delete_ne. intros E. now apply (Hk f).
  - unfold exportNotes.
    repeat match goal with
           | |- context [match ?x with _ => _ end] => destruct x eqn:?
           end; reflexivity.
  - destruct (editorRef s) as [ed|]; [|reflexivity].
    destruct (node_at ed p) as [[d|tag attrs ls cs]|]; try reflexivity.
    now rewrite listeners_storage.
  - now rewrite activate_storage.
  - reflexivity.
Qed.

(** ** Keys out of reach *)

Variable k : string.

Lemma out_of_reach_frame (s s' : State) :
  videoFilename s' = videoFilename s -> timers s' = timers s ->
  out_of_reach k s -> out_of_reach k s'.
Proof. unfold out_of_reach. now intros -> ->. Qed.

Lemma out_of_reach_fewer (s s' : State) :
  videoFilename s' = videoFilename s ->
  (forall t, t ∈ timers s' -> t ∈ timers s) ->
  out_of_reach k s -> out_of_reach k s'.
Proof.
  unfold out_of_reach. intros -> Hsub [Hv Ht]. split; [exact Hv|].
  rewrite Forall_forall in Ht |- *. intros t Hin. apply Ht, Hsub, Hin.
Qed.

Lemma clear_pending_autosave_reach (s : State) :
  out_of_reach k s -> out_of_reach k (clear_pending_autosave s).
Proof.
  apply out_of_reach_fewer.
  - apply clear_pending_autosave_videoFilename.
  - unfold clear_pending_autosave, clearTimeout.
    destruct (autoSaveTimeoutRef s) as [id|]; [destruct (id =? 0)%nat|];
      cbn; auto.
    intros t Ht. now apply list_elem_of_filter in Ht.
Qed.

Lemma reschedule_autosave_reach (delay now : Z) (captured : option string)
      (s : State) :
  out_of_reach k s -> captured = videoFilename s ->
  out_of_reach k (reschedule_autosave delay now captured s).
Proof.
  intros H ->. pose proof (clear_pending_autosave_reach s H) as [Hv Ht].
  unfold reschedule_autosave, setTimeout. cbn.
  split; [exact Hv|]. cbn. apply Forall_app. split; [exact Ht|].
  constructor; [|constructor]. cbn. intros f [= E].
  apply (proj1 H). exact E.
Qed.

Lemma insertStampButton_reach stamp text selection now (s : State) :
  out_of_reach k s ->
  out_of_reach k (state_of (insertStampButton stamp text selection now s)).
Proof.
  intros H. unfold insertStampButton.
  destruct (editorRef s) as [ed|]; [|exact H].
  destruct (getRangeAt0 selection) as [e|range]; [exact H|].
  cbn [state_of].
  apply reschedule_autosave_reach;
    (destruct range as [r|];
     [destruct (editor_contains_range r);
      [destruct (insert_at_range _ r ed) as [ed' [pa off]]|]|]);
    first [exact H | reflexivity].
Qed.

Lemma uncaught_of_and_then_reach (o : Outcome) (e : Effect) :
  out_of_reach k (state_of o) ->
  out_of_reach k (uncaught_of (and_then o (emit e))).
Proof. destruct o; exact id. Qed.

Lemma listeners_reach (ls : list ClickListener) (s : State) :
  out_of_reach k s ->
  out_of_reach k (fold_left (fun s l => run_listener l s) ls s).
Proof.
  revert s. induction ls as [|l ls IH]; intros s H; cbn [fold_left]; [exact H|].
  apply IH. revert H. apply out_of_reach_frame;
    unfold run_listener, handleStampClick;
    repeat match goal with
           | |- context [if ?b then _ else _] => destruct b
           end; reflexivity.
Qed.

Lemma loadNotes_reach now (s : State) :
  out_of_reach k s -> out_of_reach k (loadNotes now s).
Proof.
  intros H. unfold loadNotes.
  destruct (videoFilename s) as [f|]; [|exact H].
  destruct (editorRef s) as [ed|]; [|exact H].
  destruct (truthy_string f); [|exact H].
  destruct (localStorage s !! storage_key f) as [saved|];
    [destruct (truthy_markup saved)|];
    destruct H as [Hv Ht]; (split; [exact Hv|]); cbn; try exact Ht.
  apply Forall_app. split; [exact Ht|].
  constructor; [|constructor]. cbn. discriminate.
Qed.

Lemma activate_reach (g : option string) now (s : State) :
  out_of_reach k s ->
  (forall f, g = Some f -> k <> storage_key f) ->
  out_of_reach k (activate g now s).
Proof.
  intros H Hg. unfold activate. apply loadNotes_reach.
  destruct (truthy g); [destruct (editorRef (set_videoFilename g s))|];
    destruct H as [Hv Ht]; split; cbn; auto.
Qed.

Lemma dispatch_reach (now : Z) (ev : Event) (s : State) :
  out_of_reach k s ->
  (forall f, ev = Activate (Some f) -> k <> storage_key f) ->
  out_of_reach k (dispatch now ev s).
Proof.
  intros H Hev. destruct ev; cbn [dispatch].
  - destruct (editorRef s) as [ed|]; [|exact H]. unfold handleInput.
    apply reschedule_autosave_reach; [exact H | reflexivity].
  - revert H. apply out_of_reach_frame; [|apply handleKeyDown_frame].
    unfold handleKeyDown.
    repeat match goal with
           | |- context [match ?x with _ => _ end] => destruct x eqn:?
           end; first [reflexivity | cbn; congruence].
  - unfold insertTimestamp.
    destruct (getCurrentTime s), (videoFilename s) as [f|] eqn:Ef, (editorRef s);
      try exact H.
    destruct (truthy_string f); [|exact H].
    apply uncaught_of_and_then_reach, insertStampButton_reach. exact H.
  - unfold insertFrameStamp.
    destruct (getCurrentFrame s), (videoFilename s) as [f|] eqn:Ef, (editorRef s);
      try exact H.
    destruct (truthy_string f); [|exact H].
    apply uncaught_of_and_then_reach, insertStampButton_reach. exact H.
  - revert H. apply out_of_reach_frame; [|apply saveNotes_frame].
    unfold saveNotes.
    repeat match goal with
           | |- context [match ?x with _ => _ end] => destruct x eqn:?
           end; first [reflexivity | cbn; congruence].
  - revert H. apply out_of_reach_frame; [|apply clearNotes_frame].
    unfold clearNotes.
    repeat match goal with
           | |- context [match ?x with _ => _ end] => destruct x eqn:?
           end; first [reflexivity | cbn; congruence].
  - revert H. apply out_of_reach_frame; [|apply exportNotes_frame].
    unfold exportNotes.
    repeat match goal with
           | |- context [match ?x with _ => _ end] => destruct x eqn:?
           end; first [reflexivity | cbn; congruence].
  - destruct (editorRef s) as [ed|]; [|exact H].
    destruct (node_at ed p) as [[d|tag attrs ls cs]|]; try exact H.
    now apply listeners_reach.
  - apply activate_reach; [exact H|]. intros f ->. now apply Hev.
  - exact H.
Qed.

(** A timer that fires writes, if at all, under the name it holds. *)
Lemma fire_reach (t : Timer) (s : State) :
  t ∈ timers s -> out_of_reach k s ->
  out_of_reach k (fire t s)
  /\ localStorage (fire t s) !! k = localStorage s !! k.
Proof.
  intros Hin H. split.
  - revert H. apply out_of_reach_fewer.
    + apply fire_timers.
    + destruct (fire_timers t s) as (-> & _).
      intros u Hu. now apply list_elem_of_filter in Hu.
  - destruct H as [_ Ht]. rewrite Forall_forall in Ht. specialize (Ht t Hin).
    unfold fire. destruct (timer_callback t) as [[f|]|kk] eqn:Ecb;
      cbn [run_callback].
    + unfold autoSave. cbn [editorRef set_timers].
      destruct (editorRef s) as [ed|]; [|reflexivity].
      destruct (truthy_string f); [|reflexivity].
      cbn. apply lookup_insert_ne. intros E. now apply (Ht f).
    + reflexivity.
    + unfold reattachStampListeners. cbn [editorRef set_timers].
      destruct (editorRef s); reflexivity.
Qed.

Lemma advance_steps_reach (fuel : nat) (now : Z) (s : State) :
  out_of_reach k s ->
  out_of_reach k (advance_steps fuel now s)
  /\ localStorage (advance_steps fuel now s) !! k = localStorage s !! k.
Proof.
  revert s. induction fuel as [|fuel IH]; intros s H; cbn [advance_steps];
    [now split|].
  destruct (earliest (timers s)) as [t|] eqn:Et; [|now split].
  destruct (timer_due t <=? now); [|now split].
  assert (Hin : t ∈ timers s) by (apply list_elem_of_In, earliest_In, Et).
  destruct (fire_reach t s Hin H) as [H1 E1].
  destruct (IH (fire t s) H1) as [H2 E2]. split; [exact H2|].
  now rewrite E2.
Qed.

Lemma run_reach (evs : list (Z * Event)) (s : State) :
  out_of_reach k s -> never_activates k evs ->
  out_of_reach k (run evs s)
  /\ localStorage (run evs s) !! k = localStorage s !! k.
Proof.
  revert s. induction evs as [|[now ev] evs IH]; intros s H Hevs; cbn [run];
    [now split|].
  apply Forall_cons in Hevs as [Hev Hevs]. cbn [snd] in Hev.
  destruct (advance_steps_reach (length (timers s)) now s H) as [H1 E1].
  fold (advance now s) in H1, E1.
  pose proof (dispatch_reach now ev _ H1 (fun f E => Hev f E)) as H2.
  destruct (IH _ H2 Hevs) as [H3 E3]. split; [exact H3|].
  rewrite E3, dispatch_storage by (apply H1). exact E1.
Qed.

End Records.

(** Records of different videos never share a key, and whatever
    happens, events and timers alike, a write goes to the record of the
    video that is active or, from a pending autosave, to the record of
    the video that was active when the autosave was armed: a key that is
    neither, and whose video no event of the run makes the active one,
    reads after the run and the timers that follow it as before. *)
Theorem writes_reach_only_videos_that_were_active :
  (forall f g : string, storage_key f = storage_key g -> f = g)
  /\ (forall (evs : list (Z * Event)) (s : State) (k : string) (later : Z),
         out_of_reach k s -> never_activates k evs ->
         localStorage (advance later (run evs s)) !! k = localStorage s !! k).
Proof.
  split; [exact storage_key_injective|].
  intros evs s k later H Hevs.
  destruct (run_reach k evs s H Hevs) as [H1 E1].
  destruct (advance_steps_reach k (length (timers (run evs s))) later _ H1)
    as [_ E2].
  unfold advance. now rewrite E2.
Qed.

Lemma writes_reach_witness :
  localStorage (advance 2000 (run [(100, Input [TextNode "notes for A"]);
                                   (600, Activate (Some "b.mp4"))] editing_A))
    !! storage_key "c.mp4"
  = localStorage editing_A !! storage_key "c.mp4".
Proof.
  destruct writes_reach_only_videos_that_were_active as (Hinj & H).
  apply H.
  - split.
    + intros f [= <-]. intros E. apply Hinj in E. discriminate.
    + constructor.
  - repeat constructor; cbn; try discriminate.
    intros f [= <-]. intros E. apply Hinj in E. discriminate.
Defined.

(* ================================================================== *)
(** * Switching between videos *)
(* ================================================================== *)

Section Switching.

(** A change of video with no timer pending, and time for the reattach
    timer to fire: the editor shows the record of the new video, and the
    storage is as before. *)
Lemma activate_settles (g : option string) (now later : Z) (s : State) :
  timers s = [] -> now <= later ->
  let s' := advance later (activate g now s) in
  editorRef s' = shown (seekToTime s) (localStorage s) g
  /\ localStorage s' = localStorage s
  /\ timers s' = []
  /\ videoFilename s' = g
  /\ seekToTime s' = seekToTime s
  /\ log s' = log s
  /\ (truthy g = true -> hasChanges s' = false).
Proof.
  intros Hts Hle.
  destruct s as [vf gt gf sk hc lb er ar ls ts nt lg]. cbn in Hts. subst ts.
  unfold activate, loadNotes, shown. cbn.
  destruct g as [f|]; cbn.
  - destruct (truthy_string f) eqn:Hf; cbn.
    + assert (E : forall (ed0 : list node),
                 let s0 := mkState (Some f) gt gf sk hc lb (Some ed0) ar ls [] nt lg in
                 let s1 := advance later
                   (setHasChanges false
                      match ls !! storage_key f with
                      | Some savedNotes =>
                          if truthy_markup savedNotes
                          then (setTimeout (ReattachCb sk) 0 now
                                  (set_editorRef (Some (set_innerHTML savedNotes)) s0)).2
                          else set_editorRef (Some (set_innerHTML [])) s0
                      | None => set_editorRef (Some (set_innerHTML [])) s0
                      end) in
                 editorRef s1
                   = match ls !! storage_key f with
                     | Some saved =>
                         if truthy_markup saved
                         then Some (map (reattach sk) (set_innerHTML saved))
                         else Some []
                     | None => Some []
                     end
                 /\ localStorage s1 = ls /\ timers s1 = []
                 /\ videoFilename s1 = Some f /\ seekToTime s1 = sk /\ log s1 = lg
                 /\ (true = true -> hasChanges s1 = false)).
      { intros ed0. cbv zeta.
        destruct (ls !! storage_key f) as [saved|]; [destruct (truthy_markup saved)|].
        - unfold advance. cbn.
          destruct (now + 0 <=? later) eqn:E; [|lia].
          unfold fire. cbn.
          rewrite (decide_False (P := nt <> nt)) by lia.
          split_ands; reflexivity.
        - unfold advance. cbn. split_ands; reflexivity.
        - unfold advance. cbn. split_ands; reflexivity. }
      destruct er as [ed|]; cbn; rewrite Hf; apply E.
    + unfold advance. cbn. split_ands; try reflexivity. discriminate.
  - unfold advance. cbn. split_ands; try reflexivity. discriminate.
Qed.

End Switching.

(** Saved notes survive a visit to another video: after a save and with
    no autosave pending, switching to any other video (or to none) and
    back shows the markup that was saved, and the record is untouched. *)
Theorem notes_survive_switching_videos :
  forall (s : State) (f : string) (g : option string) (editor : list node)
         (t1 t2 t3 t4 : Z),
    videoFilename s = Some f -> truthy_string f = true ->
    editorRef s = Some editor -> timers s = [] ->
    t1 <= t2 -> t3 <= t4 ->
    let away := advance t2 (activate g t1 (saveNotes s)) in
    let back := advance t4 (activate (Some f) t3 away) in
    editorRef away = shown (seekToTime s) (localStorage (saveNotes s)) g
    /\ option_map innerHTML (editorRef back) = Some (innerHTML editor)
    /\ localStorage back !! storage_key f = Some (innerHTML editor)
    /\ hasChanges back = false.
Proof.
  intros s f g editor t1 t2 t3 t4 Hv Hf He Hts H12 H34. cbv zeta.
  assert (Hsave : timers (saveNotes s) = [] /\ seekToTime (saveNotes s) = seekToTime s
                  /\ localStorage (saveNotes s) !! storage_key f
                     = Some (innerHTML editor)).
  { unfold saveNotes. rewrite Hv, He, Hf. cbn.
    split; [exact Hts | split; [reflexivity | apply lookup_insert_eq]]. }
  destruct Hsave as (Hts1 & Hk1 & Hrec).
  destruct (activate_settles g t1 t2 (saveNotes s) Hts1 H12)
    as (Ha1 & Ha2 & Ha3 & Ha4 & Ha5 & _ & _).
  rewrite Hk1 in Ha1.
  split; [exact Ha1|].
  destruct (activate_settles (Some f) t3 t4 _ Ha3 H34)
    as (Hb1 & Hb2 & _ & _ & _ & _ & Hb7).
  rewrite Hb1, Hb2, Ha2. unfold shown. rewrite Hf, Hrec.
  split; [| split; [reflexivity | now apply Hb7]].
  destruct (truthy_markup (innerHTML editor)) eqn:Et; cbn [option_map]; f_equal.
  - rewrite innerHTML_reattach. apply innerHTML_set_innerHTML.
  - symmetry. apply compact_falsy_nil; [apply compact_coalesce | exact Et].
Qed.

Lemma notes_survive_switching_witness :
  option_map innerHTML
    (editorRef
       (advance 40 (activate (Some "clip.mp4") 30
          (advance 20 (activate (Some "other.mp4") 10 (saveNotes saved_state))))))
  = Some (innerHTML (map (render true) sample_document)).
Proof.
  destruct (notes_survive_switching_videos saved_state "clip.mp4" (Some "other.mp4")
              (map (render true) sample_document) 10 20 30 40
              eq_refl eq_refl eq_refl eq_refl ltac:(lia) ltac:(lia))
    as (_ & H & _).
  exact H.
Defined.


(* ================================================================== *)
(** * Inserting needs a player, a video and an editor *)
(* ================================================================== *)

(** Without its accessor, without an active video or without an editor
    element, an insert button shows "Video player not ready" and does
    nothing else, whatever the selection: no stamp, no timer, no change
    of the dirty flag, and the selection is not even looked at. *)
Theorem insert_needs_a_ready_player :
  forall (selection : option Selection) (now : Z) (s : State),
    (getCurrentTime s = None \/ truthy (videoFilename s) = false
     \/ editorRef s = None ->
     insertTimestamp selection now s
       = Returns (emit (toast_error "Video player not ready") s))
    /\ (getCurrentFrame s = None \/ truthy (videoFilename s) = false
        \/ editorRef s = None ->
        insertFrameStamp selection now s
          = Returns (emit (toast_error "Video player not ready") s)).
Proof.
  intros selection now s. unfold insertTimestamp, insertFrameStamp.
  split; intros [H | [H | H]].
  - now rewrite H.
  - destruct (getCurrentTime s), (videoFilename s) as [f|], (editorRef s);
      cbn in H; try rewrite H; reflexivity.
  - rewrite H. destruct (getCurrentTime s), (videoFilename s); reflexivity.
  - now rewrite H.
  - destruct (getCurrentFrame s), (videoFilename s) as [f|], (editorRef s);
      cbn in H; try rewrite H; reflexivity.
  - rewrite H. destruct (getCurrentFrame s), (videoFilename s); reflexivity.
Qed.

Lemma insert_needs_a_ready_player_witness :
  insertTimestamp (Some []) 1000 idle_state
    = Returns (emit (toast_error "Video player not ready") idle_state).
Proof.
  destruct (insert_needs_a_ready_player (Some []) 1000 idle_state) as (H & _).
  apply H. right. left. reflexivity.
Defined.

(* ================================================================== *)
(** * Taking back an insertion *)
(* ================================================================== *)

Section TreeEdits.

Lemma substring_all (d : string) : String.substring 0 (String.length d) d = d.
Proof. induction d as [|c d IH]; cbn; [reflexivity | now rewrite IH]. Qed.

Lemma text_before_after (o : nat) (d : string) :
  text_before o d +:+ text_after o d = d.
Proof.
  unfold text_before, text_after. revert o.
  induction d as [|c d IH]; intros o.
  - destruct o; reflexivity.
  - destruct o as [|o].
    + cbn. now rewrite substring_all.
    + cbn. now rewrite IH.
Qed.

Lemma node_at_nil (p : path) : node_at [] p = None.
Proof. destruct p as [|i [|j p]]; reflexivity. Qed.

Lemma node_at_cons (cs : list node) (j : nat) (p : path) :
  p <> [] ->
  node_at cs (j :: p)
    = match cs !! j with
      | Some c => node_at (children_of c) p
      | None => None
      end.
Proof. destruct p; [congruence | reflexivity]. Qed.

Lemma snoc_not_nil (q : path) (i : nat) : q ++ [i] <> [].
Proof. destruct q; discriminate. Qed.

Lemma children_at_snoc (cs : list node) (q : path) (i : nat) (x : node) :
  node_at cs (q ++ [i]) = Some x ->
  exists l, children_at cs q = Some l /\ l !! i = Some x.
Proof.
  revert cs. induction q as [|j q IH]; intros cs.
  - cbn. intros H. now exists cs.
  - change ((j :: q) ++ [i]) with (j :: (q ++ [i])).
    rewrite node_at_cons by apply snoc_not_nil. cbn [children_at].
    destruct (cs !! j) as [[d | tag attrs ls cs']|]; cbn [children_of].
    + now rewrite node_at_nil.
    + apply IH.
    + discriminate.
Qed.

Lemma children_at_update (f : list node -> list node) (cs : list node) (q : path)
      (l : list node) :
  children_at cs q = Some l ->
  children_at (update_children q f cs) q = Some (f l).
Proof.
  revert cs. induction q as [|j q IH]; intros cs; cbn [children_at update_children].
  - now intros [= ->].
  - destruct (cs !! j) as [[d | tag attrs ls cs']|] eqn:Ec; try discriminate.
    intros Hl. rewrite list_lookup_alter_eq, Ec. cbn. now apply IH.
Qed.

Lemma update_children_twice (f g : list node -> list node) (q : path)
      (cs : list node) :
  update_children q g (update_children q f cs)
    = update_children q (fun l => g (f l)) cs.
Proof.
  revert cs. induction q as [|j q IH]; intros cs; cbn [update_children];
    [reflexivity|].
  rewrite list_alter_alter_eq. apply list_alter_ext; [|reflexivity].
  intros [d | tag attrs ls cs'] _; unfold compose; cbn [with_children];
    [reflexivity|].
  now rewrite IH.
Qed.

(** What [resolve] finds at a path whose children are known. *)
Lemma resolve_children (cs : list node) (q : path) (l : list node) :
  children_at cs q = Some l ->
  exists tag attrs ls next,
    resolve cs (InEditor q) = Some (Element tag attrs ls l, next).
Proof.
  intros Hl. unfold resolve.
  destruct (split_last q) as [[q0 j]|] eqn:Hq.
  - apply split_last_Some in Hq. subst q.
    assert (Hn : exists tag attrs ls,
               node_at cs (q0 ++ [j]) = Some (Element tag attrs ls l)).
    { clear -Hl. revert cs Hl. induction q0 as [|k q0 IH]; intros cs Hl.
      - cbn in *. destruct (cs !! j) as [[d | tag attrs ls cs']|]; try discriminate.
        injection Hl as <-. now exists tag, attrs, ls.
      - change ((k :: q0) ++ [j]) with (k :: (q0 ++ [j])) in *.
        rewrite node_at_cons by apply snoc_not_nil. cbn [children_at] in Hl.
        destruct (cs !! k) as [[d | tag attrs ls cs']|]; try discriminate.
        cbn [children_of]. now apply IH. }
    destruct Hn as (tag & attrs & ls & ->). eexists tag, attrs, ls, _. reflexivity.
  - apply split_last_None in Hq. subst q. cbn in Hl. injection Hl as <-.
    now exists "div", editor_attributes, [], None.
Qed.

Lemma coalesce_app_cong (a b b' : list markup) :
  coalesce b = coalesce b' -> coalesce (a ++ b) = coalesce (a ++ b').
Proof.
  intros H. induction a as [|m a IH]; [exact H|].
  destruct m; cbn [app coalesce]; now rewrite IH.
Qed.

Lemma coalesce_text_pair (tb ta : string) (rest : list markup) :
  coalesce (MText tb :: MText ta :: rest) = coalesce (MText (tb +:+ ta) :: rest).
Proof.
  cbn [coalesce].
  destruct (coalesce rest) as [|[t | tag attrs cs] r].
  - destruct ta as [|c ta].
    + rewrite append_nil_r. reflexivity.
    + cbn [truthy_string]. now rewrite truthy_append_r.
  - now rewrite append_assoc.
  - destruct ta as [|c ta].
    + rewrite append_nil_r. reflexivity.
    + cbn [truthy_string]. now rewrite truthy_append_r.
Qed.

Lemma map_alter_same {A B} (h : A -> B) (g : A -> A) (j : nat) (cs : list A)
      (c : A) :
  cs !! j = Some c -> h (g c) = h c -> map h (alter g j cs) = map h cs.
Proof.
  intros Ec Hh. revert j Ec. induction cs as [|x cs IH]; intros [|j] Ec;
    try discriminate.
  - injection Ec as ->. cbn. now rewrite Hh.
  - cbn. f_equal. apply IH. exact Ec.
Qed.

(** Rewriting the children at a path by something that serialises to
    the same markup leaves the markup of the whole as it was. *)
Lemma update_children_markup (G : list node -> list node) (q : path)
      (cs l : list node) :
  children_at cs q = Some l ->
  coalesce (map serialize (G l)) = coalesce (map serialize l) ->
  map serialize (update_children q G cs) = map serialize cs
  \/ (q = [] /\ coalesce (map serialize (update_children q G cs))
                = coalesce (map serialize cs)).
Proof.
  revert cs. induction q as [|j q IH]; intros cs Hl HG.
  - right. cbn in *. injection Hl as <-. auto.
  - left. cbn [children_at update_children] in *.
    destruct (cs !! j) as [[d | tag attrs ls cs']|] eqn:Ec; try discriminate.
    assert (Hs : serialize (Element tag attrs ls (update_children q G cs'))
                 = serialize (Element tag attrs ls cs')).
    { cbn [serialize]. f_equal.
      destruct (IH cs' Hl HG) as [-> | [_ H]]; [reflexivity | exact H]. }
    apply (map_alter_same serialize _ j cs _ Ec). exact Hs.
Qed.

Lemma update_children_innerHTML (G : list node -> list node) (q : path)
      (cs l : list node) :
  children_at cs q = Some l ->
  coalesce (map serialize (G l)) = coalesce (map serialize l) ->
  innerHTML (update_children q G cs) = innerHTML cs.
Proof.
  intros Hl HG. unfold innerHTML.
  destruct (update_children_markup G q cs l Hl HG) as [-> | [_ H]];
    [reflexivity | exact H].
Qed.

Lemma delete_after_take (i : nat) (l rest : list node) (a b : node) :
  (i < length l)%nat ->
  delete (S i) (take i l ++ a :: b :: rest) = take i l ++ a :: rest.
Proof.
  revert l. induction i as [|i IH]; intros [|x l] Hlen; cbn in *; try lia.
  - reflexivity.
  - f_equal. apply IH. lia.
Qed.

Lemma split_around_delete (i o : nat) (d : string) (btn : node) (l : list node) :
  (i < length l)%nat ->
  delete (S i) (split_around i o d btn l) = split_in_two i o d l.
Proof. intros H. unfold split_around, split_in_two. now apply delete_after_take. Qed.

Lemma split_around_lookup (i o : nat) (d : string) (btn : node) (l : list node) :
  (i < length l)%nat -> split_around i o d btn l !! S i = Some btn.
Proof.
  intros H. unfold split_around.
  change (take i l ++ [?a; btn; ?b] ++ ?r) with (take i l ++ a :: (btn :: b :: r)).
  rewrite lookup_app_r by (rewrite length_take; lia).
  rewrite length_take, Nat.min_l by lia.
  replace (S i - i)%nat with 1%nat by lia. reflexivity.
Qed.

Lemma split_in_two_markup (i o : nat) (d : string) (l : list node) :
  l !! i = Some (TextNode d) ->
  coalesce (map serialize (split_in_two i o d l)) = coalesce (map serialize l).
Proof.
  intros Hi. rewrite <- (take_drop_middle l i (TextNode d) Hi) at 2.
  unfold split_in_two. rewrite !map_app. apply coalesce_app_cong.
  cbn [map app serialize]. rewrite coalesce_text_pair.
  now rewrite text_before_after.
Qed.

Lemma node_at_children_at (cs : list node) (q : path) (j : nat) (l : list node) :
  children_at cs q = Some l -> node_at cs (q ++ [j]) = l !! j.
Proof.
  revert cs. induction q as [|k q IH]; intros cs.
  - cbn. now intros [= ->].
  - change ((k :: q) ++ [j]) with (k :: (q ++ [j])).
    rewrite node_at_cons by apply snoc_not_nil. cbn [children_at].
    destruct (cs !! k) as [[d | tag attrs ls cs']|]; try discriminate.
    cbn [children_of]. apply IH.
Qed.

End TreeEdits.

(* ================================================================== *)
(** * Deleting a stamp schedules no save *)
(* ================================================================== *)

(** C10. The second Backspace of the protocol removes the stamp node
    from the child list that holds it and sets the dirty flag, and that
    is all it does: the stored records, the pending timeouts and the
    timer reference are as before.  What becomes of the removal depends
    on the timers already pending: with no autosave pending the passage
    of time never stores it and the notes stay marked as changed; an
    autosave that was pending stores the document without the stamp
    when it falls due; and a manual save stores it at once. *)
Theorem C10_stamp_deletion_schedules_no_save :
  forall (s : State) (editor : list node) (p : path) (range : Range)
         (rest : list Range) (victim : Victim) (now : Z),
    editorRef s = Some editor ->
    collapsed range = true ->
    startContainer range = InEditor p ->
    adjacent_stamp editor range = Some victim ->
    now - lastBackspaceTime s < 500 ->
    let s' := dispatch now (KeyDown "Backspace" (Some (range :: rest))) s in
    exists (q : path) (i : nat) (cs : list node) (n : node),
      let editor' := update_children q (delete i) editor in
      children_at editor q = Some cs /\ cs !! i = Some n /\ has_stampId n = true
      /\ editorRef s' = Some editor'
      /\ children_at editor' q = Some (take i cs ++ drop (S i) cs)
      /\ hasChanges s' = true
      /\ localStorage s' = localStorage s
      /\ timers s' = timers s
      /\ autoSaveTimeoutRef s' = autoSaveTimeoutRef s
      /\ nextTimerId s' = nextTimerId s
      /\ (TimerInv s -> pending_autosaves s = [] ->
          forall later,
            localStorage (advance later s') = localStorage s
            /\ hasChanges (advance later s') = true
            /\ option_map innerHTML (editorRef (advance later s'))
               = Some (innerHTML editor'))
      /\ (forall (a : Timer) (f : string) (later : Z),
            TimerInv s -> pending_autosaves s = [a] ->
            timer_callback a = AutoSaveCb (Some f) -> truthy_string f = true ->
            timer_due a <= later ->
            localStorage (advance later s')
              = <[storage_key f := innerHTML editor']> (localStorage s)
            /\ hasChanges (advance later s') = false)
      /\ (forall f : string,
            videoFilename s = Some f -> truthy_string f = true ->
            localStorage (saveNotes s')
              = <[storage_key f := innerHTML editor']> (localStorage s)
            /\ hasChanges (saveNotes s') = false).
Proof.
  intros s editor p range rest victim now He Hc Hp Hadj Hlt s'.
  destruct (adjacent_stamp_in_editor editor p (startOffset range) range victim
              Hp eq_refl Hadj) as (q & i & n & Hn & Hid & Hrm).
  destruct (children_at_snoc editor q i n Hn) as (cs & Hcs & Hi).
  assert (Hs' : s' = setLastBackspaceTime 0
                       (emit (toast_success "Stamp deleted")
                          (setHasChanges true
                             (set_editorRef
                                (Some (update_children q (delete i) editor))
                                (emit preventDefault s))))).
  { unfold s', dispatch, handleKeyDown. rewrite He.
    change (String.eqb "Backspace" "Backspace") with true. cbv iota.
    rewrite Hc, Hadj, Hrm. cbn [negb].
    destruct (now - lastBackspaceTime s <? 500) eqn:E; [reflexivity | lia]. }
  exists q, i, cs, n. cbv zeta.
  assert (Hinv' : TimerInv s -> TimerInv s').
  { intros Hinv. apply (TimerInv_frame s s'); rewrite ?Hs'; auto. }
  assert (Hpend : pending_autosaves s' = pending_autosaves s).
  { rewrite Hs'. reflexivity. }
  assert (Hed : editorRef s' = Some (update_children q (delete i) editor)).
  { rewrite Hs'. reflexivity. }
  split; [exact Hcs|]. split; [exact Hi|]. split; [exact Hid|].
  split; [exact Hed|].
  split.
  { rewrite (children_at_update (delete i) editor q cs Hcs).
    f_equal. apply delete_take_drop. }
  split; [now rewrite Hs'|]. split; [now rewrite Hs'|].
  split; [now rewrite Hs'|]. split; [now rewrite Hs'|].
  split; [now rewrite Hs'|].
  split; [| split].
  - intros Hinv Hnone later.
    assert (Hq : Forall (fun t => later < timer_due t) (pending_autosaves s')).
    { rewrite Hpend, Hnone. constructor. }
    destruct (advance_quiet later s' (Hinv' Hinv) Hq)
      as [_ _ _ _ Vh _ _ Vst _ _ Vm _ _].
    rewrite Vst, Vh, Vm, Hed. rewrite Hs'. repeat split.
  - intros a f later Hinv Hone Hcb Hf Hdue.
    assert (Hm : option_map innerHTML (editorRef s')
                 = Some (innerHTML (update_children q (delete i) editor))).
    { now rewrite Hed. }
    rewrite <- Hpend in Hone.
    destruct (advance_steps_due later a f _ (length (timers s')) s'
                (Hinv' Hinv) Hone Hdue Hcb Hf Hm (le_n _))
      as (_ & Hst & Hh & _).
    unfold advance. rewrite Hst, Hh. rewrite Hs'. split; reflexivity.
  - intros f Hv Hf. unfold saveNotes. rewrite Hed.
    replace (videoFilename s') with (Some f) by (now rewrite Hs').
    rewrite Hf. rewrite Hs'. split; reflexivity.
Qed.

Lemma C10_stamp_deletion_witness :
  editorRef (dispatch 1300 (KeyDown "Backspace" (Some [caret_after_abc]))
               (run (firstn 2 type_then_delete) unarmed_state))
    = Some [TextNode "abc"]
  /\ localStorage (dispatch 1300 (KeyDown "Backspace" (Some [caret_after_abc]))
                     (run (firstn 2 type_then_delete) unarmed_state))
     = ∅.
Proof.
  destruct (C10_stamp_deletion_schedules_no_save
              (run (firstn 2 type_then_delete) unarmed_state)
              [TextNode "abc"; stampButton true stamp_12 "0:00:12"]
              [0%nat] caret_after_abc [] (NextSiblingOf (InEditor [0%nat])) 1300
              eq_refl eq_refl eq_refl eq_refl ltac:(vm_compute; reflexivity))
    as (q & i & cs & n & H).
  cbv zeta in H. destruct H as (_ & _ & _ & _ & _ & _ & Hst & _).
  split; [vm_compute; reflexivity | rewrite Hst; vm_compute; reflexivity].
Defined.

(** C10 as the specification has it fails when the stamp is deleted
    within a second of typing: the autosave that the typing armed is
    still pending, and when it falls due it stores the document without
    the stamp, although nothing was typed, inserted or saved after the
    deletion. *)
Lemma C10_pending_autosave_stores_the_removal :
  editorRef (run type_then_delete unarmed_state) = Some [TextNode "abc"]
  /\ hasChanges (run type_then_delete unarmed_state) = true
  /\ localStorage (run type_then_delete unarmed_state) = ∅
  /\ pending_autosaves (run type_then_delete unarmed_state)
     = [mkTimer 1 2000 (AutoSaveCb (Some "clip.mp4"))]
  /\ localStorage (advance 2000 (run type_then_delete unarmed_state))
       !! storage_key "clip.mp4"
     = Some [MText "abc"]
  /\ hasChanges (advance 2000 (run type_then_delete unarmed_state)) = false.
Proof. vm_compute. repeat split. Qed.

Section TakingBack.

Lemma insert_at_caret (stamp : Stamp) (text : string) (q : path) (i o : nat)
      (d : string) (now : Z) (s : State) (editor : list node) :
  editorRef s = Some editor ->
  node_at editor (q ++ [i]) = Some (TextNode d) ->
  let btn := stampButton (seekToTime s) stamp text in
  insertStampButton stamp text (Some [caret (InEditor (q ++ [i])) o]) now s
    = Returns
        (reschedule_autosave 500 now (videoFilename s)
           (emit focus
              (setHasChanges true
                 (emit (setCaret q (S (S i)))
                    (set_editorRef
                       (Some (update_children q (split_around i o d btn) editor))
                       s))))).
Proof.
  intros He Hn. cbv zeta. unfold insertStampButton. rewrite He.
  cbn [getRangeAt0 caret editor_contains_range startContainer endContainer].
  unfold insert_at_range.
  cbn [caret startContainer endContainer collapsed startOffset].
  unfold insert_node. rewrite split_last_snoc, Hn. reflexivity.
Qed.

Lemma adjacent_after_insert (editor : list node) (q : path) (i o : nat)
      (d : string) (btn : node) (x : node) :
  node_at editor (q ++ [i]) = Some x ->
  has_stampId btn = true ->
  adjacent_stamp (update_children q (split_around i o d btn) editor)
                 (caret (InEditor q) (S (S i)))
    = Some (ChildOf (InEditor q) (S i)).
Proof.
  intros Hn Hb.
  destruct (children_at_snoc editor q i x Hn) as (l & Hl & Hi).
  pose proof (lookup_lt_Some _ _ _ Hi) as Hlen.
  pose proof (children_at_update (split_around i o d btn) editor q l Hl) as Hl2.
  destruct (resolve_children _ q _ Hl2) as (tag & attrs & ls & next & Hr).
  unfold adjacent_stamp. cbn [caret startContainer startOffset]. rewrite Hr.
  cbn [Nat.ltb Nat.leb Nat.sub].
  rewrite split_around_lookup by exact Hlen.
  now rewrite Hb.
Qed.

(** Two Backspace presses at a caret next to a stamp, the first arming,
    the second within 500 ms. *)
Lemma double_backspace (s : State) (ed : list node) (r : Range) (v : Victim)
      (now1 now2 : Z) :
  editorRef s = Some ed -> collapsed r = true ->
  adjacent_stamp ed r = Some v ->
  500 <= now1 - lastBackspaceTime s -> now2 - now1 < 500 ->
  let s' := handleKeyDown "Backspace" (Some [r]) now2
              (handleKeyDown "Backspace" (Some [r]) now1 s) in
  editorRef s' = Some (remove_victim v ed)
  /\ log s' = toast_success "Stamp deleted" :: preventDefault :: preventDefault
                :: log s
  /\ localStorage s' = localStorage s /\ timers s' = timers s.
Proof.
  intros He Hc Ha H1 H2. cbv zeta.
  assert (E1 : handleKeyDown "Backspace" (Some [r]) now1 s
               = emit preventDefault (setLastBackspaceTime now1 s)).
  { unfold handleKeyDown. rewrite He, Hc, Ha.
    change (String.eqb "Backspace" "Backspace") with true. cbn [negb].
    destruct (now1 - lastBackspaceTime s <? 500) eqn:E; [lia | reflexivity]. }
  rewrite E1. unfold handleKeyDown.
  cbn [editorRef emit setLastBackspaceTime lastBackspaceTime].
  rewrite He, Hc, Ha.
  change (String.eqb "Backspace" "Backspace") with true. cbn [negb].
  destruct (now2 - now1 <? 500) eqn:E; [|lia].
  repeat split.
Qed.

End TakingBack.

(** An insertion at a caret inside a text node can be taken back: the
    insertion puts the stamp between the two halves of the text node and
    leaves the caret right after it, and two Backspace presses there, the
    second within 500 ms of the first, remove the stamp again; the
    document then has the markup it had before the insertion (the text
    node stays split in two, which the markup does not show). *)
Theorem insert_then_double_backspace_restores_markup :
  forall (s : State) (time : number) (f : string) (editor : list node)
         (q : path) (i o : nat) (d : string) (now now1 now2 : Z),
    getCurrentTime s = Some time ->
    videoFilename s = Some f -> truthy_string f = true ->
    editorRef s = Some editor ->
    node_at editor (q ++ [i]) = Some (TextNode d) ->
    500 <= now1 - lastBackspaceTime s -> now2 - now1 < 500 ->
    let btn := stampButton (seekToTime s) (time_stamp time now) (formatTime time) in
    let s1 := dispatch now
                (ClickInsertTimestamp (Some [caret (InEditor (q ++ [i])) o])) s in
    let after := caret (InEditor q) (S (S i)) in
    let s3 := dispatch now2 (KeyDown "Backspace" (Some [after]))
                (dispatch now1 (KeyDown "Backspace" (Some [after])) s1) in
    In (setCaret q (S (S i))) (log s1)
    /\ (exists editor1, editorRef s1 = Some editor1
          /\ node_at editor1 (q ++ [i]) = Some (TextNode (text_before o d))
          /\ node_at editor1 (q ++ [S i]) = Some btn
          /\ node_at editor1 (q ++ [S (S i)]) = Some (TextNode (text_after o d)))
    /\ option_map innerHTML (editorRef s3) = Some (innerHTML editor).
Proof.
  intros s time f editor q i o d now now1 now2 Ht Hv Hf He Hn H1 H2. cbv zeta.
  cbn [dispatch]. unfold insertTimestamp. rewrite Ht, Hv, He, Hf.
  rewrite formatTime_inline. fold (time_stamp time now).
  rewrite (insert_at_caret _ _ q i o d now s editor He Hn).
  cbn [and_then uncaught_of].
  set (btn := stampButton (seekToTime s) (time_stamp time now) (formatTime time)).
  set (editor1 := update_children q (split_around i o d btn) editor).
  set (s1 := emit (toast_success "Timestamp inserted") _).
  assert (He1 : editorRef s1 = Some editor1).
  { unfold s1. cbn [editorRef emit]. now rewrite reschedule_autosave_editorRef. }
  assert (Hb1 : lastBackspaceTime s1 = lastBackspaceTime s).
  { unfold s1, reschedule_autosave, setTimeout, clear_pending_autosave, clearTimeout.
    cbn. destruct (autoSaveTimeoutRef s) as [id|]; [destruct (id =? 0)%nat|];
      reflexivity. }
  assert (Hlog : In (setCaret q (S (S i))) (log s1)).
  { unfold s1, reschedule_autosave, setTimeout. cbn.
    rewrite clear_pending_autosave_log. cbn. auto. }
  assert (Hadj : adjacent_stamp editor1 (caret (InEditor q) (S (S i)))
                 = Some (ChildOf (InEditor q) (S i))).
  { apply (adjacent_after_insert editor q i o d btn _ Hn). reflexivity. }
  assert (H1' : 500 <= now1 - lastBackspaceTime s1) by (rewrite Hb1; exact H1).
  destruct (double_backspace s1 editor1 (caret (InEditor q) (S (S i)))
              (ChildOf (InEditor q) (S i)) now1 now2 He1 eq_refl Hadj H1' H2)
    as (He3 & _).
  cbn [remove_victim] in He3. rewrite remove_node_snoc in He3.
  destruct (children_at_snoc editor q i _ Hn) as (l & Hl & Hi).
  pose proof (lookup_lt_Some _ _ _ Hi) as Hlen.
  split; [exact Hlog|]. split.
  - exists editor1. split; [exact He1|].
    pose proof (children_at_update (split_around i o d btn) editor q l Hl) as Hl1.
    fold editor1 in Hl1.
    rewrite !(node_at_children_at _ _ _ _ Hl1).
    unfold split_around.
    split; [| split].
    + rewrite lookup_app_r by (rewrite length_take; lia).
      rewrite length_take, Nat.min_l by lia.
      now replace (i - i)%nat with 0%nat by lia.
    + rewrite lookup_app_r by (rewrite length_take; lia).
      rewrite length_take, Nat.min_l by lia.
      now replace (S i - i)%nat with 1%nat by lia.
    + rewrite lookup_app_r by (rewrite length_take; lia).
      rewrite length_take, Nat.min_l by lia.
      now replace (S (S i) - i)%nat with 2%nat by lia.
  - rewrite He3. cbn [option_map]. f_equal. unfold editor1.
    rewrite update_children_twice.
    apply (update_children_innerHTML _ q editor l Hl).
    rewrite split_around_delete by exact Hlen.
    now apply split_in_two_markup.
Qed.

Lemma insert_then_double_backspace_witness :
  option_map innerHTML
    (editorRef
       (dispatch 2300 (KeyDown "Backspace" (Some [caret (InEditor []) 2]))
          (dispatch 2000 (KeyDown "Backspace" (Some [caret (InEditor []) 2]))
             (dispatch 1000
                (ClickInsertTimestamp (Some [caret (InEditor [0%nat]) 3]))
                sample_state))))
  = Some [MText "intro "].
Proof.
  destruct (insert_then_double_backspace_restores_markup sample_state (Fin 12.5)
              "clip.mp4" [TextNode "intro "] [] 0 3 "intro " 1000 2000 2300
              eq_refl eq_refl eq_refl eq_refl eq_refl ltac:(cbn; lia) ltac:(lia))
    as (_ & _ & H).
  exact H.
Defined.

(* ================================================================== *)
(** * From a stamp back to the moment it was taken *)
(* ================================================================== *)

Section Landing.

Lemma snoc_node_at (editor : list node) (btn : node) :
  node_at (editor ++ [btn]) [length editor] = Some btn.
Proof. cbn [node_at]. apply list_lookup_middle. reflexivity. Qed.

Lemma is_decimal_inject_Z (n : Z) : is_decimal (inject_Z n) = true.
Proof.
  unfold is_decimal. cbn [Qnum Qden inject_Z]. rewrite Z.mod_1_r. reflexivity.
Qed.

Lemma children_at_element (cs : list node) (q : path) (j : nat) (l : list node) :
  children_at cs (q ++ [j]) = Some l ->
  exists tag attrs ls, node_at cs (q ++ [j]) = Some (Element tag attrs ls l).
Proof.
  revert cs. induction q as [|i q IH]; intros cs; cbn [app children_at node_at].
  - destruct (cs !! j) as [[d|tag attrs ls l']|]; try discriminate.
    intros [= ->]. now exists tag, attrs, ls.
  - destruct (cs !! i) as [[d|tag attrs ls l']|] eqn:E; try discriminate.
    intros H. destruct (IH l' H) as (tag' & attrs' & ls' & Hn).
    exists tag', attrs', ls'.
    destruct (q ++ [j]) as [|a r] eqn:Eq; [now destruct q|].
    cbn [children_of]. exact Hn.
Qed.

Lemma insert_node_in_element (new : node) (q : path) (o : nat)
      (editor cs : list node) :
  children_at editor q = Some cs ->
  insert_node new q o editor
    = (update_children q (fun l => take o l ++ [new] ++ drop o l) editor, (q, o)).
Proof.
  intros Hcs. unfold insert_node.
  destruct (split_last q) as [[q' j]|] eqn:Hq; [|reflexivity].
  pose proof (split_last_Some _ _ _ Hq) as ->.
  destruct (children_at_element editor q' j cs Hcs) as (tag & attrs & ls & ->).
  reflexivity.
Qed.

(** Whatever the selection, the first range alone decides. *)
Lemma insertStampButton_first_range stamp text (r : Range) (rest : list Range)
      now (s : State) :
  insertStampButton stamp text (Some (r :: rest)) now s
    = insertStampButton stamp text (Some [r]) now s.
Proof. reflexivity. Qed.

(** Where [lands] says the button lands, it is. *)
Lemma insertStampButton_lands stamp text (sel : option Selection) (p : path)
      now (s : State) (editor : list node) :
  editorRef s = Some editor -> lands editor sel p ->
  exists (s1 : State) (editor1 : list node),
    insertStampButton stamp text sel now s = Returns s1
    /\ editorRef s1 = Some editor1
    /\ node_at editor1 p = Some (stampButton (seekToTime s) stamp text)
    /\ seekToTime s1 = seekToTime s.
Proof.
  intros He Hl. set (btn := stampButton (seekToTime s) stamp text).
  destruct Hl as [q i o d rest Hn | q cs o rest Hcs Ho | r rest Hout |].
  - rewrite insertStampButton_first_range.
    rewrite (insert_at_caret stamp text q i o d now s editor He Hn).
    fold btn. eexists _, _. split; [reflexivity|].
    split; [now rewrite reschedule_autosave_editorRef|].
    split.
    + destruct (children_at_snoc editor q i _ Hn) as (l & Hl & Hi).
      pose proof (lookup_lt_Some _ _ _ Hi) as Hlen.
      pose proof (children_at_update (split_around i o d btn) editor q l Hl) as Hl1.
      rewrite (node_at_children_at _ _ _ _ Hl1).
      now apply split_around_lookup.
    + unfold reschedule_autosave, setTimeout, clear_pending_autosave, clearTimeout.
      cbn. destruct (autoSaveTimeoutRef s) as [id|]; [destruct (id =? 0)%nat|];
        reflexivity.
  - rewrite insertStampButton_first_range.
    unfold insertStampButton. rewrite He. cbn [getRangeAt0].
    change (editor_contains_range (caret (InEditor q) o)) with true. cbv iota.
    unfold insert_at_range. cbn [startContainer endContainer caret collapsed startOffset].
    rewrite (insert_node_in_element _ q o editor cs Hcs). fold btn.
    eexists _, _. split; [reflexivity|].
    split; [now rewrite reschedule_autosave_editorRef|].
    split.
    + pose proof (children_at_update (fun l => take o l ++ [btn] ++ drop o l)
                    editor q cs Hcs) as Hl1.
      rewrite (node_at_children_at _ _ _ _ Hl1).
      rewrite lookup_app_r by (rewrite length_take; lia).
      rewrite length_take, Nat.min_l by lia.
      now replace (o - o)%nat with 0%nat by lia.
    + unfold reschedule_autosave, setTimeout, clear_pending_autosave, clearTimeout.
      cbn. destruct (autoSaveTimeoutRef s) as [id|]; [destruct (id =? 0)%nat|];
        reflexivity.
  - unfold insertStampButton. rewrite He. cbn [getRangeAt0]. rewrite Hout.
    fold btn. eexists _, _. split; [reflexivity|].
    split; [now rewrite reschedule_autosave_editorRef|].
    split; [apply snoc_node_at|].
    unfold reschedule_autosave, setTimeout, clear_pending_autosave, clearTimeout.
    cbn. destruct (autoSaveTimeoutRef s) as [id|]; [destruct (id =? 0)%nat|];
      reflexivity.
  - unfold insertStampButton. rewrite He. cbn [getRangeAt0].
    fold btn. eexists _, _. split; [reflexivity|].
    split; [now rewrite reschedule_autosave_editorRef|].
    split; [apply snoc_node_at|].
    unfold reschedule_autosave, setTimeout, clear_pending_autosave, clearTimeout.
    cbn. destruct (autoSaveTimeoutRef s) as [id|]; [destruct (id =? 0)%nat|];
      reflexivity.
Qed.

(** A click on a button as [insertStampButton] made it runs the handler
    of its stamp. *)
Lemma click_on_stampButton (later : Z) (p : path) (k : bool) (stamp : Stamp)
      (text : string) (s : State) (editor : list node) :
  editorRef s = Some editor ->
  node_at editor p = Some (stampButton k stamp text) ->
  dispatch later (ClickStamp p) s
    = handleStampClick k stamp (emit preventDefault s).
Proof. intros He Hn. cbn [dispatch]. rewrite He, Hn. reflexivity. Qed.

End Landing.

(** A time stamp leads back to the moment it was taken.  Wherever the
    selection makes the new button land (at a caret inside a text node or
    between the children of an element of the editor, or at the end of
    the editor when the first range lies outside the editor or there is
    no selection object), the button is there after the click on the
    insert button, and a click on it prevents the default action, seeks
    to exactly the time the accessor returned at the insertion, and says
    so. *)
Theorem time_stamp_seeks_back :
  forall (s : State) (time : number) (f : string) (editor : list node)
         (sel : option Selection) (p : path) (now later : Z),
    getCurrentTime s = Some time ->
    videoFilename s = Some f -> truthy_string f = true ->
    editorRef s = Some editor -> seekToTime s = true ->
    lands editor sel p ->
    let s1 := dispatch now (ClickInsertTimestamp sel) s in
    (exists editor1,
        editorRef s1 = Some editor1
        /\ node_at editor1 p
           = Some (stampButton true (time_stamp time now) (formatTime time)))
    /\ log (dispatch later (ClickStamp p) s1)
       = toast_success ("Jumped to " +:+ formatTime time)
           :: seek time :: preventDefault :: log s1.
Proof.
  intros s time f editor sel p now later Ht Hv Hf He Hk Hl. cbv zeta.
  change (dispatch now (ClickInsertTimestamp sel) s)
    with (uncaught_of (insertTimestamp sel now s)).
  unfold insertTimestamp. rewrite Ht, Hv, He, Hf.
  rewrite formatTime_inline. fold (time_stamp time now).
  destruct (insertStampButton_lands (time_stamp time now) (formatTime time)
              sel p now s editor He Hl) as (s1 & editor1 & -> & He1 & Hn & _).
  rewrite Hk in Hn. cbn [and_then uncaught_of].
  assert (He1' : editorRef (emit (toast_success "Timestamp inserted") s1)
                 = Some editor1) by exact He1.
  split; [now exists editor1|].
  rewrite (click_on_stampButton later p true _ _ _ editor1 He1' Hn).
  reflexivity.
Qed.

Lemma time_stamp_seeks_back_witness :
  log (dispatch 2000 (ClickStamp [1%nat])
         (dispatch 1000
            (ClickInsertTimestamp (Some [caret (InEditor [0%nat]) 6]))
            sample_state))
    = [toast_success "Jumped to 0:00:12"; seek (Fin 12.5); preventDefault;
       toast_success "Timestamp inserted"; focus; setCaret [] 2].
Proof.
  apply (time_stamp_seeks_back sample_state (Fin 12.5) "clip.mp4"
           [TextNode "intro "] (Some [caret (InEditor [0%nat]) 6]) [1%nat]
           1000 2000 eq_refl eq_refl eq_refl eq_refl eq_refl
           (lands_in_text [TextNode "intro "] [] 0 6 "intro " [] eq_refl)).
Defined.

(** A frame stamp leads back to its frame.  When the frame accessor
    returns the whole number [n], the button that [insertFrameStamp]
    places (wherever the selection makes it land) is labelled [F n], and
    a click on it prevents the default action, seeks to [n / 30] seconds
    and says [Jumped to frame n]. *)
Theorem frame_stamp_seeks_to_its_frame :
  forall (s : State) (n : Z) (f : string) (editor : list node)
         (sel : option Selection) (p : path) (now later : Z),
    0 <= n ->
    getCurrentFrame s = Some (Fin (inject_Z n)) ->
    videoFilename s = Some f -> truthy_string f = true ->
    editorRef s = Some editor -> seekToTime s = true ->
    lands editor sel p ->
    let s1 := dispatch now (ClickInsertFrameStamp sel) s in
    (exists editor1,
        editorRef s1 = Some editor1
        /\ node_at editor1 p
           = Some (stampButton true (frame_stamp (Fin (inject_Z n)) now)
                               ("F" +:+ N_toString (Z.to_N n))))
    /\ log (dispatch later (ClickStamp p) s1)
       = toast_success ("Jumped to frame " +:+ N_toString (Z.to_N n))
           :: seek (Fin (inject_Z n / 30)) :: preventDefault :: log s1.
Proof.
  intros s n f editor sel p now later Hn0 Hfr Hv Hf He Hk Hl. cbv zeta.
  change (dispatch now (ClickInsertFrameStamp sel) s)
    with (uncaught_of (insertFrameStamp sel now s)).
  unfold insertFrameStamp. rewrite Hfr, Hv, He, Hf.
  fold (frame_stamp (Fin (inject_Z n)) now).
  rewrite (Number_toString_nat n Hn0).
  destruct (insertStampButton_lands (frame_stamp (Fin (inject_Z n)) now)
              ("F" +:+ N_toString (Z.to_N n)) sel p now s editor He Hl)
    as (s1 & editor1 & -> & He1 & Hn & _).
  rewrite Hk in Hn. cbn [and_then uncaught_of].
  assert (He1' : editorRef (emit (toast_success "Frame stamp inserted") s1)
                 = Some editor1) by exact He1.
  split; [now exists editor1|].
  rewrite (click_on_stampButton later p true _ _ _ editor1 He1' Hn).
  unfold handleStampClick, frame_stamp.
  cbn [negb stamp_type stamp_value String.eqb Ascii.eqb Bool.eqb].
  rewrite (Number_toString_nat n Hn0). reflexivity.
Qed.

Lemma frame_stamp_seeks_witness :
  log (dispatch 2000 (ClickStamp [0%nat])
         (dispatch 1000 (ClickInsertFrameStamp (Some [caret (InEditor []) 0]))
            sample_state))
    = [toast_success "Jumped to frame 375"; seek (Fin (inject_Z 375 / 30));
       preventDefault; toast_success "Frame stamp inserted"; focus;
       setCaret [] 1].
Proof.
  apply (frame_stamp_seeks_to_its_frame sample_state 375 "clip.mp4"
           [TextNode "intro "] (Some [caret (InEditor []) 0]) [0%nat]
           1000 2000 ltac:(lia) eq_refl eq_refl eq_refl eq_refl eq_refl
           (lands_in_element [TextNode "intro "] [] [TextNode "intro "] 0 []
              eq_refl ltac:(cbn; lia))).
Defined.

(* ================================================================== *)
(** * When nothing is marked as changed, everything is saved *)
(* ================================================================== *)

Section Sessions.

Variable f : string.
Hypothesis f_truthy : truthy_string f = true.

Lemma Session_frame (s s' : State) :
  Session f s ->
  timers s' = timers s -> nextTimerId s' = nextTimerId s ->
  autoSaveTimeoutRef s' = autoSaveTimeoutRef s ->
  videoFilename s' = videoFilename s ->
  option_map innerHTML (editorRef s') = option_map innerHTML (editorRef s) ->
  localStorage s' = localStorage s ->
  (hasChanges s' = false -> hasChanges s = false) ->
  Session f s'.
Proof using Type.
  intros [H1 H2 H3 H4 H5] Ht Hn Hr Hv He Hl Hc. split.
  - revert H1. now apply TimerInv_frame.
  - now rewrite Hv.
  - destruct (editorRef s), (editorRef s'); try discriminate; reflexivity.
  - unfold pending_autosaves. rewrite Ht. exact H4.
  - intros Hc' ed' He'. rewrite Hl.
    destruct (editorRef s) as [ed|]; [|discriminate].
    rewrite He' in He. cbn in He. injection He as ->.
    apply (H5 (Hc Hc')). reflexivity.
Qed.

Lemma Session_dirty (s s' : State) :
  Session f s ->
  timers s' = timers s -> nextTimerId s' = nextTimerId s ->
  autoSaveTimeoutRef s' = autoSaveTimeoutRef s ->
  videoFilename s' = videoFilename s ->
  is_some (editorRef s') = true -> hasChanges s' = true ->
  Session f s'.
Proof using Type.
  intros [H1 H2 H3 H4 H5] Ht Hn Hr Hv He Hc. split.
  - revert H1. now apply TimerInv_frame.
  - now rewrite Hv.
  - exact He.
  - unfold pending_autosaves. rewrite Ht. exact H4.
  - intros Hc'. rewrite Hc in Hc'. discriminate.
Qed.

Lemma Session_reschedule (delay now : Z) (s : State) :
  Session f s -> hasChanges s = true ->
  Session f (reschedule_autosave delay now (videoFilename s) s).
Proof using Type.
  intros [H1 H2 H3 H4 H5] Hc.
  destruct (reschedule_autosave_spec delay now (videoFilename s) s H1)
    as (R1 & R2 & R3 & R4 & R5 & R6 & R7).
  split.
  - exact R1.
  - now rewrite R3.
  - now rewrite R4.
  - rewrite R2, H2. apply Forall_cons_2; [reflexivity | apply Forall_nil_2].
  - intros Hc'. rewrite R5, Hc in Hc'. discriminate.
Qed.

Lemma Session_insertStampButton stamp text selection now (s : State) :
  Session f s ->
  Session f (state_of (insertStampButton stamp text selection now s)).
Proof using Type.
  intros Hs. unfold insertStampButton.
  destruct (editorRef s) as [ed|] eqn:He; [|exact Hs].
  destruct (getRangeAt0 selection) as [e|range]; [exact Hs|].
  cbn [state_of].
  match goal with
  | |- Session f (reschedule_autosave _ _ _ ?s2) =>
      assert (H2 : Session f s2 /\ hasChanges s2 = true
                   /\ videoFilename s2 = videoFilename s)
  end.
  { split; [| split].
    - apply (Session_dirty s); try assumption;
        repeat match goal with
               | |- context [match ?x with _ => _ end] => destruct x eqn:?
               end; reflexivity.
    - reflexivity.
    - repeat match goal with
             | |- context [match ?x with _ => _ end] => destruct x eqn:?
             end; reflexivity. }
  destruct H2 as (Hs2 & Hc2 & Hv2). rewrite <- Hv2.
  now apply Session_reschedule.
Qed.

Lemma Session_emit (e : Effect) (s : State) : Session f s -> Session f (emit e s).
Proof using Type. intros Hs. apply (Session_frame s); auto. Qed.

Lemma Session_and_then (o : Outcome) (e : Effect) :
  Session f (state_of o) -> Session f (uncaught_of (and_then o (emit e))).
Proof using Type. destruct o as [s|x s]; cbn; apply Session_emit. Qed.

Lemma Session_handleKeyDown key selection now (s : State) :
  Session f s -> Session f (handleKeyDown key selection now s).
Proof using Type.
  intros Hs. destruct (handleKeyDown_frame key selection now s) as (Ht & Hn & Hr).
  unfold handleKeyDown in *.
  destruct (editorRef s) as [ed|] eqn:He; [|exact Hs].
  destruct (String.eqb key "Backspace"); [|exact Hs].
  destruct selection as [[|range rest]|]; try exact Hs.
  destruct (negb (collapsed range)); [exact Hs|].
  destruct (adjacent_stamp ed range) as [v|].
  - destruct (now - lastBackspaceTime s <? 500).
    + apply (Session_dirty s); auto.
    + apply (Session_frame s); auto; cbn; now rewrite He.
  - apply (Session_frame s); auto; cbn; now rewrite He.
Qed.

Lemma Session_listeners (ls : list ClickListener) (s : State) :
  Session f s -> Session f (fold_left (fun s l => run_listener l s) ls s).
Proof using Type.
  revert s. induction ls as [|l ls IH]; intros s Hs; cbn [fold_left]; [exact Hs|].
  apply IH. unfold run_listener, handleStampClick.
  destruct (negb (bound_seekToTime l));
    [|destruct (String.eqb (stamp_type (bound_stamp l)) "time")];
    repeat apply Session_emit; exact Hs.
Qed.

Lemma Session_saveNotes (s : State) : Session f s -> Session f (saveNotes s).
Proof using f_truthy.
  intros Hs. pose proof Hs as [H1 H2 H3 H4 H5].
  unfold saveNotes. rewrite H2.
  destruct (editorRef s) as [ed|] eqn:He; [|discriminate].
  rewrite f_truthy. apply Session_emit. split.
  - revert H1. now apply TimerInv_frame.
  - exact H2.
  - cbn. now rewrite He.
  - exact H4.
  - intros _ ed'. cbn. rewrite He. intros [= <-]. left. apply lookup_insert_eq.
Qed.

Lemma Session_clearNotes (confirmed : bool) (s : State) :
  Session f s -> Session f (clearNotes confirmed s).
Proof using f_truthy.
  intros Hs. pose proof Hs as [H1 H2 H3 H4 H5].
  unfold clearNotes. rewrite H2.
  destruct (editorRef s) as [ed|] eqn:He; [|discriminate].
  rewrite f_truthy. destruct confirmed; [|exact Hs].
  apply Session_emit. split.
  - revert H1. now apply TimerInv_frame.
  - exact H2.
  - reflexivity.
  - exact H4.
  - intros _ ed'. cbn. intros [= <-]. right. split; [reflexivity|].
    apply lookup_delete_eq.
Qed.

Lemma Session_exportNotes (s : State) : Session f s -> Session f (exportNotes s).
Proof using Type.
  intros Hs. unfold exportNotes.
  destruct (videoFilename s) as [g|]; [|now apply Session_emit].
  destruct (editorRef s); [|now apply Session_emit].
  destruct (truthy_string g); repeat apply Session_emit; exact Hs.
Qed.

(** Every event of a session keeps it one. *)
Lemma Session_dispatch (now : Z) (ev : Event) (s : State) :
  same_video ev = true -> Session f s -> Session f (dispatch now ev s).
Proof using f_truthy.
  intros Hev Hs. pose proof Hs as [H1 H2 H3 H4 H5].
  destruct ev; try discriminate; cbn [dispatch].
  - destruct (editorRef s) as [ed|] eqn:He; [|exact Hs].
    unfold handleInput.
    apply (Session_reschedule 1000 now
             (setHasChanges true (set_editorRef (Some content) s)));
      [|reflexivity].
    apply (Session_dirty s); auto.
  - now apply Session_handleKeyDown.
  - unfold insertTimestamp.
    destruct (getCurrentTime s); [|now apply Session_emit].
    rewrite H2.
    destruct (editorRef s) eqn:He; [|now apply Session_emit].
    rewrite f_truthy. apply Session_and_then.
    now apply Session_insertStampButton.
  - unfold insertFrameStamp.
    destruct (getCurrentFrame s); [|now apply Session_emit].
    rewrite H2.
    destruct (editorRef s) eqn:He; [|now apply Session_emit].
    rewrite f_truthy. apply Session_and_then.
    now apply Session_insertStampButton.
  - now apply Session_saveNotes.
  - now apply Session_clearNotes.
  - now apply Session_exportNotes.
  - destruct (editorRef s) as [ed|]; [|exact Hs].
    destruct (node_at ed p) as [[d|tag attrs ls cs]|]; try exact Hs.
    now apply Session_listeners.
  - apply (Session_frame s); auto.
Qed.

Lemma Session_fire (t : Timer) (s : State) :
  In t (timers s) -> Session f s -> Session f (fire t s).
Proof using f_truthy.
  intros Hin Hs. pose proof Hs as [H1 H2 H3 H4 H5].
  destruct (timer_callback t) as [g | k] eqn:Hcb.
  - assert (Hp : In t (pending_autosaves s)).
    { apply pending_autosaves_In. split; [exact Hin|].
      unfold is_autosave. now rewrite Hcb. }
    rewrite Forall_forall in H4.
    pose proof (H4 t (proj2 (list_elem_of_In _ _) Hp)) as Hg.
    rewrite Hcb in Hg. injection Hg as ->.
    destruct (editorRef s) as [ed|] eqn:He; [|discriminate].
    assert (Hfire : fire t s
                    = setHasChanges false
                        (localStorage_setItem (storage_key f) (innerHTML ed)
                           (set_timers
                              (filter (fun u => timer_id u <> timer_id t) (timers s))
                              (nextTimerId s) s))).
    { unfold fire. rewrite Hcb. cbn [run_callback]. unfold autoSave.
      cbn [editorRef set_timers]. now rewrite He, f_truthy. }
    split.
    + now apply fire_TimerInv.
    + rewrite Hfire. exact H2.
    + rewrite Hfire. cbn. now rewrite He.
    + rewrite Hfire. unfold pending_autosaves. cbn. apply Forall_forall.
      intros u Hu. apply list_elem_of_In, filter_In in Hu as [Hu Hau].
      apply list_elem_of_In, list_elem_of_filter in Hu as [_ Hu].
      apply H4, list_elem_of_In, pending_autosaves_In.
      split; [now apply list_elem_of_In | exact Hau].
    + intros _ ed'. rewrite Hfire. cbn. rewrite He. intros [= <-].
      left. apply lookup_insert_eq.
  - pose proof (fire_reattach_view s t k H1 Hin Hcb) as Hview.
    destruct Hview as [Vf _ _ _ Vh _ _ Vst _ _ Vm Va _]. split.
    + now apply fire_TimerInv.
    + now rewrite Vf.
    + destruct (editorRef s), (editorRef (fire t s)); try discriminate; reflexivity.
    + now rewrite Va.
    + intros Hc ed' He'. rewrite Vst.
      destruct (editorRef s) as [ed|] eqn:He; [|discriminate].
      rewrite He' in Vm. cbn in Vm. injection Vm as ->.
      apply H5; [now rewrite <- Vh | reflexivity].
Qed.

Lemma Session_advance (now : Z) (s : State) :
  Session f s -> Session f (advance now s).
Proof using f_truthy.
  unfold advance. generalize (length (timers s)) as fuel. intros fuel. revert s.
  induction fuel as [|fuel IH]; intros s Hs; cbn [advance_steps]; [exact Hs|].
  destruct (earliest (timers s)) as [t|] eqn:E; [|exact Hs].
  destruct (timer_due t <=? now); [|exact Hs].
  apply IH, Session_fire; [now apply earliest_In | exact Hs].
Qed.

Lemma Session_run (evs : list (Z * Event)) (s : State) :
  forallb (fun e => same_video (snd e)) evs = true ->
  Session f s -> Session f (run evs s).
Proof using f_truthy.
  revert s. induction evs as [|[now ev] evs IH]; intros s Hevs Hs; cbn [run];
    [exact Hs|].
  cbn [forallb snd] in Hevs. apply andb_true_iff in Hevs as [Hev Hevs].
  apply IH; [exact Hevs|].
  apply Session_dispatch; [exact Hev|]. now apply Session_advance.
Qed.

Lemma Session_mount time frame k (storage : gmap string (list markup)) (now : Z) :
  (forall saved, storage !! storage_key f = Some saved -> serialised saved) ->
  Session f (mount (Some f) time frame k storage now).
Proof using f_truthy.
  intros Hcanon.
  pose proof (mount_TimerInv (Some f) time frame k storage now) as Hinv.
  unfold mount in *.
  assert (Hfirst : TimerInv (first_render (Some f) time frame k storage)).
  { split; cbn; [lia | apply Forall_nil_2 | apply NoDup_nil_2 | apply Forall_nil_2]. }
  destruct (loadNotes_TimerInv now _ Hfirst) as (_ & Hp).
  split.
  - exact Hinv.
  - unfold loadNotes, first_render. cbn. repeat (rewrite f_truthy; cbn).
    destruct (storage !! storage_key f) as [saved|];
      [destruct (truthy_markup saved)|]; reflexivity.
  - unfold loadNotes, first_render. cbn. repeat (rewrite f_truthy; cbn).
    destruct (storage !! storage_key f) as [saved|];
      [destruct (truthy_markup saved)|]; reflexivity.
  - rewrite Hp. apply Forall_nil_2.
  - intros _ ed. unfold loadNotes, first_render. cbn.
    repeat (rewrite f_truthy; cbn).
    destruct (storage !! storage_key f) as [saved|] eqn:Es.
    + destruct (Hcanon saved eq_refl) as (cs & ->).
      destruct (truthy_markup (innerHTML cs)) eqn:Et; cbn; intros [= <-].
      * left. rewrite Es. f_equal. symmetry. apply innerHTML_set_innerHTML.
      * left. rewrite Es. f_equal.
        apply compact_falsy_nil; [apply compact_coalesce | exact Et].
    + cbn. intros [= <-]. right. auto.
Qed.

End Sessions.

(** In a session on one video (from the mount on, no change of video),
    the dirty flag can be trusted: whenever nothing is marked as changed,
    the record of the video is the markup of the document in the editor
    (an absent record counting as the empty document).  The stored
    record the session starts from is one that a browser serialised. *)
Theorem clean_means_saved :
  forall (f : string) (time frame : option number) (k : bool)
         (storage : gmap string (list markup)) (t0 later : Z)
         (evs : list (Z * Event)),
    truthy_string f = true ->
    (forall saved, storage !! storage_key f = Some saved -> serialised saved) ->
    forallb (fun e => same_video (snd e)) evs = true ->
    let s := advance later (run evs (mount (Some f) time frame k storage t0)) in
    hasChanges s = false ->
    exists ed, editorRef s = Some ed
               /\ record_is (localStorage s) f (innerHTML ed).
Proof.
  intros f time frame k storage t0 later evs Hf Hcanon Hevs s Hc.
  assert (Hs : Session f s).
  { apply Session_advance; [exact Hf|]. apply Session_run; [exact Hf | exact Hevs|].
    now apply Session_mount. }
  destruct Hs as [_ _ He _ Hsaved].
  destruct (editorRef s) as [ed|] eqn:E; [|discriminate].
  exists ed. split; [reflexivity|]. now apply Hsaved.
Qed.

Lemma clean_means_saved_witness :
  exists ed,
    editorRef
      (advance 2000
         (run [(100, Input [TextNode "a"]); (300, ClickSave)]
              (mount (Some "clip.mp4") None None true ∅ 0)))
      = Some ed
    /\ record_is
         (localStorage
            (advance 2000
               (run [(100, Input [TextNode "a"]); (300, ClickSave)]
                    (mount (Some "clip.mp4") None None true ∅ 0))))
         "clip.mp4" (innerHTML ed).
Proof.
  apply (clean_means_saved "clip.mp4" None None true ∅ 0 2000
           [(100, Input [TextNode "a"]); (300, ClickSave)]).
  - reflexivity.
  - intros saved H. rewrite lookup_empty in H. discriminate.
  - reflexivity.
  - vm_compute. reflexivity.
Defined.

(* ================================================================== *)
(** * The player: times and frames *)
(* ================================================================== *)

(** The player's clock shows whole minutes and seconds of the floored
    time: the minutes are not padded and not wrapped at sixty (an hour
    and a minute reads [61:01]), the seconds have two digits. *)
Theorem player_formatTime_minutes_seconds :
  forall q : Q,
    (0 <= q)%Q ->
    VideoPlayer.formatTime (Fin q)
      = N_toString (Z.to_N (Qfloor q / 60)) +:+ ":" +:+ two_digits (Qfloor q mod 60).
Proof.
  intros q Hq. set (n := Qfloor q).
  assert (Hn : 0 <= n).
  { unfold n. change 0 with (Qfloor 0). now apply Qfloor_resp_le. }
  assert (Hss : n mod 60 = n - 60 * (n / 60)) by (rewrite Z.mod_eq; lia).
  unfold VideoPlayer.formatTime, num_div, num_rem, Math_floor.
  change (Qzero 60) with false. cbv iota.
  change (60%Q) with (inject_Z (Zpos 60)).
  rewrite !Qtrunc_nonneg by (now apply Qdiv_pos_nonneg).
  rewrite !Qfloor_div_pos, !Qfloor_sub_multiple.
  fold n. rewrite <- Hss.
  rewrite !Number_toString_nat;
    [| apply Z.mod_pos_bound; lia | apply Z.div_pos; lia].
  rewrite !padStart_two_digits by (apply Z.mod_pos_bound; lia). reflexivity.
Qed.

Lemma player_formatTime_witness : VideoPlayer.formatTime (Fin 3661.5) = "61:01".
Proof.
  rewrite (player_formatTime_minutes_seconds 3661.5 ltac:(discriminate)).
  vm_compute. reflexivity.
Defined.

Section Clamping.

Lemma num_lt_Fin (x y : Q) : num_lt (Fin x) (Fin y) = true <-> (x < y)%Q.
Proof. unfold num_lt, Qlt. apply Z.ltb_lt. Qed.

Lemma num_lt_Fin_false (x y : Q) : num_lt (Fin x) (Fin y) = false <-> (y <= x)%Q.
Proof. unfold num_lt, Qle. rewrite Z.ltb_ge. reflexivity. Qed.

(** [Math.max(0, Math.min(d, x))] for finite arguments. *)
Lemma clamp_spec (d x : Q) :
  (0 <= d)%Q ->
  exists t : Q,
    Math_max (Fin 0) (Math_min (Fin d) (Fin x)) = Fin t
    /\ (0 <= t)%Q /\ (t <= d)%Q
    /\ ((0 <= x)%Q -> (x <= d)%Q -> (t == x)%Q)
    /\ ((x < 0)%Q -> (t == 0)%Q)
    /\ ((d < x)%Q -> (t == d)%Q).
Proof.
  intros Hd. unfold Math_min.
  destruct (num_lt (Fin x) (Fin d)) eqn:E1.
  - apply num_lt_Fin in E1. unfold Math_max.
    destruct (num_lt (Fin 0) (Fin x)) eqn:E2.
    + apply num_lt_Fin in E2. exists x. split_ands; try reflexivity; intros; lra.
    + apply num_lt_Fin_false in E2. exists 0%Q.
      split_ands; try reflexivity; intros; lra.
  - apply num_lt_Fin_false in E1. unfold Math_max.
    destruct (num_lt (Fin 0) (Fin d)) eqn:E2.
    + apply num_lt_Fin in E2. exists d. split_ands; try reflexivity; intros; lra.
    + apply num_lt_Fin_false in E2. exists 0%Q.
      split_ands; try reflexivity; intros; lra.
Qed.

End Clamping.

(** [skip] never leaves the video: for a video of known length (a finite
    duration, not negative) and a finite position, the time handed to
    the element lies between 0 and the duration; it is the position plus
    the skip when that is inside, 0 when it would be before the start and
    the duration when it would be past the end.  Nothing else happens. *)
Theorem skip_stays_inside_the_video :
  forall (seconds ct d : Q) (p : VideoPlayer.Player),
    (0 <= d)%Q ->
    exists t : Q,
      VideoPlayer.skip (Fin seconds) (Some (VideoPlayer.mkVideo (Fin ct) (Fin d))) p
        = VideoPlayer.Returns
            (VideoPlayer.emit (VideoPlayer.assign_currentTime (Fin t)) p)
      /\ (0 <= t)%Q /\ (t <= d)%Q
      /\ ((0 <= ct + seconds)%Q -> (ct + seconds <= d)%Q -> (t == ct + seconds)%Q)
      /\ ((ct + seconds < 0)%Q -> (t == 0)%Q)
      /\ ((d < ct + seconds)%Q -> (t == d)%Q).
Proof.
  intros seconds ct d p Hd.
  destruct (clamp_spec d (ct + seconds) Hd) as (t & Ht & H).
  exists t. split; [|exact H].
  unfold VideoPlayer.skip. cbn [VideoPlayer.video_duration
                                 VideoPlayer.video_currentTime num_add].
  rewrite Ht. reflexivity.
Qed.

Lemma skip_witness :
  exists t : Q,
    VideoPlayer.skip (Fin 10) (Some (VideoPlayer.mkVideo (Fin 95) (Fin 100)))
                     (VideoPlayer.initial false)
      = VideoPlayer.Returns
          (VideoPlayer.emit (VideoPlayer.assign_currentTime (Fin t))
                            (VideoPlayer.initial false))
    /\ (t == 100)%Q.
Proof.
  destruct (skip_stays_inside_the_video 10 95 100 (VideoPlayer.initial false)
              ltac:(discriminate)) as (t & H1 & _ & _ & _ & _ & H2).
  exists t. split; [exact H1 | apply H2; reflexivity].
Defined.

(** Stepping by frames: [previousFrame] goes back a thirtieth of a second
    but never before 0, [nextFrame] goes forward a thirtieth but never
    past the end; each shows its notice after the assignment. *)
Theorem frame_steps_stay_inside_the_video :
  forall (ct d : Q) (p : VideoPlayer.Player),
    (0 <= ct)%Q -> (ct <= d)%Q ->
    exists back forth : Q,
      VideoPlayer.previousFrame (Some (VideoPlayer.mkVideo (Fin ct) (Fin d))) p
        = VideoPlayer.Returns
            (VideoPlayer.emit (VideoPlayer.toast_success "Previous frame")
               (VideoPlayer.emit (VideoPlayer.assign_currentTime (Fin back)) p))
      /\ VideoPlayer.nextFrame (Some (VideoPlayer.mkVideo (Fin ct) (Fin d))) p
         = VideoPlayer.Returns
             (VideoPlayer.emit (VideoPlayer.toast_success "Next frame")
                (VideoPlayer.emit (VideoPlayer.assign_currentTime (Fin forth)) p))
      /\ (0 <= back)%Q /\ (back <= ct)%Q /\ (ct - 1 / 30 <= back)%Q
      /\ ((1 / 30 <= ct)%Q -> (back == ct - 1 / 30)%Q)
      /\ (ct <= forth)%Q /\ (forth <= d)%Q /\ (forth <= ct + 1 / 30)%Q
      /\ ((ct + 1 / 30 <= d)%Q -> (forth == ct + 1 / 30)%Q).
Proof.
  intros ct d p H0 Hd.
  unfold VideoPlayer.previousFrame, VideoPlayer.nextFrame, VideoPlayer.one_frame.
  cbn [VideoPlayer.video_duration VideoPlayer.video_currentTime].
  change (Fin 1 / Fin 30)%js with (Fin (1 / 30)).
  cbn [num_sub num_add num_opp].
  unfold Math_max, Math_min.
  destruct (num_lt (Fin 0) (Fin (ct + - (1 / 30)))) eqn:E1;
    destruct (num_lt (Fin (ct + 1 / 30)) (Fin d)) eqn:E2;
    try apply num_lt_Fin in E1; try apply num_lt_Fin_false in E1;
    try apply num_lt_Fin in E2; try apply num_lt_Fin_false in E2;
    eexists _, _; (split; [reflexivity|]); (split; [reflexivity|]);
    revert E1 E2; unfold Qdiv; change (/ 30)%Q with (1 # 30)%Q; intros E1 E2;
    split_ands; intros; lra.
Qed.

Lemma frame_steps_witness :
  exists back forth : Q,
    VideoPlayer.previousFrame (Some (VideoPlayer.mkVideo (Fin 0.01) (Fin 100)))
                              (VideoPlayer.initial false)
      = VideoPlayer.Returns
          (VideoPlayer.emit (VideoPlayer.toast_success "Previous frame")
             (VideoPlayer.emit (VideoPlayer.assign_currentTime (Fin back))
                               (VideoPlayer.initial false)))
    /\ (0 <= back)%Q /\ (back <= 0.01)%Q.
Proof.
  destruct (frame_steps_stay_inside_the_video 0.01 100 (VideoPlayer.initial false)
              ltac:(discriminate) ltac:(discriminate))
    as (back & forth & H1 & _ & H2 & H3 & _).
  exists back, forth. split; [exact H1 | split; assumption].
Defined.

(** Before the metadata of a video is loaded its duration is [NaN]; then
    the time computed by [skip] and by [nextFrame] is [NaN], the element
    refuses it with a [TypeError], nothing is assigned and [nextFrame]
    does not get to its notice.  [previousFrame] does not read the
    duration and works. *)
Theorem unknown_duration_breaks_forward_steps :
  forall (seconds ct : Q) (p : VideoPlayer.Player),
    let video := Some (VideoPlayer.mkVideo (Fin ct) NaN) in
    VideoPlayer.skip (Fin seconds) video p = VideoPlayer.Throws "TypeError" p
    /\ VideoPlayer.nextFrame video p = VideoPlayer.Throws "TypeError" p
    /\ (exists back : Q,
          VideoPlayer.previousFrame video p
            = VideoPlayer.Returns
                (VideoPlayer.emit (VideoPlayer.toast_success "Previous frame")
                   (VideoPlayer.emit (VideoPlayer.assign_currentTime (Fin back)) p))
          /\ (0 <= back)%Q)
    /\ (VideoPlayer.videoUrl p <> None ->
        VideoPlayer.dispatch (VideoPlayer.mkVideo (Fin ct) NaN)
          (VideoPlayer.KeyDown "ArrowRight" false None) p
        = VideoPlayer.emit (VideoPlayer.uncaught "TypeError")
            (VideoPlayer.emit VideoPlayer.preventDefault p)).
Proof.
  intros seconds ct p. cbv zeta. split_ands; try reflexivity.
  - unfold VideoPlayer.previousFrame, VideoPlayer.one_frame.
    cbn [VideoPlayer.video_currentTime].
    change (Fin 1 / Fin 30)%js with (Fin (1 / 30)).
    cbn [num_sub num_add num_opp]. unfold Math_max.
    destruct (num_lt (Fin 0) (Fin (ct + - (1 / 30)))) eqn:E.
    + apply num_lt_Fin in E. eexists. split; [reflexivity|]. lra.
    + eexists. split; [reflexivity|]. lra.
  - intros Hu. unfold VideoPlayer.dispatch.
    destruct (VideoPlayer.videoUrl p) as [u|] eqn:Eu; [|congruence].
    cbn. unfold VideoPlayer.commit. cbn. now rewrite Bool.eqb_reflx.
Qed.

Lemma unknown_duration_witness :
  VideoPlayer.dispatch (VideoPlayer.mkVideo (Fin 0) NaN)
    (VideoPlayer.KeyDown "ArrowRight" false None)
    (VideoPlayer.setVideoUrl (Some "blob:1") (VideoPlayer.initial false))
  = VideoPlayer.emit (VideoPlayer.uncaught "TypeError")
      (VideoPlayer.emit VideoPlayer.preventDefault
         (VideoPlayer.setVideoUrl (Some "blob:1") (VideoPlayer.initial false))).
Proof.
  destruct (unknown_duration_breaks_forward_steps 5 0
              (VideoPlayer.setVideoUrl (Some "blob:1") (VideoPlayer.initial false)))
    as (_ & _ & _ & H).
  apply H. discriminate.
Defined.

(* ================================================================== *)
(** * The player: keyboard, mute and volume *)
(* ================================================================== *)

(** While the caret is in the notes editor no key drives the player:
    whatever is typed there, the player's state and effects stay as they
    are, and the key's default action is not prevented. *)
Theorem typing_notes_never_drives_the_player :
  forall (video : VideoPlayer.Video) (key : string) (shiftKey : bool)
         (p : VideoPlayer.Player),
    VideoPlayer.typing_target (Some notes_editor_focused) = true
    /\ VideoPlayer.dispatch video
         (VideoPlayer.KeyDown key shiftKey (Some notes_editor_focused)) p = p.
Proof.
  intros video key shiftKey p. split; [reflexivity|].
  unfold VideoPlayer.dispatch, VideoPlayer.handleKeyPress.
  destruct (VideoPlayer.videoUrl p); cbn;
    unfold VideoPlayer.commit; now rewrite Bool.eqb_reflx.
Qed.

Section MuteFacts.

Lemma commit_same_isPlaying (p p' : VideoPlayer.Player) :
  VideoPlayer.isPlaying p' = VideoPlayer.isPlaying p -> VideoPlayer.commit p p' = p'.
Proof. intros H. unfold VideoPlayer.commit. now rewrite H, Bool.eqb_reflx. Qed.

Lemma press_m (video : VideoPlayer.Video) (shiftKey : bool)
      (active : option VideoPlayer.ActiveElement) (p : VideoPlayer.Player) :
  VideoPlayer.videoUrl p <> None ->
  VideoPlayer.typing_target active = false ->
  VideoPlayer.dispatch video (VideoPlayer.KeyDown "m" shiftKey active) p
    = VideoPlayer.setIsMuted (negb (VideoPlayer.keydown_isMuted p))
        (VideoPlayer.set_video_muted (negb (VideoPlayer.keydown_isMuted p))
           (VideoPlayer.emit VideoPlayer.preventDefault p)).
Proof.
  intros Hu Ha. unfold VideoPlayer.dispatch, VideoPlayer.handleKeyPress.
  destruct (VideoPlayer.videoUrl p) as [u|]; [|congruence].
  rewrite Ha. cbn. now apply commit_same_isPlaying.
Qed.

Lemma click_mute (video : VideoPlayer.Video) (p : VideoPlayer.Player) :
  VideoPlayer.videoUrl p <> None ->
  VideoPlayer.dispatch video VideoPlayer.ClickMute p
    = VideoPlayer.setIsMuted (negb (VideoPlayer.isMuted p))
        (VideoPlayer.set_video_muted (negb (VideoPlayer.isMuted p)) p).
Proof.
  intros Hu. unfold VideoPlayer.dispatch, VideoPlayer.toggleMute.
  destruct (VideoPlayer.videoUrl p) as [u|]; [|congruence].
  cbn. now apply commit_same_isPlaying.
Qed.

End MuteFacts.

(** The [m] key and the mute button disagree.  The key listener is
    renewed only when [isPlaying] changes, so it mutes or unmutes
    according to what [isMuted] was then: pressed twice in a row it does
    the same thing twice, and on a player that has not been muted since
    the last play or pause it can mute but not unmute.  The button reads
    the current [isMuted]: clicked twice it restores what was. *)
Theorem m_key_repeats_where_the_button_toggles :
  forall (video : VideoPlayer.Video) (shiftKey : bool)
         (active : option VideoPlayer.ActiveElement) (p : VideoPlayer.Player),
    VideoPlayer.videoUrl p <> None ->
    VideoPlayer.typing_target active = false ->
    let press := VideoPlayer.dispatch video (VideoPlayer.KeyDown "m" shiftKey active) in
    let click := VideoPlayer.dispatch video VideoPlayer.ClickMute in
    (VideoPlayer.isMuted (press p) = negb (VideoPlayer.keydown_isMuted p)
     /\ VideoPlayer.video_muted (press p) = negb (VideoPlayer.keydown_isMuted p)
     /\ VideoPlayer.isMuted (press (press p)) = VideoPlayer.isMuted (press p)
     /\ VideoPlayer.video_muted (press (press p)) = VideoPlayer.video_muted (press p))
    /\ (VideoPlayer.isMuted (click p) = negb (VideoPlayer.isMuted p)
        /\ VideoPlayer.video_muted (click p) = negb (VideoPlayer.isMuted p)
        /\ VideoPlayer.isMuted (click (click p)) = VideoPlayer.isMuted p
        /\ VideoPlayer.video_muted (click (click p)) = VideoPlayer.isMuted p)
    /\ (VideoPlayer.keydown_isMuted p = false ->
        VideoPlayer.isMuted (press (click p)) = true
        /\ VideoPlayer.video_muted (press (click p)) = true).
Proof.
  intros video shiftKey active p Hu Ha. cbv zeta.
  rewrite (press_m video shiftKey active p Hu Ha).
  rewrite (click_mute video p Hu).
  rewrite press_m by (exact Ha || exact Hu).
  rewrite click_mute by exact Hu.
  rewrite press_m by (exact Ha || exact Hu).
  cbn. rewrite Bool.negb_involutive.
  split_ands; try reflexivity; now intros ->.
Qed.

Lemma m_key_witness :
  VideoPlayer.isMuted
    (VideoPlayer.dispatch (VideoPlayer.mkVideo (Fin 0) (Fin 100))
       (VideoPlayer.KeyDown "m" false None)
       (VideoPlayer.dispatch (VideoPlayer.mkVideo (Fin 0) (Fin 100))
          (VideoPlayer.KeyDown "m" false None)
          (VideoPlayer.dispatch (VideoPlayer.mkVideo (Fin 0) (Fin 100))
             (VideoPlayer.Load (Some (VideoPlayer.mkFile "clip.mp4" "video/mp4"))
                               "blob:1")
             (VideoPlayer.initial false))))
  = true.
Proof.
  destruct (m_key_repeats_where_the_button_toggles
              (VideoPlayer.mkVideo (Fin 0) (Fin 100)) false None
              (VideoPlayer.dispatch (VideoPlayer.mkVideo (Fin 0) (Fin 100))
                 (VideoPlayer.Load (Some (VideoPlayer.mkFile "clip.mp4" "video/mp4"))
                                   "blob:1")
                 (VideoPlayer.initial false))
              ltac:(discriminate) eq_refl) as ((H1 & _ & H3 & _) & _).
  rewrite H3, H1. reflexivity.
Defined.

(** The volume slider sets [isMuted] from the value alone and leaves the
    element's [muted] flag as it is.  After the mute button and then a
    move of the slider to a volume other than 0 the player shows the
    sound as on, at that volume, while the element is still muted. *)
Theorem volume_slider_leaves_the_element_muted :
  forall (video : VideoPlayer.Video) (v : Q) (p : VideoPlayer.Player),
    VideoPlayer.videoUrl p <> None ->
    VideoPlayer.isMuted p = false ->
    ~ (v == 0)%Q ->
    let p1 := VideoPlayer.dispatch video VideoPlayer.ClickMute p in
    let p2 := VideoPlayer.dispatch video (VideoPlayer.Volume (Fin v)) p1 in
    VideoPlayer.isMuted p1 = true /\ VideoPlayer.video_muted p1 = true
    /\ VideoPlayer.isMuted p2 = false
    /\ VideoPlayer.volume p2 = Fin v
    /\ VideoPlayer.video_muted p2 = true
    /\ VideoPlayer.log p2
       = VideoPlayer.assign_volume (Fin v) :: VideoPlayer.assign_muted true
           :: VideoPlayer.log p.
Proof.
  intros video v p Hu Hm Hv. cbv zeta.
  rewrite (click_mute video p Hu), Hm.
  unfold VideoPlayer.dispatch.
  cbn [VideoPlayer.videoUrl VideoPlayer.setIsMuted VideoPlayer.set_video_muted].
  destruct (VideoPlayer.videoUrl p) as [u|]; [|congruence].
  unfold VideoPlayer.handleVolumeChange.
  rewrite commit_same_isPlaying by reflexivity.
  assert (E : Qeq_bool v 0 = false).
  { destruct (Qeq_bool v 0) eqn:E; [|reflexivity].
    exfalso. apply Hv. now apply Qeq_bool_eq. }
  cbn. rewrite E. split_ands; reflexivity.
Qed.

Lemma volume_slider_witness :
  VideoPlayer.video_muted
    (VideoPlayer.dispatch (VideoPlayer.mkVideo (Fin 0) (Fin 100))
       (VideoPlayer.Volume (Fin 0.5))
       (VideoPlayer.dispatch (VideoPlayer.mkVideo (Fin 0) (Fin 100))
          VideoPlayer.ClickMute
          (VideoPlayer.dispatch (VideoPlayer.mkVideo (Fin 0) (Fin 100))
             (VideoPlayer.Load (Some (VideoPlayer.mkFile "clip.mp4" "video/mp4"))
                               "blob:1")
             (VideoPlayer.initial false))))
  = true.
Proof.
  destruct (volume_slider_leaves_the_element_muted
              (VideoPlayer.mkVideo (Fin 0) (Fin 100)) 0.5
              (VideoPlayer.dispatch (VideoPlayer.mkVideo (Fin 0) (Fin 100))
                 (VideoPlayer.Load (Some (VideoPlayer.mkFile "clip.mp4" "video/mp4"))
                                   "blob:1")
                 (VideoPlayer.initial false))
              ltac:(discriminate) eq_refl ltac:(discriminate))
    as (_ & _ & _ & _ & H & _).
  exact H.
Defined.

(* ================================================================== *)
(** * The page renders again *)
(* ================================================================== *)

Section PageRenders.

(** Typing, then a render of the page before the autosave is due: the
    load effect puts the stored notes back into the editor, and the
    autosave, when it fires, stores them once more. *)
Lemma rerender_discards (s : State) (f : string) (saved : list markup)
      (c : list node) (t0 t1 later : Z) :
  videoFilename s = Some f -> truthy_string f = true ->
  is_some (editorRef s) = true -> timers s = [] ->
  localStorage s !! storage_key f = Some saved ->
  serialised saved -> truthy_markup saved = true ->
  t0 <= t1 < t0 + 1000 -> t0 + 1000 <= later ->
  let s1 := dispatch t0 (Input c) s in
  let s2 := page_rendered (Some f) t1 (advance t1 s1) in
  let s3 := advance later s2 in
  editorRef s1 = Some c /\ hasChanges s1 = true
  /\ editorRef s2 = Some (set_innerHTML saved) /\ hasChanges s2 = false
  /\ option_map innerHTML (editorRef s3) = Some saved
  /\ localStorage s3 = localStorage s
  /\ hasChanges s3 = false.
Proof.
  intros Hv Hf He Hts Hsaved (cs0 & Hcs0) Htm Ht Hl.
  destruct s as [vf gt gf sk hc lb er ar ls ts nt lg].
  cbn in Hv, He, Hts, Hsaved. subst vf ts. destruct er as [editor|]; [|discriminate].
  cbv zeta. unfold page_rendered. cbn [dispatch editorRef].
  set (s0 := set_editorRef _ _).
  assert (H1 : handleInput t0 s0
               = mkState (Some f) gt gf sk true lb (Some c) (Some nt) ls
                         [mkTimer nt (t0 + 1000) (AutoSaveCb (Some f))] (S nt) lg).
  { unfold handleInput, reschedule_autosave, setTimeout, clear_pending_autosave,
      clearTimeout, s0. cbn.
    destruct ar as [id|]; [destruct (id =? 0)%nat|]; reflexivity. }
  rewrite H1. clear H1 s0.
  assert (H2 : advance t1 (mkState (Some f) gt gf sk true lb (Some c) (Some nt) ls
                         [mkTimer nt (t0 + 1000) (AutoSaveCb (Some f))] (S nt) lg)
               = mkState (Some f) gt gf sk true lb (Some c) (Some nt) ls
                         [mkTimer nt (t0 + 1000) (AutoSaveCb (Some f))] (S nt) lg).
  { unfold advance. cbn. destruct (t0 + 1000 <=? t1) eqn:E; [lia | reflexivity]. }
  rewrite H2. clear H2.
  set (T1 := mkTimer nt (t0 + 1000) (AutoSaveCb (Some f))).
  set (T2 := mkTimer (S nt) (t1 + 0) (ReattachCb sk)).
  assert (H3 : activate (Some f) t1
                 (mkState (Some f) gt gf sk true lb (Some c) (Some nt) ls
                          [T1] (S nt) lg)
               = mkState (Some f) gt gf sk false lb (Some (set_innerHTML saved))
                         (Some nt) ls [T1; T2] (S (S nt)) lg).
  { unfold activate, loadNotes. cbn. rewrite Hf. cbn. rewrite Hf, Hsaved, Htm.
    reflexivity. }
  rewrite H3. clear H3. cbn [editorRef hasChanges].
  split; [reflexivity|]. split; [reflexivity|].
  split; [reflexivity|]. split; [reflexivity|].
  unfold advance. cbn [timers length advance_steps earliest].
  cbn [timer_due T1 T2].
  destruct (t1 + 0 <? t0 + 1000) eqn:E1; [|lia].
  destruct (t1 + 0 <=? later) eqn:E2; [|lia].
  assert (H4 : fire T2 (mkState (Some f) gt gf sk false lb (Some (set_innerHTML saved))
                         (Some nt) ls [T1; T2] (S (S nt)) lg)
               = mkState (Some f) gt gf sk false lb
                         (Some (map (reattach sk) (set_innerHTML saved)))
                         (Some nt) ls [T1] (S (S nt)) lg).
  { unfold fire. cbn.
    rewrite (decide_True (P := nt <> S nt)) by lia.
    rewrite (decide_False (P := S nt <> S nt)) by lia. reflexivity. }
  rewrite H4. clear H4. cbn [timers earliest timer_due T1].
  destruct (t0 + 1000 <=? later) eqn:E3; [|lia].
  unfold fire. cbn. rewrite Hf, ?E1, ?E2, ?E3. cbn.
  rewrite innerHTML_reattach, Hcs0, innerHTML_set_innerHTML.
  split; [reflexivity|]. split; [|reflexivity].
  apply insert_id. now rewrite <- Hcs0.
Qed.

End PageRenders.

(** Unsaved notes do not survive a render of the page.  The page gives
    the panel a new [seekToTime] in every render, which makes the panel's
    load effect run again: after any page event that changes the page's
    state without touching the video (another theme, something dragged
    over the page), what was typed less than a second before is replaced
    by the stored notes, is marked as saved, and never reaches the
    record. *)
Theorem page_render_discards_unsaved_notes :
  forall (a : App) (ev : Index.Event) (f url : string) (video : VideoPlayer.Video)
         (saved : list markup) (c : list node) (t0 t1 later : Z),
    Index.currentVideoFilename (page a) = Some f ->
    videoFilename (panel a) = Some f -> truthy_string f = true ->
    is_some (editorRef (panel a)) = true -> timers (panel a) = [] ->
    localStorage (panel a) !! storage_key f = Some saved ->
    serialised saved -> truthy_markup saved = true ->
    Index.state_changed ev (page a) (Index.handle ev (page a)) = true ->
    Index.stores_file ev = false -> ev <> Index.UnloadVideo ->
    t0 <= t1 < t0 + 1000 -> t0 + 1000 <= later ->
    let a1 := panel_event t0 (Input c) a in
    let a2 := page_event t1 url video ev (panel_advance t1 a1) in
    let a3 := panel_advance later a2 in
    editorRef (panel a1) = Some c /\ hasChanges (panel a1) = true
    /\ editorRef (panel a2) = Some (set_innerHTML saved)
    /\ hasChanges (panel a2) = false
    /\ option_map innerHTML (editorRef (panel a3)) = Some saved
    /\ localStorage (panel a3) = localStorage (panel a)
    /\ hasChanges (panel a3) = false.
Proof.
  intros a ev f url video saved c t0 t1 later Hp Hv Hf He Hts Hsaved Hser Htm
         Hchg Hfile Hev Ht Hl.
  destruct a as [pg pl s]. cbn [page panel player] in *.
  assert (Hadv : advance t0 s = s) by (now apply advance_no_timers).
  cbv zeta. unfold panel_event, panel_advance, page_event.
  cbn [page panel player]. rewrite Hadv, Hchg, Hfile. cbn [negb orb].
  assert (Hname : Index.currentVideoFilename (Index.handle ev pg) = Some f).
  { destruct ev as [t | [file|] | | [file|] | | | atTarget]; cbn in *;
      try congruence; try exact Hp;
      unfold Index.handleFileSelect, Index.handleDrop, Index.handleDragLeave;
      try destruct (Index.is_video file); try destruct atTarget; try exact Hp.
    unfold Index.handleThemeChange. destruct (String.eqb t "default"); exact Hp. }
  assert (Hhas : Index.has_file (Index.handle ev pg) = Index.has_file pg).
  { destruct ev as [t | [file|] | | [file|] | | | atTarget]; cbn in *;
      try congruence; try reflexivity;
      unfold Index.handleFileSelect, Index.handleDrop, Index.handleDragLeave,
        Index.has_file;
      try destruct (Index.is_video file); try destruct atTarget;
      try discriminate; try reflexivity.
    unfold Index.handleThemeChange. destruct (String.eqb t "default"); reflexivity. }
  rewrite Hhas, Bool.eqb_reflx. cbn [negb]. cbn [panel]. rewrite Hname.
  destruct (rerender_discards s f saved c t0 t1 later Hv Hf He Hts Hsaved Hser Htm
              Ht Hl) as (R1 & R2 & R3 & R4 & R5 & R6 & R7).
  split_ands; assumption.
Qed.

Lemma page_render_witness :
  option_map innerHTML
    (editorRef
       (panel
          (panel_advance 5000
             (page_event 600 "blob:1" (VideoPlayer.mkVideo (Fin 0) (Fin 100))
                (Index.ThemeChange "melatonin")
                (panel_advance 600
                   (panel_event 100 (Input [TextNode "kept and more"]) watching))))))
  = Some [MText "kept"].
Proof.
  destruct (page_render_discards_unsaved_notes watching (Index.ThemeChange "melatonin")
              "clip.mp4" "blob:1" (VideoPlayer.mkVideo (Fin 0) (Fin 100))
              [MText "kept"] [TextNode "kept and more"] 100 600 5000
              eq_refl eq_refl eq_refl eq_refl eq_refl eq_refl
              (ex_intro _ [TextNode "kept"] eq_refl) eq_refl eq_refl eq_refl
              ltac:(discriminate) ltac:(lia) ltac:(lia))
    as (_ & _ & _ & _ & H & _).
  exact H.
Defined.

(* ================================================================== *)
(** * Loading a video *)
(* ================================================================== *)

Section Loading.

Lemma reattach_twice (k : bool) (e : option (list node)) :
  option_map (map (reattach k)) (option_map (map (reattach k)) e)
    = option_map (map (reattach k)) e.
Proof.
  destruct e as [ed|]; [|reflexivity]. cbn. f_equal. rewrite map_map.
  apply map_ext_Forall, Forall_forall. intros n _. apply reattach_idempotent.
Qed.

(** When only reattach timers are pending and all are due, they all fire,
    and together they do what one of them does. *)
Lemma advance_steps_reattach_only (k : bool) (later : Z) (fuel : nat) :
  forall s : State,
    (length (timers s) <= fuel)%nat ->
    reattach_only k later (timers s) ->
    let s' := advance_steps fuel later s in
    timers s' = []
    /\ editorRef s'
       = match timers s with
         | [] => editorRef s
         | _ => option_map (map (reattach k)) (editorRef s)
         end
    /\ localStorage s' = localStorage s /\ videoFilename s' = videoFilename s
    /\ hasChanges s' = hasChanges s /\ log s' = log s
    /\ seekToTime s' = seekToTime s.
Proof.
  induction fuel as [|fuel IH]; intros s Hlen Hre; cbn [advance_steps].
  - destruct (timers s); [split_ands; reflexivity | cbn in Hlen; lia].
  - destruct (earliest (timers s)) as [t|] eqn:E.
    + pose proof (earliest_In _ _ E) as Hin.
      unfold reattach_only in Hre. rewrite Forall_forall in Hre.
      destruct (Hre t (proj2 (list_elem_of_In _ _) Hin)) as [Hdue Hcb].
      destruct (timer_due t <=? later) eqn:Ed; [|lia].
      pose proof (fire_length t s Hin) as Hlt.
      assert (Hfire : fire t s
                      = reattachStampListeners k
                          (set_timers
                             (filter (fun u => timer_id u <> timer_id t) (timers s))
                             (nextTimerId s) s)).
      { unfold fire. now rewrite Hcb. }
      assert (Hts : timers (fire t s)
                    = filter (fun u => timer_id u <> timer_id t) (timers s)).
      { apply fire_timers. }
      assert (Hed : editorRef (fire t s)
                    = option_map (map (reattach k)) (editorRef s)).
      { rewrite Hfire. unfold reattachStampListeners. cbn [editorRef set_timers].
        destruct (editorRef s) eqn:Ee; cbn; rewrite ?Ee; reflexivity. }
      assert (Hrest : localStorage (fire t s) = localStorage s
                      /\ videoFilename (fire t s) = videoFilename s
                      /\ hasChanges (fire t s) = hasChanges s
                      /\ log (fire t s) = log s
                      /\ seekToTime (fire t s) = seekToTime s).
      { rewrite Hfire. unfold reattachStampListeners. cbn [editorRef set_timers].
        destruct (editorRef s) eqn:Ee; split_ands; reflexivity. }
      destruct (IH (fire t s)) as (I1 & I2 & I3 & I4 & I5 & I6 & I7).
      { lia. }
      { unfold reattach_only. rewrite Hts. apply Forall_forall.
        intros u Hu. apply list_elem_of_filter in Hu as [_ Hu]. now apply Hre. }
      destruct Hrest as (R1 & R2 & R3 & R4 & R5).
      destruct (timers s) as [|t0 ts0] eqn:Ets; [destruct Hin|].
      split; [exact I1|]. split.
      * rewrite I2, Hed. destruct (timers (fire t s)); [reflexivity|].
        apply reattach_twice.
      * rewrite I3, I4, I5, I6, I7. split_ands; assumption.
    + apply earliest_None in E. rewrite E. split_ands; reflexivity.
Qed.

Lemma advance_reattach_only (k : bool) (later : Z) (s : State) :
  reattach_only k later (timers s) ->
  let s' := advance later s in
  timers s' = []
  /\ editorRef s'
     = match timers s with
       | [] => editorRef s
       | _ => option_map (map (reattach k)) (editorRef s)
       end
  /\ localStorage s' = localStorage s /\ videoFilename s' = videoFilename s
  /\ hasChanges s' = hasChanges s /\ log s' = log s
  /\ seekToTime s' = seekToTime s.
Proof. intros H. unfold advance. now apply advance_steps_reattach_only. Qed.

(** What the load effect does, whatever is pending. *)
Lemma activate_spec (g : option string) (now : Z) (s : State) :
  let s' := activate g now s in
  editorRef s' = loaded (localStorage s) g
  /\ localStorage s' = localStorage s /\ videoFilename s' = g
  /\ seekToTime s' = seekToTime s /\ log s' = log s
  /\ (truthy g = true -> hasChanges s' = false)
  /\ (exists new,
        timers s' = timers s ++ new
        /\ reattach_only (seekToTime s) now new
        /\ (new = [] ->
            loaded (localStorage s) g
              = option_map (map (reattach (seekToTime s)))
                           (loaded (localStorage s) g))).
Proof.
  destruct s as [vf gt gf sk hc lb er ar ls ts nt lg].
  unfold activate, loadNotes, loaded. cbn.
  destruct g as [f|]; cbn.
  - destruct (truthy_string f) eqn:Hf; cbn.
    + assert (E : forall ed0 : list node,
                 let s0 := mkState (Some f) gt gf sk hc lb (Some ed0) ar ls ts nt lg in
                 let s1 :=
                   setHasChanges false
                     match ls !! storage_key f with
                     | Some savedNotes =>
                         if truthy_markup savedNotes
                         then (setTimeout (ReattachCb sk) 0 now
                                 (set_editorRef (Some (set_innerHTML savedNotes)) s0)).2
                         else set_editorRef (Some (set_innerHTML [])) s0
                     | None => set_editorRef (Some (set_innerHTML [])) s0
                     end in
                 editorRef s1
                   = match ls !! storage_key f with
                     | Some saved =>
                         if truthy_markup saved then Some (set_innerHTML saved)
                         else Some []
                     | None => Some []
                     end
                 /\ localStorage s1 = ls /\ videoFilename s1 = Some f
                 /\ seekToTime s1 = sk /\ log s1 = lg
                 /\ (true = true -> hasChanges s1 = false)
                 /\ (exists new,
                       timers s1 = ts ++ new /\ reattach_only sk now new
                       /\ (new = [] ->
                           match ls !! storage_key f with
                           | Some saved =>
                               if truthy_markup saved then Some (set_innerHTML saved)
                               else Some []
                           | None => Some []
                           end
                           = option_map (map (reattach sk))
                               match ls !! storage_key f with
                               | Some saved =>
                                   if truthy_markup saved
                                   then Some (set_innerHTML saved)
                                   else Some []
                               | None => Some []
                               end))).
      { intros ed0. cbv zeta.
        destruct (ls !! storage_key f) as [saved|]; [destruct (truthy_markup saved)|];
          cbn; split_ands; try reflexivity.
        - eexists. split; [reflexivity|]. split; [|discriminate].
          apply Forall_cons_2; [cbn; split; [lia | reflexivity] | apply Forall_nil_2].
        - exists []. rewrite app_nil_r.
          split; [reflexivity | split; [apply Forall_nil_2 | reflexivity]].
        - exists []. rewrite app_nil_r.
          split; [reflexivity | split; [apply Forall_nil_2 | reflexivity]]. }
      destruct er as [ed|]; cbn; rewrite Hf; apply E.
    + split_ands; try reflexivity; try discriminate.
      exists []. rewrite app_nil_r.
      split; [reflexivity | split; [apply Forall_nil_2 | reflexivity]].
  - split_ands; try reflexivity; try discriminate.
    exists []. rewrite app_nil_r.
    split; [reflexivity | split; [apply Forall_nil_2 | reflexivity]].
Qed.

Lemma shown_loaded (k : bool) (st : gmap string (list markup)) (g : option string) :
  shown k st g = option_map (map (reattach k)) (loaded st g).
Proof.
  unfold shown, loaded. destruct g as [f|]; [|reflexivity].
  destruct (truthy_string f); [|reflexivity].
  destruct (st !! storage_key f) as [saved|]; [|reflexivity].
  destruct (truthy_markup saved); reflexivity.
Qed.

Lemma reattach_only_later (k : bool) (now later : Z) (ts : list Timer) :
  now <= later -> reattach_only k now ts -> reattach_only k later ts.
Proof.
  intros Hle H. unfold reattach_only in *. eapply Forall_impl; [exact H|].
  intros t [H1 H2]. split; [lia | exact H2].
Qed.

(** The load effect once more, with reattach timers still pending, and
    time for all of them to fire. *)
Lemma activate_settles_again (g : option string) (now later : Z) (s : State) :
  reattach_only (seekToTime s) later (timers s) -> now <= later ->
  let s' := advance later (activate g now s) in
  editorRef s' = shown (seekToTime s) (localStorage s) g
  /\ localStorage s' = localStorage s
  /\ timers s' = []
  /\ videoFilename s' = g
  /\ seekToTime s' = seekToTime s
  /\ log s' = log s
  /\ (truthy g = true -> hasChanges s' = false).
Proof.
  intros Hre Hle. cbv zeta.
  destruct (activate_spec g now s) as (A1 & A2 & A3 & A4 & A5 & A6 & new & A7 & A8 & A9).
  destruct (advance_reattach_only (seekToTime s) later (activate g now s))
    as (B1 & B2 & B3 & B4 & B5 & B6 & B7).
  { rewrite A7. apply Forall_app. split; [exact Hre|].
    now apply (reattach_only_later _ now). }
  rewrite B3, B4, B5, B6, B7, A2, A3, A4, A5.
  split_ands; try reflexivity; try assumption.
  rewrite B2, A1, shown_loaded, A7.
  destruct (timers s ++ new) as [|t ts] eqn:E; [|reflexivity].
  apply app_eq_nil in E as [_ ->]. now apply A9.
Qed.

End Loading.

(** Dropping a video file on the page ends with the notes of that file
    in the panel: the page stores the file, the player reports its name,
    the page passes the name on, and once the reattach timers have fired
    the panel shows the record kept under that name (an empty editor if
    there is none), marked as unchanged.  The notes depend on the name
    alone.  A file that is not a video leaves the video as it was and
    shows a notice. *)
Theorem dropping_a_video_loads_its_notes :
  forall (a : App) (file : VideoPlayer.File) (url : string)
         (video : VideoPlayer.Video) (now later : Z),
    truthy_string (VideoPlayer.file_name file) = true ->
    timers (panel a) = [] -> now <= later ->
    let name := VideoPlayer.file_name file in
    let a1 := page_event now url video (Index.Drop (Some file)) a in
    let s := advance later (panel a1) in
    (Index.is_video file = true ->
     Index.videoFile (page a1) = Some file
     /\ Index.currentVideoFilename (page a1) = Some name
     /\ VideoPlayer.videoUrl (player a1) = Some url
     /\ videoFilename s = Some name
     /\ editorRef s = shown (seekToTime (panel a)) (localStorage (panel a)) (Some name)
     /\ hasChanges s = false
     /\ localStorage s = localStorage (panel a))
    /\ (Index.is_video file = false ->
        Index.videoFile (page a1) = Index.videoFile (page a)
        /\ Index.currentVideoFilename (page a1) = Index.currentVideoFilename (page a)
        /\ Index.log (page a1)
           = Index.toast_error "Please drop a valid video file"
               :: Index.stopPropagation :: Index.preventDefault
               :: Index.log (page a)
        /\ player a1 = player a).
Proof.
  intros a file url video now later Hname Hts Hle. cbv zeta.
  destruct a as [pg pl s]. cbn [page panel player] in *.
  unfold page_event. cbn [page panel player Index.handle].
  unfold Index.handleDrop. split; intros Hvid; rewrite Hvid.
  - assert (Hsc : forall pg', Index.state_changed (Index.Drop (Some file)) pg pg'
                              = true).
    { intros pg'. unfold Index.state_changed. cbn [Index.stores_file].
      now rewrite Hvid. }
    rewrite Hsc. cbn [Index.stores_file]. rewrite Hvid. cbn [orb negb].
    set (pg1 := Index.emit _ _).
    assert (Hp1 : VideoPlayer.dispatch video
                    (VideoPlayer.Load (Index.videoFile pg1) url) pl
                  = VideoPlayer.load_effect (Some file) url pl).
    { unfold VideoPlayer.dispatch. cbn [Index.videoFile pg1 Index.emit Index.setVideoFile].
      apply commit_same_isPlaying. unfold VideoPlayer.load_effect.
      destruct (VideoPlayer.videoUrl pl); reflexivity. }
    rewrite Hp1.
    assert (Hrep : reported_name (VideoPlayer.load_effect (Some file) url pl)
                   = Some (VideoPlayer.file_name file)) by reflexivity.
    rewrite Hrep.
    assert (Hurl : VideoPlayer.videoUrl (VideoPlayer.load_effect (Some file) url pl)
                   = Some url) by reflexivity.
    change (Index.videoFile pg1) with (Some file).
    change (Index.currentVideoFilename pg1) with (Index.currentVideoFilename pg).
    unfold page_rendered.
    destruct (Index.same_option_string (Index.currentVideoFilename pg)
                (Some (VideoPlayer.file_name file))) eqn:Esame; cbn [page panel player].
    + assert (Hcur : Index.currentVideoFilename pg = Some (VideoPlayer.file_name file)).
      { destruct (Index.currentVideoFilename pg) as [x|]; [|discriminate].
        cbn in Esame. apply String.eqb_eq in Esame. now subst x. }
      rewrite Hcur.
      destruct (activate_settles (Some (VideoPlayer.file_name file)) now later s
                  Hts Hle) as (S1 & S2 & S3 & S4 & S5 & S6 & S7).
      split_ands; try reflexivity; try assumption. apply S7. exact Hname.
    + destruct (activate_spec (Index.currentVideoFilename pg) now s)
        as (A1 & A2 & A3 & A4 & A5 & A6 & new & A7 & A8 & A9).
      rewrite Hts in A7. cbn [app] in A7.
      destruct (activate_settles_again (Some (VideoPlayer.file_name file)) now later
                  (activate (Index.currentVideoFilename pg) now s))
        as (S1 & S2 & S3 & S4 & S5 & S6 & S7).
      { rewrite A7, A4. now apply (reattach_only_later _ now). }
      { exact Hle. }
      rewrite A4, A2 in S1. rewrite A2 in S2.
      split_ands; try reflexivity; try assumption. apply S7. exact Hname.
  - assert (Hchg : forall b : bool,
               Index.stores_file (Index.Drop (Some file)) = false
               /\ Index.has_file
                    (Index.emit (Index.toast_error "Please drop a valid video file")
                       (Index.setIsDragging b
                          (Index.emit Index.stopPropagation
                             (Index.emit Index.preventDefault pg))))
                  = Index.has_file pg).
    { intros b. cbn [Index.stores_file]. now rewrite Hvid. }
    destruct (Hchg false) as (Hsf & Hhf).
    destruct (negb (Index.state_changed _ pg _)); cbn [page player];
      [split_ands; reflexivity|].
    rewrite Hsf, Hhf, Bool.eqb_reflx. cbn [orb negb page player].
    split_ands; reflexivity.
Qed.

Lemma dropping_a_video_witness :
  editorRef
    (advance 20
       (panel
          (page_event 10 "blob:2" (VideoPlayer.mkVideo (Fin 0) NaN)
             (Index.Drop (Some (VideoPlayer.mkFile "clip.mp4" "video/mp4")))
             (mkApp (Index.initial None None) (VideoPlayer.initial false)
                    (mount None (Some (Fin 0)) (Some (Fin 0)) true
                           {[ storage_key "clip.mp4" := [MText "kept"] ]} 0)))))
  = Some [TextNode "kept"].
Proof.
  destruct (dropping_a_video_loads_its_notes
              (mkApp (Index.initial None None) (VideoPlayer.initial false)
                     (mount None (Some (Fin 0)) (Some (Fin 0)) true
                            {[ storage_key "clip.mp4" := [MText "kept"] ]} 0))
              (VideoPlayer.mkFile "clip.mp4" "video/mp4") "blob:2"
              (VideoPlayer.mkVideo (Fin 0) NaN) 10 20 eq_refl eq_refl ltac:(lia))
    as (H & _).
  destruct (H eq_refl) as (_ & _ & _ & _ & He & _).
  rewrite He. vm_compute. reflexivity.
Defined.

(* ================================================================== *)
(** * The theme *)
(* ================================================================== *)

(** The chosen theme survives a reload of the page: what
    [handleThemeChange] stores is what the first effect of a new page
    reads back, giving the same theme and the same [data-theme]
    attribute on the root element (none for the default theme).  On a
    first visit the theme is the default.  The theme's storage key is
    not the key of any video's notes. *)
Theorem theme_survives_reload :
  forall (pg : Index.Page) (newTheme : string),
    truthy_string newTheme = true ->
    let pg1 := Index.handleThemeChange newTheme pg in
    let fresh := Index.load_theme (Index.initial (Index.theme_item pg1) None) in
    Index.theme pg1 = newTheme
    /\ Index.data_theme pg1
       = (if String.eqb newTheme "default" then None else Some newTheme)
    /\ Index.theme fresh = newTheme
    /\ Index.data_theme fresh = Index.data_theme pg1
    /\ Index.theme (Index.load_theme (Index.initial None None)) = "default"
    /\ Index.data_theme (Index.load_theme (Index.initial None None)) = None
    /\ (forall f, storage_key f <> Index.theme_key).
Proof.
  intros pg newTheme Ht. cbv zeta.
  unfold Index.handleThemeChange, Index.load_theme, Index.initial.
  cbn [Index.theme_item Index.emit Index.set_data_theme Index.set_theme_item
       Index.setTheme Index.theme Index.data_theme or_string].
  destruct (String.eqb newTheme "default") eqn:E;
    cbn [Index.theme_item Index.emit Index.set_data_theme Index.set_theme_item
         Index.setTheme Index.theme Index.data_theme or_string];
    rewrite Ht, E; cbn; split_ands; try reflexivity;
    intros f; unfold storage_key, Index.theme_key; cbn; discriminate.
Qed.

Lemma theme_survives_reload_witness :
  Index.data_theme
    (Index.load_theme
       (Index.initial
          (Index.theme_item
             (Index.handleThemeChange "melatonin" (Index.initial None None)))
          None))
  = Some "melatonin".
Proof.
  destruct (theme_survives_reload (Index.initial None None) "melatonin" eq_refl)
    as (_ & H2 & _ & H4 & _).
  rewrite H4, H2. reflexivity.
Defined.

(* ================================================================== *)
(** * Replacing the video *)
(* ================================================================== *)

(** The player's effect on a new file does not reset the play state or
    the position: after another file is loaded while one is playing,
    [isPlaying] is still true and the time the accessor reports is still
    the old position, so the next click on play pauses instead of
    playing.  Unloading resets both. *)
Theorem replacing_the_file_keeps_play_state :
  forall (video : VideoPlayer.Video) (file : VideoPlayer.File) (url : string)
         (p : VideoPlayer.Player),
    VideoPlayer.videoUrl p <> None ->
    VideoPlayer.isPlaying p = true ->
    let p1 := VideoPlayer.dispatch video (VideoPlayer.Load (Some file) url) p in
    let p2 := VideoPlayer.dispatch video VideoPlayer.ClickPlay p1 in
    let p0 := VideoPlayer.dispatch video (VideoPlayer.Load None url) p in
    VideoPlayer.isPlaying p1 = true
    /\ getCurrentVideoTime (VideoPlayer.currentTime p1)
       = getCurrentVideoTime (VideoPlayer.currentTime p)
    /\ VideoPlayer.log p2 = VideoPlayer.pause :: VideoPlayer.log p1
    /\ VideoPlayer.isPlaying p2 = false
    /\ VideoPlayer.isPlaying p0 = false
    /\ VideoPlayer.currentTime p0 = Fin 0 /\ VideoPlayer.duration p0 = Fin 0
    /\ VideoPlayer.videoUrl p0 = None.
Proof.
  intros video file url p Hu Hp. cbv zeta.
  destruct p as [fn pl ct du vo mu sc vu cf fe vm km lg]. cbn in Hu, Hp. subst pl.
  destruct vu as [u|]; [|congruence].
  unfold VideoPlayer.dispatch, VideoPlayer.commit. cbn. split_ands; reflexivity.
Qed.

Lemma replacing_the_file_witness :
  VideoPlayer.log
    (VideoPlayer.dispatch (VideoPlayer.mkVideo (Fin 0) NaN) VideoPlayer.ClickPlay
       (VideoPlayer.dispatch (VideoPlayer.mkVideo (Fin 0) NaN)
          (VideoPlayer.Load (Some (VideoPlayer.mkFile "b.mp4" "video/mp4")) "blob:2")
          (VideoPlayer.mkPlayer false true (Fin 42) (Fin 100) (Fin 1) false true
                                (Some "blob:1") false false false false [])))
  = [VideoPlayer.pause; VideoPlayer.onVideoLoad "b.mp4";
     VideoPlayer.createObjectURL "b.mp4"].
Proof.
  destruct (replacing_the_file_keeps_play_state (VideoPlayer.mkVideo (Fin 0) NaN)
              (VideoPlayer.mkFile "b.mp4" "video/mp4") "blob:2"
              (VideoPlayer.mkPlayer false true (Fin 42) (Fin 100) (Fin 1) false true
                                    (Some "blob:1") false false false false [])
              ltac:(discriminate) eq_refl) as (_ & _ & H & _).
  rewrite H. reflexivity.
Defined.

(* ================================================================== *)
(** * Stamp ids *)
(* ================================================================== *)

Section Ids.

Lemma append_cancel_l (p x y : string) : p +:+ x = p +:+ y -> x = y.
Proof. induction p as [|c p IH]; cbn; [auto | intros [= H]; auto]. Qed.

Lemma Number_toString_Z_injective (n m : Z) :
  Number_toString (Fin (inject_Z n)) = Number_toString (Fin (inject_Z m)) -> n = m.
Proof.
  intros H.
  pose proof (parseFloat_Number_toString (inject_Z n) (is_decimal_inject_Z n)) as Hn.
  pose proof (parseFloat_Number_toString (inject_Z m) (is_decimal_inject_Z m)) as Hm.
  rewrite H in Hn.
  destruct (parseFloat (Number_toString (Fin (inject_Z m)))) as [| neg | q];
    cbn [num_eq] in Hn, Hm; try contradiction.
  rewrite Hn in Hm. unfold Qeq in Hm. cbn in Hm. lia.
Qed.

Lemma inserted_time_stamp_id (s : State) (time : number) (f : string)
      (editor : list node) (sel : option Selection) (p : path) (now : Z) :
  getCurrentTime s = Some time ->
  videoFilename s = Some f -> truthy_string f = true ->
  editorRef s = Some editor -> lands editor sel p ->
  stamp_id_at_path (dispatch now (ClickInsertTimestamp sel) s) p
    = Some ("time-" +:+ Number_toString (Fin (inject_Z now))).
Proof.
  intros Ht Hv Hf He Hl. cbn [dispatch]. unfold insertTimestamp.
  rewrite Ht, Hv, He, Hf.
  match goal with
  | |- context [insertStampButton ?st ?tx sel now s] =>
      destruct (insertStampButton_lands st tx sel p now s editor He Hl)
        as (s1 & editor1 & -> & He1 & Hn & _)
  end.
  cbn [and_then uncaught_of]. unfold stamp_id_at_path. cbn [editorRef emit].
  rewrite He1, Hn. apply stampButton_dataset.
Qed.

Lemma inserted_frame_stamp_id (s : State) (frame : number) (f : string)
      (editor : list node) (sel : option Selection) (p : path) (now : Z) :
  getCurrentFrame s = Some frame ->
  videoFilename s = Some f -> truthy_string f = true ->
  editorRef s = Some editor -> lands editor sel p ->
  stamp_id_at_path (dispatch now (ClickInsertFrameStamp sel) s) p
    = Some ("frame-" +:+ Number_toString (Fin (inject_Z now))).
Proof.
  intros Ht Hv Hf He Hl. cbn [dispatch]. unfold insertFrameStamp.
  rewrite Ht, Hv, He, Hf.
  match goal with
  | |- context [insertStampButton ?st ?tx sel now s] =>
      destruct (insertStampButton_lands st tx sel p now s editor He Hl)
        as (s1 & editor1 & -> & He1 & Hn & _)
  end.
  cbn [and_then uncaught_of]. unfold stamp_id_at_path. cbn [editorRef emit].
  rewrite He1, Hn. apply stampButton_dataset.
Qed.

End Ids.

(** Stamp ids tell stamps apart.  Take any two insertions, each into a
    panel that is ready and at a selection that makes the button land
    somewhere: the buttons they place carry an id each; two time stamps
    carry the same id exactly when they were inserted at the same clock
    reading, and so do two frame stamps; a time stamp and a frame stamp
    never carry the same id. *)
Theorem stamp_ids_tell_stamps_apart :
  forall (sA sB : State) (timeA timeB frameA frameB : number) (fA fB : string)
         (edA edB : list node) (selA selB : option Selection) (pA pB : path)
         (nowA nowB : Z),
    getCurrentTime sA = Some timeA -> getCurrentFrame sA = Some frameA ->
    videoFilename sA = Some fA -> truthy_string fA = true ->
    editorRef sA = Some edA -> lands edA selA pA ->
    getCurrentTime sB = Some timeB -> getCurrentFrame sB = Some frameB ->
    videoFilename sB = Some fB -> truthy_string fB = true ->
    editorRef sB = Some edB -> lands edB selB pB ->
    let timeA' := stamp_id_at_path (dispatch nowA (ClickInsertTimestamp selA) sA) pA in
    let timeB' := stamp_id_at_path (dispatch nowB (ClickInsertTimestamp selB) sB) pB in
    let frameA' := stamp_id_at_path (dispatch nowA (ClickInsertFrameStamp selA) sA) pA in
    let frameB' := stamp_id_at_path (dispatch nowB (ClickInsertFrameStamp selB) sB) pB in
    is_some timeA' = true /\ is_some frameA' = true
    /\ (timeA' = timeB' <-> nowA = nowB)
    /\ (frameA' = frameB' <-> nowA = nowB)
    /\ timeA' <> frameB'.
Proof.
  intros sA sB timeA timeB frameA frameB fA fB edA edB selA selB pA pB nowA nowB
         HtA HfrA HvA HfA HeA HlA HtB HfrB HvB HfB HeB HlB. cbv zeta.
  rewrite (inserted_time_stamp_id sA timeA fA edA selA pA nowA HtA HvA HfA HeA HlA).
  rewrite (inserted_time_stamp_id sB timeB fB edB selB pB nowB HtB HvB HfB HeB HlB).
  rewrite (inserted_frame_stamp_id sA frameA fA edA selA pA nowA HfrA HvA HfA HeA HlA).
  rewrite (inserted_frame_stamp_id sB frameB fB edB selB pB nowB HfrB HvB HfB HeB HlB).
  split; [reflexivity|]. split; [reflexivity|]. split; [| split].
  - split; [|intros ->; reflexivity]. intros H.
    apply (inj Some), (append_cancel_l "time-") in H.
    apply Number_toString_Z_injective. exact H.
  - split; [|intros ->; reflexivity]. intros H.
    apply (inj Some), (append_cancel_l "frame-") in H.
    apply Number_toString_Z_injective. exact H.
  - intros H. apply (inj Some) in H. discriminate H.
Qed.

Lemma stamp_ids_witness :
  stamp_id_at_path
    (dispatch 1700000000000 (ClickInsertTimestamp None) sample_state) [1%nat]
  <> stamp_id_at_path
       (dispatch 1700000000001 (ClickInsertTimestamp None) sample_state) [1%nat].
Proof.
  destruct (stamp_ids_tell_stamps_apart sample_state sample_state
              (Fin 12.5) (Fin 12.5) (Fin 375) (Fin 375) "clip.mp4" "clip.mp4"
              [TextNode "intro "] [TextNode "intro "] None None [1%nat] [1%nat]
              1700000000000 1700000000001
              eq_refl eq_refl eq_refl eq_refl eq_refl
              (lands_at_end_null [TextNode "intro "])
              eq_refl eq_refl eq_refl eq_refl eq_refl
              (lands_at_end_null [TextNode "intro "]))
    as (_ & _ & H & _).
  intros E. apply H in E. discriminate.
Defined.

(* ================================================================== *)
(** * Export names *)
(* ================================================================== *)

Section ExportNames.

Lemma span_extension_dotless (l : list ascii) :
  forallb (fun c => negb (Ascii.eqb c ".")) l = true ->
  snd (span_extension l) = []
  \/ exists rest, snd (span_extension l) = "/"%char :: rest.
Proof.
  induction l as [|c l IH]; [now left|]. cbn [forallb span_extension].
  intros H. apply andb_true_iff in H as [Hc Hl].
  apply negb_true_iff in Hc. rewrite Hc. cbn [orb].
  destruct (Ascii.eqb c "/") eqn:Es.
  - right. apply Ascii.eqb_eq in Es. subst c. now exists l.
  - destruct (span_extension l) as [ext rest]. cbn [snd] in *. now apply IH.
Qed.

Lemma strip_extension_dotless (s : string) :
  dotless s = true -> strip_extension s = s.
Proof.
  unfold dotless, strip_extension. intros H.
  assert (Hr : forallb (fun c => negb (Ascii.eqb c "."))
                       (rev (list_ascii_of_string s)) = true).
  { apply forallb_forall. intros c Hc. apply in_rev in Hc.
    rewrite forallb_forall in H. now apply H. }
  destruct (span_extension_dotless _ Hr) as [E | (rest & E)];
    destruct (span_extension (rev (list_ascii_of_string s))) as [ext tl];
    cbn [snd] in E; subst tl; destruct ext; reflexivity.
Qed.

Lemma strip_extension_trailing_dot (s : string) :
  strip_extension (s +:+ ".") = s +:+ ".".
Proof.
  unfold strip_extension. rewrite list_ascii_of_string_app, rev_app_distr.
  reflexivity.
Qed.

End ExportNames.

(** The name of the exported file at its edges: a video name without a
    dot is kept whole, a name that ends in a dot is kept whole, and of
    several extensions only the last one goes. *)
Theorem export_filename_edges :
  (forall f : string, dotless f = true -> export_filename f = f +:+ "_notes.md")
  /\ (forall f : string, export_filename (f +:+ ".") = f +:+ "." +:+ "_notes.md")
  /\ (forall base ext : string,
         truthy_string ext = true -> dotless ext = true ->
         forallb (fun c => negb (Ascii.eqb c "/")) (list_ascii_of_string ext) = true ->
         export_filename (base +:+ "." +:+ ext) = base +:+ "_notes.md").
Proof.
  unfold export_filename. split; [| split].
  - intros f H. now rewrite strip_extension_dotless.
  - intros f. rewrite strip_extension_trailing_dot. now rewrite append_assoc.
  - intros base ext Ht Hd Hs. rewrite strip_extension_spec; [reflexivity | exact Ht|].
    unfold dotless in Hd. apply forallb_forall. intros c Hc.
    rewrite forallb_forall in Hd, Hs. unfold extension_char.
    pose proof (Hd c Hc) as H1. pose proof (Hs c Hc) as H2.
    apply negb_true_iff in H1, H2. now rewrite H1, H2.
Qed.

Lemma export_filename_edges_witness :
  export_filename "recording" = "recording_notes.md"
  /\ export_filename "lecture.final.mp4" = "lecture.final_notes.md".
Proof.
  destruct export_filename_edges as (H1 & _ & H3). split.
  - apply (H1 "recording"). reflexivity.
  - apply (H3 "lecture.final" "mp4"); reflexivity.
Defined.
